(** * Intelixir news ingestion: a shallow embedding of the backend services

    This development embeds in Rocq the parts of the backend that the
    specification's properties are about:

    - [src/backend/services/newsService.js]: the ingestion pipeline
      ([fetchAndProcessNews], [processCategoryNews], [processWithAI],
      [createNewsPost]) and the auxiliary [generateTags] call;
    - [src/backend/models/index.js]: the Post schema (declared validators and
      defaults) and the [pre('save')] hook that recomputes [engagement].

    Modelling conventions.

    - A JavaScript string is the list of its UTF-16 code units ([jsstring]).
      [String.prototype.trim], [substring], [split] and the three regular
      expressions of [processWithAI] are written out on code units;
      [toLowerCase] (full Unicode case mapping) is a parameter.
    - A JavaScript Number is an IEEE 754 binary64 value ([float]).
    - An [async] function is a computation over an explicit [World]: the
      document collections, the [processedCount] object the pipeline mutates,
      and the trace of the effects performed so far (queries, outbound calls,
      saves, console lines), in order.  A computation ends by returning a value
      or by throwing; the world it leaves behind is kept in both cases.
    - The two external services (news search and generative model) are
      arbitrary functions of the history and of the request, which may answer
      or throw.  Queries on the document collections are lookups in the
      collections of the [World]; the query for the admin user, the one query
      awaited outside the loops, may also reject.  [save] runs the validation
      of the schema and the [pre('save')] hook and may still be refused by
      the store.
    - [new Date(text)] is a parameter, as [toLowerCase] is: a Date is its
      time value or an Invalid Date. *)

From Stdlib Require Import List NArith ZArith Bool Ascii Lia.
From Stdlib Require String.
From Stdlib Require Import Floats Uint63.
Import ListNotations.
Import String.StringSyntax.
Delimit Scope string_scope with string.

Set Implicit Arguments.

(* ===================================================================== *)
(** ** JavaScript strings as sequences of UTF-16 code units *)
(* ===================================================================== *)

Module JS.

Definition jsstring := list N.

(** A string literal of the source, as code units. *)
Definition js (s : String.string) : jsstring :=
  map N_of_ascii (String.list_ascii_of_string s).
Arguments js s%_string.

(** ECMAScript LineTerminator: LF, CR, LS, PS. *)
Definition isLineTerminator (c : N) : bool :=
  ((c =? 0x0A) || (c =? 0x0D) || (c =? 0x2028) || (c =? 0x2029))%N.

(** ECMAScript WhiteSpace: TAB, VT, FF, ZWNBSP and the Space_Separator
    category. *)
Definition isWhiteSpace (c : N) : bool :=
  ((c =? 0x09) || (c =? 0x0B) || (c =? 0x0C) || (c =? 0x20) || (c =? 0xA0)
   || (c =? 0xFEFF) || (c =? 0x1680)
   || ((0x2000 <=? c) && (c <=? 0x200A))
   || (c =? 0x202F) || (c =? 0x205F) || (c =? 0x3000))%N.

(** The code units that [trim] strips. *)
Definition isTrimmed (c : N) : bool := isWhiteSpace c || isLineTerminator c.

Fixpoint dropWhile (f : N -> bool) (s : jsstring) : jsstring :=
  match s with
  | [] => []
  | c :: s' => if f c then dropWhile f s' else s
  end.

Fixpoint takeWhile (f : N -> bool) (s : jsstring) : jsstring :=
  match s with
  | [] => []
  | c :: s' => if f c then c :: takeWhile f s' else []
  end.

Definition trimStart (s : jsstring) : jsstring := dropWhile isTrimmed s.
Definition trimEnd (s : jsstring) : jsstring := rev (dropWhile isTrimmed (rev s)).

(** [s.trim()] *)
Definition trim (s : jsstring) : jsstring := trimEnd (trimStart s).

(** [s.substring(start, end)] for non-negative integer arguments: both are
    clamped to the length and swapped when out of order. *)
Definition substring (s : jsstring) (start end_ : nat) : jsstring :=
  let a := Nat.min start (length s) in
  let b := Nat.min end_ (length s) in
  let from := Nat.min a b in
  let to := Nat.max a b in
  firstn (to - from) (skipn from s).

(** [s.split(sep)] for a separator of one code unit. *)
Fixpoint split (sep : N) (s : jsstring) : list jsstring :=
  match s with
  | [] => [[]]
  | c :: s' =>
      if (c =? sep)%N then [] :: split sep s'
      else match split sep s' with
           | piece :: pieces => (c :: piece) :: pieces
           | [] => [[c]]
           end
  end.

Fixpoint startsWith (p s : jsstring) : bool :=
  match p, s with
  | [], _ => true
  | _ :: _, [] => false
  | a :: p', b :: s' => (a =? b)%N && startsWith p' s'
  end.

(** [s.includes(p)]: [p] occurs somewhere in [s]. *)
Fixpoint includes (s p : jsstring) : bool :=
  startsWith p s
  || match s with
     | [] => false
     | _ :: s' => includes s' p
     end.

(** [arr.join(sep)] *)
Fixpoint join (sep : jsstring) (l : list jsstring) : jsstring :=
  match l with
  | [] => []
  | [x] => x
  | x :: l' => x ++ sep ++ join sep l'
  end.

(** [a === b] on strings. *)
Definition str_eqb (a b : jsstring) : bool :=
  if list_eq_dec N.eq_dec a b then true else false.

(** Truthiness of a value that is a string, [null] or [undefined]. *)
Definition truthy (v : option jsstring) : bool :=
  match v with
  | Some (_ :: _) => true
  | _ => false
  end.

(** *** The regular expressions of [processWithAI]

    A regular expression is tried at every position from the left; the first
    position where it matches wins. *)
Fixpoint leftmost {A : Type} (at_pos : jsstring -> option A) (s : jsstring)
  : option A :=
  match at_pos s with
  | Some r => Some r
  | None =>
      match s with
      | [] => None
      | _ :: s' => leftmost at_pos s'
      end
  end.

(** [(.+)] at the end of a pattern: the longest run of code units other than
    line terminators, at least one. *)
Definition dotPlus (s : jsstring) : option jsstring :=
  match takeWhile (fun c => negb (isLineTerminator c)) s with
  | [] => None
  | run => Some run
  end.

(** [/<lit>(.+)/] at one position; the result is capture group 1. *)
Definition literal_dotPlus (lit s : jsstring) : option jsstring :=
  if startsWith lit s then dotPlus (skipn (length lit) s) else None.

(** The lookahead [(?=TAGS:|$)]. *)
Definition tags_or_end (s : jsstring) : bool :=
  startsWith (js "TAGS:") s
  || match s with
     | [] => true
     | _ => false
     end.

(** The lazy tail of [[\s\S]+?]: extend by one code unit at a time until the
    lookahead holds. *)
Fixpoint lazyUntil (stop : jsstring -> bool) (s : jsstring) : jsstring :=
  match s with
  | [] => []
  | c :: s' => if stop s then [] else c :: lazyUntil stop s'
  end.

(** [([\s\S]+?)(?=TAGS:|$)]: at least one code unit, then as few as possible. *)
Definition lazyPlus_lookahead (s : jsstring) : option jsstring :=
  match s with
  | [] => None
  | c :: s' => Some (c :: lazyUntil tags_or_end s')
  end.

Definition literal_lazyPlus (lit s : jsstring) : option jsstring :=
  if startsWith lit s then lazyPlus_lookahead (skipn (length lit) s) else None.

(** [text.match(/TITLE: (.+)/)], as its capture group 1. *)
Definition titleMatch (text : jsstring) : option jsstring :=
  leftmost (literal_dotPlus (js "TITLE: ")) text.

(** [text.match(/SUMMARY: ([\s\S]+?)(?=TAGS:|$)/)], as its capture group 1. *)
Definition summaryMatch (text : jsstring) : option jsstring :=
  leftmost (literal_lazyPlus (js "SUMMARY: ")) text.

(** [text.match(/TAGS: (.+)/)], as its capture group 1. *)
Definition tagsMatch (text : jsstring) : option jsstring :=
  leftmost (literal_dotPlus (js "TAGS: ")) text.

(** ASCII lower-casing: what [toLowerCase] does on code units below 128.  It
    instantiates the [toLowerCase] parameter in the concrete runs below. *)
Definition asciiLower (s : jsstring) : jsstring :=
  map (fun c => if ((0x41 <=? c) && (c <=? 0x5A))%N then (c + 0x20)%N else c) s.

End JS.

Import JS.

(* ===================================================================== *)
(** ** Data model ([src/backend/models/index.js]) *)
(* ===================================================================== *)

Definition ObjectId := N.

Inductive Role := role_user | role_admin.

(** The fields of a user document that the pipeline reads. *)
Record User := { user_id : ObjectId; user_role : Role }.

Record Category := { category_id : ObjectId; category_name : jsstring }.

(** An article of the external news source.  A missing ([null]) field is
    [None]. *)
Module Article.
Record t := {
  title : option jsstring;
  description : option jsstring;
  content : option jsstring;
  url : jsstring;
  urlToImage : option jsstring;
  publishedAt : option jsstring
}.
End Article.

(** A Date object: its time value, in milliseconds since the epoch, or an
    Invalid Date (the time value NaN). *)
Inductive Date :=
| InvalidDate
| DateAt (time : Z).

(** [type: { enum: ['text', 'image', 'link', 'news'], default: 'text' }] *)
Inductive PostType := type_text | type_image | type_link | type_news.

Record Link := {
  link_url : option jsstring;
  link_title : option jsstring;
  link_description : option jsstring;
  link_image : option jsstring
}.

Record Like := { like_user : ObjectId }.
Record Comment := { comment_user : ObjectId; comment_content : jsstring }.

Module Post.
Record t := {
  title : option jsstring;
  content : option jsstring;
  author : option ObjectId;
  type : PostType;
  image : option jsstring;
  link : option Link;
  categories : list ObjectId;
  tags : list jsstring;
  isNews : bool;
  originalSource : option jsstring;
  publishedAt : option Date;
  likes : list Like;
  comments : list Comment;
  shares : option float;
  views : option float;
  engagement : float;
  isActive : bool
}.

Definition with_engagement (p : t) (e : float) : t :=
  {| title := title p; content := content p; author := author p;
     type := type p; image := image p; link := link p;
     categories := categories p; tags := tags p; isNews := isNews p;
     originalSource := originalSource p; publishedAt := publishedAt p;
     likes := likes p; comments := comments p; shares := shares p;
     views := views p; engagement := e; isActive := isActive p |}.
End Post.

(** *** The engagement hook *)

(** An array length as a Number. *)
Definition Number_of_length (n : nat) : float :=
  PrimFloat.of_uint63 (Uint63.of_Z (Z.of_nat n)).

(** [x || 0] for a Number field that may be [null] or [undefined]: the falsy
    Numbers are NaN, +0 and -0. *)
Definition or_zero (x : option float) : float :=
  match x with
  | Some v => if PrimFloat.is_nan v || PrimFloat.is_zero v then 0%float else v
  | None => 0%float
  end.

(** The double nearest to 0.1, which is what the literal [0.1] denotes. *)
Definition one_tenth : float := 0x1.999999999999ap-4%float.

(** [postSchema.pre('save', function(next) { ... })] *)
Definition pre_save (p : Post.t) : Post.t :=
  let likes := Number_of_length (length (Post.likes p)) in
  let comments := Number_of_length (length (Post.comments p)) in
  let shares := or_zero (Post.shares p) in
  let views := or_zero (Post.views p) in
  Post.with_engagement p
    ((likes * 3) + (comments * 5) + (shares * 7) + (views * one_tenth))%float.

(** The engagement score as the specification words it:
    [likes*3 + comments*5 + shares*7 + views*0.1]. *)
Definition engagement_formula (likes comments : nat) (shares views : float)
  : float :=
  (Number_of_length likes * 3 + Number_of_length comments * 5
   + shares * 7 + views * one_tenth)%float.

(** A Number that is neither NaN nor the negative zero (a counter is one). *)
Definition plain_number (x : float) : Prop :=
  PrimFloat.is_nan x = false /\ (PrimFloat.is_zero x = true -> x = 0%float).

(** *** Validation of a post

    The declared validators: [title]: maxlength 200; [content]: required,
    maxlength 5000; [author]: required; comment [content]: required,
    maxlength 1000.  [type] is in the enumeration by construction.  The cast
    of the values to the types of the schema: [publishedAt] is a Date, and an
    Invalid Date fails the cast, which [save] reports as a validation error;
    the other fields have the type of their path by construction. *)
Definition validate (p : Post.t) : bool :=
  match Post.title p with
  | Some t => length t <=? 200
  | None => true
  end
  && match Post.content p with
     | Some ((_ :: _) as c) => length c <=? 5000
     | _ => false
     end
  && match Post.author p with
     | Some _ => true
     | None => false
     end
  && forallb (fun c => match comment_content c with
                       | [] => false
                       | s => length s <=? 1000
                       end) (Post.comments p)
  && match Post.publishedAt p with
     | Some InvalidDate => false
     | _ => true
     end.

(* ===================================================================== *)
(** ** Effects: the world, the trace and asynchronous computations *)
(* ===================================================================== *)

(** Values that are thrown.  [Error m] is [new Error(m)]; [ValidationError]
    is what [save] rejects with when a declared validator fails; [Failure n]
    stands for whatever a collaborator throws. *)
Inductive exn :=
| Error (message : jsstring)
| ValidationError
| Failure (code : N).

(** The object [{ success, failed }]. *)
Record Counts := { success : N; failed : N }.

(** The argument of [newsApi.v2.everything]. *)
Record SearchParams := {
  language : jsstring;
  pageSize : N;
  q : jsstring;
  sortBy : jsstring
}.

(** The lines written with [console.log] and [console.error]. *)
Inductive console_line :=
| LogStarting
| LogCompleted (c : Counts)
| LogCategoryNotFound (name : jsstring)
| LogNoArticles (name : jsstring)
| LogAlreadyExists (title : option jsstring)
| LogSkipping
| LogSuccess (title : jsstring)
| ErrTopic (name : jsstring) (error : exn)
| ErrFetchAndProcess (error : exn)
| ErrArticle (error : exn)
| ErrCategory (name : jsstring) (error : exn)
| ErrFormatInvalid
| ErrAI (error : exn)
| ErrCreate (error : exn)
| ErrTags (error : exn).

(** The effects a run performs, in order. *)
Inductive event :=
| UserFindOne (role : Role)
| CategoryFindOne (name : jsstring)
| PostFindOne (originalSource : jsstring) (isNews : bool)
| PostSave (p : Post.t)
| NewsEverything (params : SearchParams)
| GenerateContent (prompt : jsstring)
| Delay (ms : N)
| Console (line : console_line).

(** What the news source answers: it throws, or it responds with an object
    whose [articles] field may be missing. *)
Inductive SourceResult :=
| SourceThrows (e : exn)
| SourceResponds (articles : option (list Article.t)).

(** What the generative model answers: it throws, or [response.text()]. *)
Inductive ModelResult :=
| ModelThrows (e : exn)
| ModelText (text : jsstring).

Record World := {
  db_users : list User;
  db_categories : list Category;
  db_posts : list Post.t;
  processedCount : Counts;
  trace : list event
}.

Definition with_trace (w : World) (t : list event) : World :=
  {| db_users := db_users w; db_categories := db_categories w;
     db_posts := db_posts w; processedCount := processedCount w; trace := t |}.

Definition with_posts (w : World) (ps : list Post.t) : World :=
  {| db_users := db_users w; db_categories := db_categories w;
     db_posts := ps; processedCount := processedCount w; trace := trace w |}.

Definition with_processedCount (w : World) (c : Counts) : World :=
  {| db_users := db_users w; db_categories := db_categories w;
     db_posts := db_posts w; processedCount := c; trace := trace w |}.

Inductive Completion (A : Type) :=
| Return (a : A)
| Throw (e : exn).
Arguments Return {A} a.
Arguments Throw {A} e.

Definition Async (A : Type) := World -> Completion A * World.

Definition ret {A : Type} (a : A) : Async A := fun w => (Return a, w).

Definition throw {A : Type} (e : exn) : Async A := fun w => (Throw e, w).

Definition bind {A B : Type} (m : Async A) (k : A -> Async B) : Async B :=
  fun w =>
    match m w with
    | (Return a, w') => k a w'
    | (Throw e, w') => (Throw e, w')
    end.

(** [try { m } catch (error) { handler error }] *)
Definition try_catch {A : Type} (m : Async A) (handler : exn -> Async A)
  : Async A :=
  fun w =>
    match m w with
    | (Return a, w') => (Return a, w')
    | (Throw e, w') => handler e w'
    end.

Declare Scope async_scope.
Delimit Scope async_scope with async.
Notation "x <- m ;; k" := (bind m (fun x => k))
  (at level 61, m at next level, right associativity) : async_scope.
Notation "m ;; k" := (bind m (fun _ => k))
  (at level 61, right associativity) : async_scope.
Local Open Scope async_scope.

Definition emit (ev : event) : Async unit :=
  fun w => (Return tt, with_trace w (trace w ++ [ev])).

Definition console_log (l : console_line) : Async unit := emit (Console l).
Definition console_error (l : console_line) : Async unit := emit (Console l).

(** [for (const x of l) { body x }] *)
Fixpoint forOf {A : Type} (l : list A) (body : A -> Async unit) : Async unit :=
  match l with
  | [] => ret tt
  | x :: l' => body x ;; forOf l' body
  end.

(** *** Queries on the collections *)

Definition is_admin (u : User) : bool :=
  match user_role u with
  | role_admin => true
  | role_user => false
  end.

(** [Category.findOne({ name })] *)
Definition Category_findOne (name : jsstring) : Async (option Category) :=
  fun w =>
    (Return (find (fun c => str_eqb (category_name c) name) (db_categories w)),
     with_trace w (trace w ++ [CategoryFindOne name])).

(** The filter [{ originalSource: url, isNews: true }]. *)
Definition is_news_from (url : jsstring) (p : Post.t) : bool :=
  match Post.originalSource p with
  | Some u => str_eqb u url
  | None => false
  end
  && Post.isNews p.

(** [Post.findOne({ originalSource: url, isNews: true })] *)
Definition Post_findOne (url : jsstring) : Async (option Post.t) :=
  fun w =>
    (Return (find (is_news_from url) (db_posts w)),
     with_trace w (trace w ++ [PostFindOne url true])).

(** [this.delay(ms)] *)
Definition delay (ms : N) : Async unit := emit (Delay ms).

(* ===================================================================== *)
(** ** The news service ([src/backend/services/newsService.js]) *)
(* ===================================================================== *)

(** What [processWithAI] returns on success. *)
Module ProcessedArticle.
Record t := {
  title : jsstring;
  content : jsstring;
  tags : list jsstring;
  image : option jsstring;
  originalUrl : jsstring;
  publishedAt : Date
}.
End ProcessedArticle.

(** A topic: an element of [this.categories]. *)
Record Topic := { name : jsstring; keywords : list jsstring }.

(** [this.categories], as the constructor fills it. *)
Definition this_categories : list Topic :=
  [ {| name := js "Technology";
       keywords := [js "technology"; js "tech"; js "ai"; js "software"; js "internet"] |};
    {| name := js "Politics";
       keywords := [js "politics"; js "government"; js "election"; js "policy"] |};
    {| name := js "Business";
       keywords := [js "business"; js "economy"; js "finance"; js "market"; js "stock"] |};
    {| name := js "Sports";
       keywords := [js "sports"; js "football"; js "basketball"; js "soccer"; js "olympics"] |};
    {| name := js "Health";
       keywords := [js "health"; js "medical"; js "medicine"; js "covid"; js "vaccine"] |};
    {| name := js "Science";
       keywords := [js "science"; js "research"; js "study"; js "discovery"; js "climate"] |};
    {| name := js "Entertainment";
       keywords := [js "entertainment"; js "celebrity"; js "movie"; js "music"; js "tv"] |};
    {| name := js "World";
       keywords := [js "international"; js "global"; js "world"; js "foreign"] |} ].

(** [${v}] in a template literal, for a value that is a string or [null]. *)
Definition interpolate (v : option jsstring) : jsstring :=
  match v with
  | Some s => s
  | None => js "null"
  end.

(** [a || b] on values that are strings or [null]. *)
Definition or_else (a b : option jsstring) : option jsstring :=
  if truthy a then a else b.

(** The prompt of [processWithAI]. *)
Definition rewrite_prompt (article : Article.t) (categoryName : jsstring)
  : jsstring :=
  js "
You are an AI news editor for Intelixir, a social news platform. Your task is to rewrite and summarize news articles to make them unique, engaging, and platform-appropriate.

Original Article:
Title: " ++ interpolate (Article.title article) ++ js "
Description: " ++ interpolate (Article.description article) ++ js "
Content: "
  ++ interpolate (or_else (Article.content article) (Article.description article))
  ++ js "
Category: " ++ categoryName ++ js "

Please provide:
1. A new, engaging title (max 100 characters) that captures the essence but uses different wording
2. A concise, well-written summary (200-400 words) that:
   - Covers the key points
   - Is completely rewritten in your own words
   - Is engaging and informative
   - Avoids direct copying
   - Maintains factual accuracy
3. 3-5 relevant tags (single words, comma-separated)

Format your response exactly like this:
TITLE: [Your new title here]
SUMMARY: [Your summary here]
TAGS: [tag1, tag2, tag3, tag4, tag5]
".

(** The prompt of [generateTags]. *)
Definition tags_prompt (content : jsstring) : jsstring :=
  js "
Generate 3-5 relevant tags for the following content. Tags should be single words, lowercase, and comma-separated.

Content: " ++ content ++ js "

Respond with just the tags, comma-separated.
".

(** [!article.title || !article.description || article.title === '[Removed]'] *)
Definition missing_content (article : Article.t) : bool :=
  negb (truthy (Article.title article))
  || negb (truthy (Article.description article))
  || match Article.title article with
     | Some t => str_eqb t (js "[Removed]")
     | None => false
     end.

(** [processedCount.success++] and [processedCount.failed++] *)
Definition incr_success : Async unit :=
  fun w =>
    (Return tt,
     with_processedCount w
       {| success := success (processedCount w) + 1;
          failed := failed (processedCount w) |}).

Definition incr_failed : Async unit :=
  fun w =>
    (Return tt,
     with_processedCount w
       {| success := success (processedCount w);
          failed := failed (processedCount w) + 1 |}).

Section NewsService.

(** [String.prototype.toLowerCase]. *)
Variable toLowerCase : jsstring -> jsstring.

(** [new Date(v)] for a value that is a string or [null]: [Date.parse] is
    left to the implementation outside the ISO format, so the Date a text
    denotes, or that it denotes none, is a parameter. *)
Variable newDate : option jsstring -> Date.

(** The database on the query for the admin user: [None] when the query
    resolves, [Some e] when it rejects with [e]. *)
Variable userQuery : list event -> option exn.

(** The external news source: its answer to a search, given the history. *)
Variable newsApi : list event -> SearchParams -> SourceResult.

(** The generative model: its answer to a prompt, given the history. *)
Variable model : list event -> jsstring -> ModelResult.

(** The document store: [None] when it accepts the write of a validated
    document, [Some e] when it refuses it with [e]. *)
Variable store : list event -> Post.t -> option exn.

(** [User.findOne({ role: 'admin' })] *)
Definition User_findOne_admin : Async (option User) :=
  fun w =>
    let w' := with_trace w (trace w ++ [UserFindOne role_admin]) in
    match userQuery (trace w) with
    | Some e => (Throw e, w')
    | None => (Return (find is_admin (db_users w)), w')
    end.

(** [newsApi.v2.everything(params)], then reading [response.articles]. *)
Definition everything (params : SearchParams)
  : Async (option (list Article.t)) :=
  fun w =>
    let w' := with_trace w (trace w ++ [NewsEverything params]) in
    match newsApi (trace w) params with
    | SourceThrows e => (Throw e, w')
    | SourceResponds articles => (Return articles, w')
    end.

(** [this.model.generateContent(prompt)], then [result.response.text()]. *)
Definition generateContent (prompt : jsstring) : Async jsstring :=
  fun w =>
    let w' := with_trace w (trace w ++ [GenerateContent prompt]) in
    match model (trace w) prompt with
    | ModelThrows e => (Throw e, w')
    | ModelText text => (Return text, w')
    end.

(** [post.save()] for a new document: the declared validators, then the
    [pre('save')] hook, then the insertion. *)
Definition Post_save (post : Post.t) : Async Post.t :=
  fun w =>
    let w' := with_trace w (trace w ++ [PostSave post]) in
    if validate post then
      let stored := pre_save post in
      match store (trace w) stored with
      | None => (Return stored, with_posts w' (db_posts w' ++ [stored]))
      | Some e => (Throw e, w')
      end
    else (Throw ValidationError, w').

(** The object literal [processedArticle] of [processWithAI], once the three
    regular expressions have been tried on [text]. *)
Definition processedArticle (article : Article.t) (text : jsstring)
  : option ProcessedArticle.t :=
  match titleMatch text, summaryMatch text with
  | Some title1, Some summary1 =>
      Some {| ProcessedArticle.title := substring (trim title1) 0 200;
              ProcessedArticle.content := trim summary1;
              ProcessedArticle.tags :=
                match tagsMatch text with
                | Some tags1 =>
                    map (fun tag => toLowerCase (trim tag)) (split 44 tags1)
                | None => []
                end;
              ProcessedArticle.image := Article.urlToImage article;
              ProcessedArticle.originalUrl := Article.url article;
              ProcessedArticle.publishedAt :=
                newDate (Article.publishedAt article) |}
  | _, _ => None
  end.

Definition processWithAI (article : Article.t) (categoryName : jsstring)
  : Async (option ProcessedArticle.t) :=
  try_catch
    (text <- generateContent (rewrite_prompt article categoryName) ;;
     match processedArticle article text with
     | None => console_error ErrFormatInvalid ;; ret None
     | Some processed => ret (Some processed)
     end)
    (fun error => console_error (ErrAI error) ;; ret None).

(** [new Post({ ... })] in [createNewsPost], with the schema defaults for the
    fields the literal leaves out. *)
Definition newPost (processed : ProcessedArticle.t) (categoryId : ObjectId)
    (adminUserId : ObjectId) (originalArticle : Article.t) : Post.t :=
  {| Post.title := Some (ProcessedArticle.title processed);
     Post.content := Some (ProcessedArticle.content processed);
     Post.author := Some adminUserId;
     Post.type :=
       if truthy (ProcessedArticle.image processed) then type_image
       else type_news;
     Post.image := ProcessedArticle.image processed;
     Post.categories := [categoryId];
     Post.tags := ProcessedArticle.tags processed;
     Post.isNews := true;
     Post.originalSource := Some (Article.url originalArticle);
     Post.publishedAt := Some (ProcessedArticle.publishedAt processed);
     Post.link :=
       Some {| link_url := Some (Article.url originalArticle);
               link_title := Article.title originalArticle;
               link_description := Article.description originalArticle;
               link_image := Article.urlToImage originalArticle |};
     Post.likes := [];
     Post.comments := [];
     Post.shares := Some 0%float;
     Post.views := Some 0%float;
     Post.engagement := 0%float;
     Post.isActive := true |}.

Definition createNewsPost (processed : ProcessedArticle.t)
    (categoryId adminUserId : ObjectId) (originalArticle : Article.t)
  : Async Post.t :=
  try_catch
    (Post_save (newPost processed categoryId adminUserId originalArticle))
    (fun error => console_error (ErrCreate error) ;; throw error).

(** The body of the loop over [response.articles] in [processCategoryNews];
    [continue] ends the body. *)
Definition articleLoopBody (category : Topic) (dbCategory : Category)
    (adminUserId : ObjectId) (article : Article.t) : Async unit :=
  try_catch
    (existingPost <- Post_findOne (Article.url article) ;;
     match existingPost with
     | Some _ => console_log (LogAlreadyExists (Article.title article))
     | None =>
         if missing_content article then console_log LogSkipping
         else
           processed <- processWithAI article (name category) ;;
           match processed with
           | Some processed =>
               createNewsPost processed (category_id dbCategory) adminUserId
                 article ;;
               incr_success ;;
               console_log (LogSuccess (ProcessedArticle.title processed))
           | None => incr_failed
           end
     end)
    (fun error => console_error (ErrArticle error) ;; incr_failed).

(** The search [processCategoryNews] sends for a topic. *)
Definition search_params (category : Topic) : SearchParams :=
  {| language := js "en";
     pageSize := 5;
     q := join (js " OR ") (keywords category);
     sortBy := js "publishedAt" |}.

Definition processCategoryNews (category : Topic) (adminUserId : ObjectId)
  : Async unit :=
  try_catch
    (dbCategory <- Category_findOne (name category) ;;
     match dbCategory with
     | None => console_log (LogCategoryNotFound (name category))
     | Some dbCategory =>
         articles <- everything (search_params category) ;;
         match articles with
         | None | Some [] => console_log (LogNoArticles (name category))
         | Some articles =>
             forOf articles
               (articleLoopBody category dbCategory adminUserId)
         end
     end)
    (fun error =>
       console_error (ErrCategory (name category) error) ;; throw error).

(** The body of the loop over [this.categories] in [fetchAndProcessNews]. *)
Definition categoryLoopBody (adminUserId : ObjectId) (category : Topic)
  : Async unit :=
  try_catch
    (processCategoryNews category adminUserId ;;
     delay 2000)
    (fun error =>
       console_error (ErrTopic (name category) error) ;; incr_failed).

Definition fetchAndProcessNews : Async Counts :=
  try_catch
    (console_log LogStarting ;;
     adminUser <- User_findOne_admin ;;
     match adminUser with
     | None => throw (Error (js "Admin user not found"))
     | Some adminUser =>
         (fun w =>
            (Return tt,
             with_processedCount w {| success := 0; failed := 0 |})) ;;
         forOf this_categories (categoryLoopBody (user_id adminUser)) ;;
         (fun w =>
            console_log (LogCompleted (processedCount w)) w) ;;
         (fun w => (Return (processedCount w), w))
     end)
    (fun error => console_error (ErrFetchAndProcess error) ;; throw error).

Definition generateTags (content : jsstring) : Async (list jsstring) :=
  try_catch
    (text <- generateContent (tags_prompt content) ;;
     let tags :=
       map (fun tag => toLowerCase (trim tag)) (split 44 (trim text)) in
     ret (filter (fun tag => (0 <? length tag) && (length tag <=? 20)) tags))
    (fun error => console_error (ErrTags error) ;; ret []).

End NewsService.

(* ===================================================================== *)
(** ** Concrete collaborators and worlds, for the runs below *)
(* ===================================================================== *)

Module Sample.

Local Open Scope N_scope.

Definition admin : User := {| user_id := 1; user_role := role_admin |}.
Definition reader : User := {| user_id := 2; user_role := role_user |}.

(** The eight seeded categories. *)
Definition seeded : list Category :=
  [ {| category_id := 101; category_name := js "Technology" |};
    {| category_id := 102; category_name := js "Politics" |};
    {| category_id := 103; category_name := js "Business" |};
    {| category_id := 104; category_name := js "Sports" |};
    {| category_id := 105; category_name := js "Health" |};
    {| category_id := 106; category_name := js "Science" |};
    {| category_id := 107; category_name := js "Entertainment" |};
    {| category_id := 108; category_name := js "World" |} ].

Definition technology : Topic :=
  {| name := js "Technology";
     keywords := [js "technology"; js "tech"; js "ai"; js "software"; js "internet"] |}.

Definition technology_record : Category :=
  {| category_id := 101; category_name := js "Technology" |}.

Definition no_counts : Counts := {| success := 0; failed := 0 |}.

(** An empty Post Store, with and without an admin user. *)
Definition world : World :=
  {| db_users := [reader; admin]; db_categories := seeded; db_posts := [];
     processedCount := no_counts; trace := [] |}.

Definition world_without_admin : World :=
  {| db_users := [reader]; db_categories := seeded; db_posts := [];
     processedCount := no_counts; trace := [] |}.

Definition article : Article.t :=
  {| Article.title := Some (js "Chip maker unveils new processor");
     Article.description := Some (js "A new processor was announced.");
     Article.content := None;
     Article.url := js "https://news.example/chips";
     Article.urlToImage := None;
     Article.publishedAt := Some (js "2024-05-01T10:00:00Z") |}.

Definition article_with_image : Article.t :=
  {| Article.title := Some (js "Chip maker unveils new processor");
     Article.description := Some (js "A new processor was announced.");
     Article.content := None;
     Article.url := js "https://news.example/chips";
     Article.urlToImage := Some (js "https://news.example/chips.png");
     Article.publishedAt := Some (js "2024-05-01T10:00:00Z") |}.

(** A placeholder the source returns for a withdrawn article. *)
Definition removed_article : Article.t :=
  {| Article.title := Some (js "[Removed]");
     Article.description := Some (js "[Removed]");
     Article.content := Some (js "[Removed]");
     Article.url := js "https://removed.com";
     Article.urlToImage := None;
     Article.publishedAt := Some (js "2024-05-01T10:00:00Z") |}.

(** News sources: one that finds nothing, one that is down, one that returns
    [article] for the Technology search and nothing otherwise. *)
Definition source_empty : list event -> SearchParams -> SourceResult :=
  fun _ _ => SourceResponds (Some []).

Definition source_down : list event -> SearchParams -> SourceResult :=
  fun _ _ => SourceThrows (Failure 503).

Definition source_of (a : Article.t)
  : list event -> SearchParams -> SourceResult :=
  fun _ params =>
    if str_eqb (q params) (q (search_params technology))
    then SourceResponds (Some [a])
    else SourceResponds (Some []).

(** Model answers. *)
Definition answer_complete : jsstring :=
  js "TITLE: New processor announced
SUMMARY: A chip maker presented its next processor.
TAGS: Chips, Hardware".

Definition answer_without_summary : jsstring :=
  js "TITLE: New processor announced
TAGS: Chips, Hardware".

Definition answer_without_tags : jsstring :=
  js "TITLE: New processor announced
SUMMARY: A chip maker presented its next processor.".

Definition answer_empty_tag : jsstring :=
  js "TITLE: New processor announced
SUMMARY: A chip maker presented its next processor.
TAGS: Chips,,Hardware".

(** The title marker is there, with nothing after it on its line. *)
Definition answer_empty_title : jsstring :=
  js "TITLE:
SUMMARY: A chip maker presented its next processor.".

Definition answer_long_title : jsstring :=
  js "TITLE: " ++ repeat 0x61 300%nat ++ js "
SUMMARY: A chip maker presented its next processor.".

Definition model_says (text : jsstring) : list event -> jsstring -> ModelResult :=
  fun _ _ => ModelText text.

Definition model_down : list event -> jsstring -> ModelResult :=
  fun _ _ => ModelThrows (Failure 429).

Definition store_ok : list event -> Post.t -> option exn :=
  fun _ _ => None.

(** [new Date(v)] on the values the sample articles carry: their ISO date,
    and [null], which gives the epoch; any other text is taken for no
    date. *)
Definition sampleDate (v : option jsstring) : Date :=
  match v with
  | None => DateAt 0%Z
  | Some s =>
      if str_eqb s (js "2024-05-01T10:00:00Z") then DateAt 1714557600000%Z
      else InvalidDate
  end.

(** The admin query resolves; the database is down. *)
Definition users_ok : list event -> option exn := fun _ => None.

Definition users_down : list event -> option exn :=
  fun _ => Some (Failure 500).

(** A world in which [article] has already been ingested. *)
Definition world_after_ingestion : World :=
  snd (fetchAndProcessNews asciiLower sampleDate users_ok (source_of article)
         (model_says answer_complete) store_ok world).

(** A stored post with two likes, one comment, no share and ten views. *)
Definition liked_post : Post.t :=
  {| Post.title := Some (js "Hello");
     Post.content := Some (js "A first post");
     Post.author := Some 2;
     Post.type := type_text;
     Post.image := None;
     Post.link := None;
     Post.categories := [];
     Post.tags := [];
     Post.isNews := false;
     Post.originalSource := None;
     Post.publishedAt := None;
     Post.likes := [ {| like_user := 1 |}; {| like_user := 2 |} ];
     Post.comments := [ {| comment_user := 1; comment_content := js "Nice" |} ];
     Post.shares := Some 0%float;
     Post.views := Some 10%float;
     Post.engagement := 0%float;
     Post.isActive := true |}.

End Sample.

(* ===================================================================== *)
(** ** Vocabulary of the properties *)
(* ===================================================================== *)

(** [m] takes every world to one related to it by [R], however it ends. *)
Definition steps {A : Type} (R : World -> World -> Prop) (m : Async A) : Prop :=
  forall w, R w (snd (m w)).

(** [m] never throws. *)
Definition resolves {A : Type} (m : Async A) : Prop :=
  forall w, exists a, fst (m w) = Return a.

(** The post has this [originalSource]. *)
Definition has_source (url : jsstring) (p : Post.t) : bool :=
  match Post.originalSource p with
  | Some u => str_eqb u url
  | None => false
  end.

(** How many stored posts have this [originalSource]. *)
Definition count_source (url : jsstring) (ps : list Post.t) : nat :=
  length (filter (has_source url) ps).

(** How many stored posts match [{ originalSource: url, isNews: true }]. *)
Definition count_news (url : jsstring) (ps : list Post.t) : nat :=
  length (filter (is_news_from url) ps).

(** The invariant of the ingestion path: at most one news post per
    [originalSource]. *)
Definition unique_news (ps : list Post.t) : Prop :=
  forall url, count_news url ps <= 1.

(** The attribution metadata [createNewsPost] copies from an article. *)
Definition link_of (a : Article.t) : Link :=
  {| link_url := Some (Article.url a);
     link_title := Article.title a;
     link_description := Article.description a;
     link_image := Article.urlToImage a |}.

(** [p] is a post made from article [a] at a time when the store [old] held
    no news post from the URL of [a]. *)
Definition ingested_from (old : list Post.t) (a : Article.t) (p : Post.t)
  : Prop :=
  find (is_news_from (Article.url a)) old = None
  /\ Post.isNews p = true
  /\ Post.originalSource p = Some (Article.url a)
  /\ Post.link p = Some (link_of a)
  /\ Post.image p = Article.urlToImage a
  /\ Post.type p =
       (if truthy (Article.urlToImage a) then type_image else type_news).

(** [p] carries the attribution of article [a]: its URL as [originalSource],
    its metadata as [link], its image, and the news flag. *)
Definition made_from (a : Article.t) (p : Post.t) : Prop :=
  Post.isNews p = true
  /\ Post.originalSource p = Some (Article.url a)
  /\ Post.link p = Some (link_of a)
  /\ Post.image p = Article.urlToImage a.

(** [added] were appended to [old] one by one, each ingested from an article. *)
Fixpoint ingestion (old added : list Post.t) : Prop :=
  match added with
  | [] => True
  | p :: rest =>
      (exists a, ingested_from old a p) /\ ingestion (old ++ [p]) rest
  end.

(** What a run of the pipeline may do to the collections. *)
Definition Ingest (w w' : World) : Prop :=
  db_users w' = db_users w
  /\ db_categories w' = db_categories w
  /\ exists added,
       db_posts w' = db_posts w ++ added /\ ingestion (db_posts w) added.

(* ===================================================================== *)
(** ** Vocabulary of the further properties of the pipeline *)
(* ===================================================================== *)

(** The string is empty or begins with a code unit that [trim] keeps. *)
Definition starts_trimmed (s : jsstring) : Prop :=
  match s with
  | [] => True
  | c :: _ => isTrimmed c = false
  end.

(** The same at the other end. *)
Definition ends_trimmed (s : jsstring) : Prop := starts_trimmed (rev s).

(** The string has no line terminator. *)
Definition single_line (s : jsstring) : Prop :=
  Forall (fun c => isLineTerminator c = false) s.

(** Kinds of effects, to count them in a trace. *)
Definition is_source_call (e : event) : bool :=
  match e with
  | NewsEverything _ => true
  | _ => false
  end.

Definition is_model_call (e : event) : bool :=
  match e with
  | GenerateContent _ => true
  | _ => false
  end.

Definition is_save (e : event) : bool :=
  match e with
  | PostSave _ => true
  | _ => false
  end.

(** The pause after a topic, or the line that a topic failed. *)
Definition is_topic_end (e : event) : bool :=
  match e with
  | Delay _ => true
  | Console (ErrTopic _ _) => true
  | _ => false
  end.

Definition count (f : event -> bool) (evs : list event) : nat :=
  length (filter f evs).

(** [m] only appends to the trace, and appends at most [n] effects of kind
    [f], however it ends. *)
Definition emits_at_most {A : Type} (f : event -> bool) (n : nat) (m : Async A)
  : Prop :=
  forall w, exists evs, trace (snd (m w)) = trace w ++ evs /\ count f evs <= n.

(** [m] never throws, only appends to the trace, and appends exactly [n]
    effects of kind [f]. *)
Definition emits_exactly {A : Type} (f : event -> bool) (n : nat) (m : Async A)
  : Prop :=
  forall w, exists a evs,
    fst (m w) = Return a
    /\ trace (snd (m w)) = trace w ++ evs /\ count f evs = n.

(** The trace only grows, and every appended effect satisfies [Q]. *)
Definition Appends (Q : event -> Prop) (w w' : World) : Prop :=
  exists evs, trace w' = trace w ++ evs /\ Forall Q evs.

(** The counters account for the posts: [success] grew by the number of
    posts appended, [failed] did not decrease. *)
Definition Counted (w w' : World) : Prop :=
  exists added,
    db_posts w' = db_posts w ++ added
    /\ success (processedCount w')
       = (success (processedCount w) + N.of_nat (length added))%N
    /\ (failed (processedCount w) <= failed (processedCount w'))%N.

(** Every post appended went through a [save]: there are at least as many
    [PostSave] effects as new posts. *)
Definition Saved (w w' : World) : Prop :=
  exists added evs,
    db_posts w' = db_posts w ++ added
    /\ trace w' = trace w ++ evs
    /\ length added <= count is_save evs.

(** The searches and the pauses are the configured ones: a search is that of
    one of the topics, a pause lasts 2000 ms. *)
Definition as_configured (e : event) : Prop :=
  match e with
  | NewsEverything params =>
      exists t, In t this_categories /\ params = search_params t
  | Delay ms => ms = 2000%N
  | _ => True
  end.

(** What the admin query of an invocation started in [w] gives: the error
    it rejects with, or what it resolves with. *)
Definition admin_lookup (userQuery : list event -> option exn) (w : World)
  : exn + option User :=
  match userQuery (trace w ++ [Console LogStarting]) with
  | Some e => inl e
  | None => inr (find is_admin (db_users w))
  end.

(** The world an invocation started in [w] leaves when it is aborted with
    [e] before the loop over the topics. *)
Definition aborted (w : World) (e : exn) : World :=
  with_trace w
    (trace w ++ [Console LogStarting; UserFindOne role_admin;
                 Console (ErrFetchAndProcess e)]).

(** The news source returned [a] in answer to the search of a topic. *)
Definition fetched (newsApi : list event -> SearchParams -> SourceResult)
    (a : Article.t) : Prop :=
  exists history category articles,
    In category this_categories
    /\ newsApi history (search_params category) = SourceResponds (Some articles)
    /\ In a articles.

(** [p] has the type [createNewsPost] gives a post made from [a]. *)
Definition typed_from (a : Article.t) (p : Post.t) : Prop :=
  made_from a p
  /\ Post.type p = (if truthy (Article.urlToImage a) then type_image
                    else type_news).

(** Only posts made from articles the news source returned are appended,
    each with the type its article gives it. *)
Definition Sourced (newsApi : list event -> SearchParams -> SourceResult)
    (w w' : World) : Prop :=
  exists added,
    db_posts w' = db_posts w ++ added
    /\ Forall (fun p => exists a, fetched newsApi a /\ typed_from a p) added.

(** The world in which the loop over the topics starts. *)
Definition started (w : World) : World :=
  with_processedCount
    (with_trace w (trace w ++ [Console LogStarting; UserFindOne role_admin]))
    {| success := 0; failed := 0 |}.

(** A stored category that carries the name of one of the topics. *)
Definition topic_category (cats : list Category) (c : Category) : Prop :=
  In c cats /\ exists t, In t this_categories /\ category_name c = name t.

(** [p] is a fresh, valid news post owned by [adminUserId] and filed under
    one category of [cats] that is a topic's. *)
Definition attributed (adminUserId : ObjectId) (cats : list Category)
    (p : Post.t) : Prop :=
  Post.author p = Some adminUserId
  /\ (exists c, topic_category cats c /\ Post.categories p = [category_id c])
  /\ Post.isActive p = true
  /\ Post.likes p = []
  /\ Post.comments p = []
  /\ Post.engagement p = 0%float
  /\ validate p = true.

(** In a world whose categories are [cats], only attributed posts are
    appended and the categories stay. *)
Definition Attributes (adminUserId : ObjectId) (cats : list Category)
    (w w' : World) : Prop :=
  db_categories w = cats ->
  db_categories w' = cats
  /\ exists added,
       db_posts w' = db_posts w ++ added
       /\ Forall (attributed adminUserId cats) added.

(** The news source honours the page size the pipeline asks for. *)
Definition honours_pageSize
    (newsApi : list event -> SearchParams -> SourceResult) : Prop :=
  forall history params articles,
    newsApi history params = SourceResponds (Some articles) ->
    (N.of_nat (length articles) <= pageSize params)%N.

(* ===================================================================== *)
(** ** The server around the service: routes, scheduled task, and the other
       methods of the service *)
(* ===================================================================== *)

(** The code below the pipeline ([routes/posts], [routes/admin], the
    scheduled task of [server.js], and the methods [categorizeContent],
    [searchNews] and [fetchBreakingNews] of the service) has effects of its
    own: responses, its console lines, queries by id, saves of loaded
    documents.  They are recorded in a [journal], in order, together with the
    effects of the service calls made on the way ([Service]).

    A stored post is identified by its position in the collection, which
    stands for its ObjectId: the code never removes a post (deletion is the
    soft [isActive = false]). *)

(** What a route may catch. *)
Inductive thrown :=
| CastError
| TypeError
| SyntaxError
| Thrown (e : exn).

(** [error.name === 'CastError'] *)
Definition isCastError (t : thrown) : bool :=
  match t with
  | CastError => true
  | _ => false
  end.

(** [req.params.id]: a string that is no ObjectId, or the ObjectId of the
    post at a position. *)
Inductive IdParam :=
| NotAnObjectId
| ObjectIdOf (n : nat).

(** The [data] member of a response body. *)
Inductive Data :=
| NoData
| CountsData (result : Counts)
| PostData (post : Post.t)
| LikeData (liked : bool) (likeCount : nat)
| ShareData (shareCount : option float).

(** [res.status(statusCode).json({ status, message, data })] *)
Record Response := {
  statusCode : N;
  status : jsstring;
  message : option jsstring;
  data : Data
}.

Definition error_response (code : N) (text : jsstring) : Response :=
  {| statusCode := code; status := js "error"; message := Some text;
     data := NoData |}.

Definition success_response (text : option jsstring) (d : Data) : Response :=
  {| statusCode := 200; status := js "success"; message := text; data := d |}.

(** The argument of [newsApi.v2.everything] in [searchNews] and
    [fetchBreakingNews]. *)
Record Query := {
  query_q : option jsstring;
  query_language : jsstring;
  query_sortBy : jsstring;
  query_from : option jsstring;
  query_page : option N;
  query_pageSize : N
}.

(** The answer to such a search: the call throws, or responds with
    [articles] and [totalResults], either of which may be missing. *)
Inductive SearchAnswer :=
| SearchThrows (e : exn)
| SearchResponds (articles : option (list Article.t)) (totalResults : option N).

(** What [searchNews] returns. *)
Record SearchResult := {
  result_articles : list Article.t;
  result_totalResults : N
}.

(** Console lines of this layer. *)
Inductive server_line :=
| ManualFetchError (error : thrown)
| RunningAutomatedFetch
| AutomatedFetchCompleted
| AutomatedFetchError (error : thrown)
| GetPostError (error : thrown)
| DeletePostError (error : thrown)
| CouldNotDeleteImage (error : exn)
| LikePostError (error : thrown)
| SharePostError (error : thrown)
| ErrBreakingNews (error : thrown)
| ErrSearching (error : thrown)
| ErrCategorizing (error : thrown).

Inductive entry :=
| Service (e : event)
| PostFindById (id : IdParam)
| DocumentSave (n : nat) (post : Post.t)
| Unlink (image : jsstring)
| CategoryFindOneRegex (pattern : jsstring)
| NewsQuery (q : Query)
| ServerLog (l : server_line)
| Respond (r : Response).

Record Server := { state : World; journal : list entry }.

Definition with_journal (s : Server) (j : list entry) : Server :=
  {| state := state s; journal := j |}.

Definition with_state (s : Server) (w : World) : Server :=
  {| state := w; journal := journal s |}.

Inductive Result (A : Type) :=
| Done (a : A)
| Raised (t : thrown).
Arguments Done {A} a.
Arguments Raised {A} t.

Definition Task (A : Type) := Server -> Result A * Server.

Definition task_ret {A : Type} (a : A) : Task A := fun s => (Done a, s).

Definition task_raise {A : Type} (t : thrown) : Task A :=
  fun s => (Raised t, s).

Definition task_bind {A B : Type} (m : Task A) (k : A -> Task B) : Task B :=
  fun s =>
    match m s with
    | (Done a, s') => k a s'
    | (Raised t, s') => (Raised t, s')
    end.

Definition task_try {A : Type} (m : Task A) (handler : thrown -> Task A)
  : Task A :=
  fun s =>
    match m s with
    | (Done a, s') => (Done a, s')
    | (Raised t, s') => handler t s'
    end.

Declare Scope task_scope.
Delimit Scope task_scope with task.
Notation "x <- m ;; k" := (task_bind m (fun x => k))
  (at level 61, m at next level, right associativity) : task_scope.
Notation "m ;; k" := (task_bind m (fun _ => k))
  (at level 61, right associativity) : task_scope.

Definition record (e : entry) : Task unit :=
  fun s => (Done tt, with_journal s (journal s ++ [e])).

Definition server_log (l : server_line) : Task unit := record (ServerLog l).

(** [res.status(...).json(...)] *)
Definition respond (r : Response) : Task unit := record (Respond r).

(** A call into the service: its new effects enter the journal, what it
    throws is raised. *)
Definition lift {A : Type} (m : Async A) : Task A :=
  fun s =>
    let (c, w') := m (state s) in
    let s' :=
      {| state := w';
         journal :=
           journal s
           ++ map Service (skipn (length (trace (state s))) (trace w')) |} in
    match c with
    | Return a => (Done a, s')
    | Throw e => (Raised (Thrown e), s')
    end.

(** [arr.findIndex(f)]; [None] is the result -1. *)
Fixpoint findIndex {A : Type} (f : A -> bool) (l : list A) : option nat :=
  match l with
  | [] => None
  | x :: l' => if f x then Some 0 else option_map S (findIndex f l')
  end.

(** [arr.splice(i, 1)]: what is left in [arr]. *)
Definition splice1 {A : Type} (i : nat) (l : list A) : list A :=
  firstn i l ++ skipn (S i) l.

(** The document at position [n] replaced. *)
Fixpoint replace {A : Type} (n : nat) (x : A) (l : list A) : list A :=
  match l, n with
  | [], _ => []
  | _ :: l', 0 => x :: l'
  | y :: l', S n' => y :: replace n' x l'
  end.

(** Assignments to one field of a loaded post. *)
Definition set_likes (p : Post.t) (likes : list Like) : Post.t :=
  {| Post.title := Post.title p; Post.content := Post.content p;
     Post.author := Post.author p; Post.type := Post.type p;
     Post.image := Post.image p; Post.link := Post.link p;
     Post.categories := Post.categories p; Post.tags := Post.tags p;
     Post.isNews := Post.isNews p;
     Post.originalSource := Post.originalSource p;
     Post.publishedAt := Post.publishedAt p; Post.likes := likes;
     Post.comments := Post.comments p; Post.shares := Post.shares p;
     Post.views := Post.views p; Post.engagement := Post.engagement p;
     Post.isActive := Post.isActive p |}.

Definition set_shares (p : Post.t) (shares : option float) : Post.t :=
  {| Post.title := Post.title p; Post.content := Post.content p;
     Post.author := Post.author p; Post.type := Post.type p;
     Post.image := Post.image p; Post.link := Post.link p;
     Post.categories := Post.categories p; Post.tags := Post.tags p;
     Post.isNews := Post.isNews p;
     Post.originalSource := Post.originalSource p;
     Post.publishedAt := Post.publishedAt p; Post.likes := Post.likes p;
     Post.comments := Post.comments p; Post.shares := shares;
     Post.views := Post.views p; Post.engagement := Post.engagement p;
     Post.isActive := Post.isActive p |}.

Definition set_views (p : Post.t) (views : option float) : Post.t :=
  {| Post.title := Post.title p; Post.content := Post.content p;
     Post.author := Post.author p; Post.type := Post.type p;
     Post.image := Post.image p; Post.link := Post.link p;
     Post.categories := Post.categories p; Post.tags := Post.tags p;
     Post.isNews := Post.isNews p;
     Post.originalSource := Post.originalSource p;
     Post.publishedAt := Post.publishedAt p; Post.likes := Post.likes p;
     Post.comments := Post.comments p; Post.shares := Post.shares p;
     Post.views := views; Post.engagement := Post.engagement p;
     Post.isActive := Post.isActive p |}.

Definition set_isActive (p : Post.t) (isActive : bool) : Post.t :=
  {| Post.title := Post.title p; Post.content := Post.content p;
     Post.author := Post.author p; Post.type := Post.type p;
     Post.image := Post.image p; Post.link := Post.link p;
     Post.categories := Post.categories p; Post.tags := Post.tags p;
     Post.isNews := Post.isNews p;
     Post.originalSource := Post.originalSource p;
     Post.publishedAt := Post.publishedAt p; Post.likes := Post.likes p;
     Post.comments := Post.comments p; Post.shares := Post.shares p;
     Post.views := Post.views p; Post.engagement := Post.engagement p;
     Post.isActive := isActive |}.

(** [x += 1] on a Number field of a loaded document, which holds a Number or
    [null] ([null + 1] is 1). *)
Definition plus_one (x : option float) : option float :=
  match x with
  | Some v => Some (v + 1)%float
  | None => Some 1%float
  end.

(** [Post.findById(id)]: the position comes with the document. *)
Definition Post_findById (id : IdParam) : Task (option (nat * Post.t)) :=
  fun s =>
    let s' := with_journal s (journal s ++ [PostFindById id]) in
    match id with
    | NotAnObjectId => (Raised CastError, s')
    | ObjectIdOf n =>
        (Done (option_map (pair n) (nth_error (db_posts (state s)) n)), s')
    end.

Local Open Scope task_scope.

Section Routes.

Variable toLowerCase : jsstring -> jsstring.
Variable newDate : option jsstring -> Date.
Variable userQuery : list event -> option exn.
Variable newsApi : list event -> SearchParams -> SourceResult.
Variable model : list event -> jsstring -> ModelResult.
Variable store : list event -> Post.t -> option exn.

(** The document store on the save of a loaded document: [None] when it
    accepts the validated document, [Some e] when it refuses it. *)
Variable update : list entry -> nat -> Post.t -> option exn.

(** [fs.unlink]: [None] when the file is removed, [Some e] when it throws. *)
Variable unlink : list entry -> jsstring -> option exn.

(** [new RegExp(pattern, 'i')] and the match of a string against it: [None]
    when the pattern is no regular expression (a SyntaxError). *)
Variable regExp_i : jsstring -> option (jsstring -> bool).

(** The news source, for the searches of [searchNews] and
    [fetchBreakingNews]. *)
Variable newsSearch : list entry -> Query -> SearchAnswer.

(** The ISO date of two hours before now, as [fetchBreakingNews] computes it
    from the clock. *)
Variable twoHoursAgo : list entry -> jsstring.

(** [post.save()] on the document loaded from position [n]: the declared
    validators, the [pre('save')] hook, then the write.  The validators are
    run on the whole document; Mongoose skips those of the optional paths
    that were not modified, which makes a difference only for a stored
    document that is itself invalid. *)
Definition Document_save (n : nat) (post : Post.t) : Task Post.t :=
  fun s =>
    let s' := with_journal s (journal s ++ [DocumentSave n post]) in
    if validate post then
      let stored := pre_save post in
      match update (journal s) n stored with
      | None =>
          (Done stored,
           with_state s'
             (with_posts (state s) (replace n stored (db_posts (state s)))))
      | Some e => (Raised (Thrown e), s')
      end
    else (Raised (Thrown ValidationError), s').

Definition not_found : Response := error_response 404 (js "Post not found").

Definition internal_error : Response :=
  error_response 500 (js "Internal server error").

(** The [catch] shared by the routes on one post. *)
Definition post_catch (l : thrown -> server_line) (error : thrown)
  : Task unit :=
  server_log (l error) ;;
  if isCastError error then respond not_found else respond internal_error.

(** [router.get('/:id', ...)] of the posts: the view counter goes up.  The
    [populate] calls only decorate the document sent back. *)
Definition getPost (id : IdParam) : Task unit :=
  task_try
    (found <- Post_findById id ;;
     match found with
     | None => respond not_found
     | Some (n, post) =>
         if negb (Post.isActive post) then respond not_found
         else
           saved <- Document_save n
                      (set_views post (plus_one (Post.views post))) ;;
           respond (success_response None (PostData saved))
     end)
    (post_catch GetPostError).

(** [router.delete('/:id', ...)] of the posts: the soft delete. *)
Definition deletePost (id : IdParam) (user : User) : Task unit :=
  task_try
    (found <- Post_findById id ;;
     match found with
     | None => respond not_found
     | Some (n, post) =>
         author <- match Post.author post with
                   | Some author => task_ret author
                   | None => task_raise TypeError
                   end ;;
         if negb (author =? user_id user)%N && negb (is_admin user) then
           respond (error_response 403
                      (js "Not authorized to delete this post"))
         else
           saved <- Document_save n (set_isActive post false) ;;
           (match Post.image saved with
            | Some (c :: image) =>
                fun s =>
                  let s' :=
                    with_journal s (journal s ++ [Unlink (c :: image)]) in
                  match unlink (journal s) (c :: image) with
                  | None => (Done tt, s')
                  | Some deleteError =>
                      server_log (CouldNotDeleteImage deleteError) s'
                  end
            | _ => task_ret tt
            end) ;;
           respond (success_response (Some (js "Post deleted successfully"))
                      NoData)
     end)
    (post_catch DeletePostError).

(** [router.post('/:id/like', ...)]: like, or unlike when already liked. *)
Definition likePost (id : IdParam) (user : User) : Task unit :=
  task_try
    (found <- Post_findById id ;;
     match found with
     | None => respond not_found
     | Some (n, post) =>
         if negb (Post.isActive post) then respond not_found
         else
           let userId := user_id user in
           let existingLikeIndex :=
             findIndex (fun like => (like_user like =? userId)%N)
               (Post.likes post) in
           let likes :=
             match existingLikeIndex with
             | Some i => splice1 i (Post.likes post)
             | None => Post.likes post ++ [ {| like_user := userId |} ]
             end in
           saved <- Document_save n (set_likes post likes) ;;
           respond
             (success_response
                (Some (match existingLikeIndex with
                       | Some _ => js "Post unliked"
                       | None => js "Post liked"
                       end))
                (LikeData (match existingLikeIndex with
                           | Some _ => false
                           | None => true
                           end)
                   (length (Post.likes saved))))
     end)
    (post_catch LikePostError).

(** [router.post('/:id/share', ...)]: the share counter goes up. *)
Definition sharePost (id : IdParam) : Task unit :=
  task_try
    (found <- Post_findById id ;;
     match found with
     | None => respond not_found
     | Some (n, post) =>
         if negb (Post.isActive post) then respond not_found
         else
           saved <- Document_save n
                      (set_shares post (plus_one (Post.shares post))) ;;
           respond
             (success_response (Some (js "Post shared successfully"))
                (ShareData (Post.shares saved)))
     end)
    (post_catch SharePostError).

(** [adminMiddleware], with what follows it as [next]. *)
Definition adminMiddleware (user : User) (next : Task unit) : Task unit :=
  if negb (is_admin user) then
    respond (error_response 403
               (js "Access denied. Admin privileges required."))
  else next.

(** [router.post('/news/fetch', ...)] of the admin routes. *)
Definition newsFetch : Task unit :=
  task_try
    (result <- lift (fetchAndProcessNews toLowerCase newDate userQuery
                       newsApi model store) ;;
     respond (success_response (Some (js "News fetch completed"))
                (CountsData result)))
    (fun error =>
       server_log (ManualFetchError error) ;;
       respond (error_response 500 (js "Failed to fetch news"))).

(** The admin router applies [adminMiddleware] to every route. *)
Definition adminNewsFetch (user : User) : Task unit :=
  adminMiddleware user newsFetch.

(** The task scheduled every hour in [server.js]. *)
Definition scheduledNewsFetch : Task unit :=
  server_log RunningAutomatedFetch ;;
  task_try
    (lift (fetchAndProcessNews toLowerCase newDate userQuery newsApi model
             store) ;;
     server_log AutomatedFetchCompleted)
    (fun error => server_log (AutomatedFetchError error)).

(** The prompt of [categorizeContent]. *)
Definition categorize_prompt (content : jsstring) : jsstring :=
  js "
Analyze the following content and determine which category it best fits into:
Categories: Technology, Politics, Business, Sports, Health, Science, Entertainment, World

Content: " ++ content ++ js "

Respond with just the category name that best matches this content.
".

Definition categorizeContent (content : jsstring) : Task (list ObjectId) :=
  task_try
    (text <- lift (generateContent model (categorize_prompt content)) ;;
     let category := trim text in
     matches <- match regExp_i category with
                | Some matches => task_ret matches
                | None => task_raise SyntaxError
                end ;;
     record (CategoryFindOneRegex category) ;;
     matchedCategory <- (fun s =>
                           (Done (find (fun c => matches (category_name c))
                                    (db_categories (state s))), s)) ;;
     task_ret match matchedCategory with
              | Some c => [category_id c]
              | None => []
              end)
    (fun error => server_log (ErrCategorizing error) ;; task_ret []).

(** The search itself, shared by the two methods below. *)
Definition everythingQuery (q : Query) : Task SearchAnswer :=
  fun s =>
    let s' := with_journal s (journal s ++ [NewsQuery q]) in
    match newsSearch (journal s) q with
    | SearchThrows e => (Raised (Thrown e), s')
    | answer => (Done answer, s')
    end.

Definition fetchBreakingNews : Task (list Article.t) :=
  task_try
    (from <- (fun s => (Done (twoHoursAgo (journal s)), s)) ;;
     response <- everythingQuery
                   {| query_q := None;
                      query_language := js "en";
                      query_sortBy := js "publishedAt";
                      query_from := Some from;
                      query_page := None;
                      query_pageSize := 10 |} ;;
     task_ret match response with
              | SearchResponds (Some articles) _ => articles
              | _ => []
              end)
    (fun error => server_log (ErrBreakingNews error) ;; task_ret []).

(** [searchNews(query, category = null, page = 1, pageSize = 10)]; a
    parameter left out is [None]. *)
Definition searchNews (query : jsstring) (category : option jsstring)
    (page pageSize : option N) : Task SearchResult :=
  task_try
    (let q :=
       if truthy category then
         match find (fun cat =>
                       str_eqb (toLowerCase (name cat))
                         (toLowerCase (interpolate category)))
                 this_categories with
         | Some categoryData =>
             query ++ js " AND (" ++ join (js " OR ") (keywords categoryData)
             ++ js ")"
         | None => query
         end
       else query in
     response <- everythingQuery
                   {| query_q := Some q;
                      query_language := js "en";
                      query_sortBy := js "relevancy";
                      query_from := None;
                      query_page := Some (match page with
                                          | Some n => n
                                          | None => 1%N
                                          end);
                      query_pageSize := match pageSize with
                                        | Some n => n
                                        | None => 10%N
                                        end |} ;;
     task_ret match response with
              | SearchResponds articles totalResults =>
                  {| result_articles := match articles with
                                        | Some l => l
                                        | None => []
                                        end;
                     result_totalResults := match totalResults with
                                            | Some n => n
                                            | None => 0%N
                                            end |}
              | SearchThrows _ =>
                  {| result_articles := []; result_totalResults := 0 |}
              end)
    (fun error =>
       server_log (ErrSearching error) ;;
       task_ret {| result_articles := []; result_totalResults := 0 |}).

End Routes.

Close Scope task_scope.

(** *** Vocabulary of the properties of this layer *)

(** The responses sent, in order. *)
Fixpoint responses (j : list entry) : list Response :=
  match j with
  | [] => []
  | Respond r :: j' => r :: responses j'
  | _ :: j' => responses j'
  end.

(** The searches sent by [searchNews] and [fetchBreakingNews], in order. *)
Fixpoint queries (j : list entry) : list Query :=
  match j with
  | [] => []
  | NewsQuery q :: j' => q :: queries j'
  | _ :: j' => queries j'
  end.

(** No user likes the post twice. *)
Definition unique_likes (p : Post.t) : Prop :=
  NoDup (map like_user (Post.likes p)).

(** The user is among those who like the post. *)
Definition likes_it (userId : ObjectId) (p : Post.t) : Prop :=
  In userId (map like_user (Post.likes p)).

(** What the deduplication of the pipeline looks at in a post. *)
Definition news_key (p : Post.t) : bool * option jsstring :=
  (Post.isNews p, Post.originalSource p).

(** The three ways a route on one post ends before it saves: the id is no
    ObjectId, or there is no such post (or it is inactive). *)
Definition cast_error_outcome (line : thrown -> server_line) (s : Server)
  : Result unit * Server :=
  (Done tt,
   with_journal s
     (journal s ++ [PostFindById NotAnObjectId; ServerLog (line CastError);
                    Respond not_found])).

Definition not_found_outcome (s : Server) (n : nat) : Result unit * Server :=
  (Done tt,
   with_journal s
     (journal s ++ [PostFindById (ObjectIdOf n); Respond not_found])).

(** How a route ends that saves the changed document [doc] at position [n]
    and answers [reply saved]. *)
Definition save_outcome (update : list entry -> nat -> Post.t -> option exn)
    (line : thrown -> server_line) (s : Server) (n : nat) (doc : Post.t)
    (reply : Post.t -> Response) : Result unit * Server :=
  let found := journal s ++ [PostFindById (ObjectIdOf n)] in
  if validate doc then
    match update found n (pre_save doc) with
    | None =>
        (Done tt,
         {| state :=
              with_posts (state s)
                (replace n (pre_save doc) (db_posts (state s)));
            journal :=
              found ++ [DocumentSave n doc; Respond (reply (pre_save doc))] |})
    | Some e =>
        (Done tt,
         with_journal s
           (found ++ [DocumentSave n doc; ServerLog (line (Thrown e));
                      Respond internal_error]))
    end
  else
    (Done tt,
     with_journal s
       (found ++ [DocumentSave n doc;
                  ServerLog (line (Thrown ValidationError));
                  Respond internal_error])).

(** What the removal of the image file leaves in the journal. *)
Definition unlink_entries (unlink : list entry -> jsstring -> option exn)
    (j : list entry) (image : option jsstring) : list entry :=
  match image with
  | Some (c :: image) =>
      match unlink j (c :: image) with
      | None => [Unlink (c :: image)]
      | Some deleteError =>
          [Unlink (c :: image); ServerLog (CouldNotDeleteImage deleteError)]
      end
  | _ => []
  end.

Definition forbidden_delete : Response :=
  error_response 403 (js "Not authorized to delete this post").

Definition deleted : Response :=
  success_response (Some (js "Post deleted successfully")) NoData.

(** The likes after the toggle of [likePost]. *)
Definition toggled (userId : ObjectId) (likes : list Like) : list Like :=
  match findIndex (fun like => (like_user like =? userId)%N) likes with
  | Some i => splice1 i likes
  | None => likes ++ [ {| like_user := userId |} ]
  end.

(** The answer of [likePost] when the save went through. *)
Definition like_reply (userId : ObjectId) (before : list Like) (saved : Post.t)
  : Response :=
  match findIndex (fun like => (like_user like =? userId)%N) before with
  | Some _ =>
      success_response (Some (js "Post unliked"))
        (LikeData false (length (Post.likes saved)))
  | None =>
      success_response (Some (js "Post liked"))
        (LikeData true (length (Post.likes saved)))
  end.

(** The id leads to no post that can be shown: it is no ObjectId, no post
    has it, or the post has been deactivated. *)
Definition unavailable (s : Server) (id : IdParam) : Prop :=
  match id with
  | NotAnObjectId => True
  | ObjectIdOf n =>
      match nth_error (db_posts (state s)) n with
      | Some post => Post.isActive post = false
      | None => True
      end
  end.

(** The route never raises and sends exactly one response. *)
Definition answers_once (route : Task unit) : Prop :=
  forall s, exists r,
    fst (route s) = Done tt
    /\ responses (journal (snd (route s))) = responses (journal s) ++ [r].

(** A route changed nothing in the posts, or it replaced the post at one
    position by the saved form of a document [doc] obtained from it, with
    [change post doc]. *)
Definition touches (change : Post.t -> Post.t -> Prop)
    (before after : list Post.t) : Prop :=
  after = before
  \/ exists n post doc,
       nth_error before n = Some post
       /\ change post doc
       /\ after = replace n (pre_save doc) before.

(** The document differs from the post in its likes, views, shares or
    [isActive] flag at most. *)
Definition same_content (post doc : Post.t) : Prop :=
  Post.title doc = Post.title post
  /\ Post.content doc = Post.content post
  /\ Post.author doc = Post.author post
  /\ Post.type doc = Post.type post
  /\ Post.image doc = Post.image post
  /\ Post.link doc = Post.link post
  /\ Post.categories doc = Post.categories post
  /\ Post.tags doc = Post.tags post
  /\ Post.isNews doc = Post.isNews post
  /\ Post.originalSource doc = Post.originalSource post
  /\ Post.publishedAt doc = Post.publishedAt post
  /\ Post.comments doc = Post.comments post.

(** The store accepts every write of a loaded document. *)
Definition store_available (update : list entry -> nat -> Post.t -> option exn)
  : Prop :=
  forall j n p, update j n p = None.

(** *** Concrete requests *)

Module Desk.

Local Open Scope N_scope.

(** A document store and a file system that accept everything. *)
Definition update_ok : list entry -> nat -> Post.t -> option exn :=
  fun _ _ _ => None.

Definition unlink_ok : list entry -> jsstring -> option exn :=
  fun _ _ => None.

(** A third user, who likes nothing yet. *)
Definition visitor : User := {| user_id := 3; user_role := role_user |}.

(** A server that stores one post, [liked_post], written by [reader]. *)
Definition server : Server :=
  {| state := with_posts Sample.world [Sample.liked_post]; journal := [] |}.

(** A news source that answers every search with the first [pageSize] of two
    articles. *)
Definition source_page : list event -> SearchParams -> SourceResult :=
  fun _ params =>
    SourceResponds
      (Some (firstn (N.to_nat (pageSize params))
               [Sample.article; Sample.article_with_image])).

(** An article whose [publishedAt] is no date. *)
Definition undated_article : Article.t :=
  {| Article.title := Some (js "Chip maker unveils new processor");
     Article.description := Some (js "A new processor was announced.");
     Article.content := None;
     Article.url := js "https://news.example/undated";
     Article.urlToImage := None;
     Article.publishedAt := Some (js "yesterday") |}.

End Desk.


(* ===================================================================== *)
(** ** Properties of the string operations and of the response parser *)
(* ===================================================================== *)

Lemma substring_from_0_length (s : jsstring) (n : nat) :
  length (substring s 0 n) <= n.
Proof.
  unfold substring. cbn [Nat.min].
  rewrite Nat.max_0_l, Nat.sub_0_r. cbn [skipn].
  rewrite length_firstn. lia.
Qed.

Lemma startsWith_app (p r s : jsstring) :
  startsWith (p ++ r) s = true -> startsWith p s = true.
Proof.
  revert s. induction p as [|a p IH]; intros s H.
  - reflexivity.
  - destruct s as [|b s]; cbn in *; [discriminate|].
    apply andb_true_iff in H. destruct H as [Hab H].
    rewrite Hab. cbn. now apply IH.
Qed.

Lemma includes_here (p s : jsstring) :
  startsWith p s = true -> includes s p = true.
Proof. intros H. destruct s; cbn; rewrite H; reflexivity. Qed.

Lemma includes_later (p : jsstring) (c : N) (s : jsstring) :
  includes s p = true -> includes (c :: s) p = true.
Proof. intros H. cbn. rewrite H. apply orb_true_r. Qed.

(** A match of a pattern that begins with the literal [lit] needs [lit] (and
    so each of its prefixes) to occur in the text. *)
Lemma leftmost_includes {A : Type} (f : jsstring -> option A) (p r : jsstring) :
  (forall s x, f s = Some x -> startsWith (p ++ r) s = true) ->
  forall text x, leftmost f text = Some x -> includes text p = true.
Proof.
  intros Hf. induction text as [|c text IH]; intros x H; cbn in H.
  - destruct (f []) eqn:E; [|discriminate].
    apply includes_here. eapply startsWith_app, Hf, E.
  - destruct (f (c :: text)) eqn:E.
    + apply includes_here. eapply startsWith_app, Hf, E.
    + apply includes_later. eapply IH, H.
Qed.

Lemma literal_dotPlus_startsWith (lit s x : jsstring) :
  literal_dotPlus lit s = Some x -> startsWith lit s = true.
Proof.
  unfold literal_dotPlus. destruct (startsWith lit s); [reflexivity|discriminate].
Qed.

Lemma literal_lazyPlus_startsWith (lit s x : jsstring) :
  literal_lazyPlus lit s = Some x -> startsWith lit s = true.
Proof.
  unfold literal_lazyPlus. destruct (startsWith lit s); [reflexivity|discriminate].
Qed.

Lemma titleMatch_includes (text x : jsstring) :
  titleMatch text = Some x -> includes text (js "TITLE:") = true.
Proof.
  apply (@leftmost_includes _ _ (js "TITLE:") (js " ")).
  intros s y. apply literal_dotPlus_startsWith.
Qed.

Lemma summaryMatch_includes (text x : jsstring) :
  summaryMatch text = Some x -> includes text (js "SUMMARY:") = true.
Proof.
  apply (@leftmost_includes _ _ (js "SUMMARY:") (js " ")).
  intros s y. apply literal_lazyPlus_startsWith.
Qed.

Lemma tagsMatch_includes (text x : jsstring) :
  tagsMatch text = Some x -> includes text (js "TAGS:") = true.
Proof.
  apply (@leftmost_includes _ _ (js "TAGS:") (js " ")).
  intros s y. apply literal_dotPlus_startsWith.
Qed.

Lemma tagsMatch_absent (text : jsstring) :
  includes text (js "TAGS:") = false -> tagsMatch text = None.
Proof.
  intros H. destruct (tagsMatch text) eqn:E; [|reflexivity].
  apply tagsMatch_includes in E. congruence.
Qed.

Section Parser.

Variable toLowerCase : jsstring -> jsstring.
Variable newDate : option jsstring -> Date.

Lemma processedArticle_marker_absent (article : Article.t) (text : jsstring) :
  includes text (js "TITLE:") = false \/ includes text (js "SUMMARY:") = false ->
  processedArticle toLowerCase newDate article text = None.
Proof.
  intros H. unfold processedArticle.
  destruct (titleMatch text) eqn:Et; [|reflexivity].
  destruct (summaryMatch text) eqn:Es; [|reflexivity].
  apply titleMatch_includes in Et. apply summaryMatch_includes in Es.
  destruct H; congruence.
Qed.

Lemma processedArticle_title_length (article : Article.t) (text : jsstring)
    (processed : ProcessedArticle.t) :
  processedArticle toLowerCase newDate article text = Some processed ->
  length (ProcessedArticle.title processed) <= 200.
Proof.
  unfold processedArticle.
  destruct (titleMatch text); [|discriminate].
  destruct (summaryMatch text); [|discriminate].
  intros [= <-]. cbn [ProcessedArticle.title]. apply substring_from_0_length.
Qed.

End Parser.

(* ===================================================================== *)
(** ** Reasoning about asynchronous computations *)
(* ===================================================================== *)

Section Steps.

Variable R : World -> World -> Prop.
Hypothesis R_refl : forall w, R w w.
Hypothesis R_trans : forall a b c, R a b -> R b c -> R a c.

Lemma steps_ret {A : Type} (a : A) : steps R (ret a).
Proof. intros w. apply R_refl. Qed.

Lemma steps_throw {A : Type} (e : exn) : steps R (@throw A e).
Proof. intros w. apply R_refl. Qed.

Lemma steps_bind {A B : Type} (m : Async A) (k : A -> Async B) :
  steps R m -> (forall a, steps R (k a)) -> steps R (bind m k).
Proof.
  intros Hm Hk w. unfold bind. specialize (Hm w).
  destruct (m w) as [[a|e] w']; cbn in *.
  - eapply R_trans; [exact Hm | apply Hk].
  - exact Hm.
Qed.

Lemma steps_try_catch {A : Type} (m : Async A) (h : exn -> Async A) :
  steps R m -> (forall e, steps R (h e)) -> steps R (try_catch m h).
Proof.
  intros Hm Hh w. unfold try_catch. specialize (Hm w).
  destruct (m w) as [[a|e] w']; cbn in *.
  - exact Hm.
  - eapply R_trans; [exact Hm | apply Hh].
Qed.

Lemma steps_forOf {A : Type} (l : list A) (body : A -> Async unit) :
  (forall x, steps R (body x)) -> steps R (forOf l body).
Proof.
  intros Hb. induction l as [|x l IH]; cbn [forOf].
  - apply steps_ret.
  - apply steps_bind; [apply Hb | intros _; exact IH].
Qed.

End Steps.

Lemma resolves_ret {A : Type} (a : A) : resolves (ret a).
Proof. intros w. now exists a. Qed.

Lemma resolves_bind {A B : Type} (m : Async A) (k : A -> Async B) :
  resolves m -> (forall a, resolves (k a)) -> resolves (bind m k).
Proof.
  intros Hm Hk w. unfold bind. destruct (Hm w) as [a Ha].
  destruct (m w) as [c w']; cbn in Ha; subst c. apply Hk.
Qed.

Lemma resolves_try_catch {A : Type} (m : Async A) (h : exn -> Async A) :
  (forall e, resolves (h e)) -> resolves (try_catch m h).
Proof.
  intros Hh w. unfold try_catch.
  destruct (m w) as [[a|e] w']; [now exists a | apply Hh].
Qed.

Lemma resolves_forOf {A : Type} (l : list A) (body : A -> Async unit) :
  (forall x, resolves (body x)) -> resolves (forOf l body).
Proof.
  intros Hb. induction l as [|x l IH]; cbn [forOf].
  - apply resolves_ret.
  - apply resolves_bind; [apply Hb | intros _; exact IH].
Qed.

Lemma resolves_emit (ev : event) : resolves (emit ev).
Proof. intros w. now exists tt. Qed.

Lemma resolves_incr_failed : resolves incr_failed.
Proof. intros w. now exists tt. Qed.

(** *** The relation [Ingest] is a preorder that ignores the trace and the
    counters *)

Lemma ingestion_app (old a1 a2 : list Post.t) :
  ingestion old a1 -> ingestion (old ++ a1) a2 -> ingestion old (a1 ++ a2).
Proof.
  revert old. induction a1 as [|p a1 IH]; intros old H1 H2; cbn in *.
  - now rewrite app_nil_r in H2.
  - destruct H1 as [Hp H1]. split; [exact Hp|].
    apply IH; [exact H1|]. now rewrite <- app_assoc.
Qed.

Lemma Ingest_refl (w : World) : Ingest w w.
Proof.
  repeat split. exists []. now rewrite app_nil_r.
Qed.

Lemma Ingest_trans (a b c : World) : Ingest a b -> Ingest b c -> Ingest a c.
Proof.
  intros (Hu1 & Hc1 & add1 & Hp1 & Hi1) (Hu2 & Hc2 & add2 & Hp2 & Hi2).
  repeat split; try congruence.
  exists (add1 ++ add2). split.
  - rewrite Hp2, Hp1. now rewrite app_assoc.
  - apply ingestion_app; [exact Hi1 | now rewrite <- Hp1].
Qed.

Lemma Ingest_with_trace (w : World) (t : list event) : Ingest w (with_trace w t).
Proof. repeat split. exists []. cbn. now rewrite app_nil_r. Qed.

Lemma Ingest_with_processedCount (w : World) (c : Counts) :
  Ingest w (with_processedCount w c).
Proof. repeat split. exists []. cbn. now rewrite app_nil_r. Qed.

Lemma Ingest_emit (ev : event) : steps Ingest (emit ev).
Proof. intros w. apply Ingest_with_trace. Qed.

Lemma Ingest_incr_success : steps Ingest incr_success.
Proof. intros w. apply Ingest_with_processedCount. Qed.

Lemma Ingest_incr_failed : steps Ingest incr_failed.
Proof. intros w. apply Ingest_with_processedCount. Qed.

(** A step that leaves the three collections as they are. *)
Lemma Ingest_same_collections (w w' : World) :
  db_users w' = db_users w ->
  db_categories w' = db_categories w ->
  db_posts w' = db_posts w ->
  Ingest w w'.
Proof.
  intros Hu Hc Hp. repeat split; try assumption.
  exists []. now rewrite app_nil_r.
Qed.

Create HintDb ingest.
#[local] Hint Resolve Ingest_refl Ingest_with_trace Ingest_with_processedCount
  Ingest_same_collections : ingest.

(* ===================================================================== *)
(** ** What each function of the service does, case by case *)
(* ===================================================================== *)

Arguments rewrite_prompt : simpl never.
Arguments tags_prompt : simpl never.
Arguments missing_content : simpl never.
Arguments processedArticle : simpl never.
Arguments newPost : simpl never.
Arguments validate : simpl never.
Arguments pre_save : simpl never.
Arguments search_params : simpl never.

(** Normalises the worlds and traces that unfolding the combinators leaves. *)
Ltac run_step :=
  cbn [fst snd trace db_posts db_users db_categories processedCount
       with_trace with_posts with_processedCount];
  rewrite <- ?app_assoc; cbn [app].

Ltac unfold_async :=
  unfold try_catch, bind, ret, throw, console_log, console_error, delay,
    emit, incr_success, incr_failed, Post_findOne, Category_findOne,
    User_findOne_admin.

Section Pipeline.

Variable toLowerCase : jsstring -> jsstring.
Variable newDate : option jsstring -> Date.
Variable userQuery : list event -> option exn.
Variable newsApi : list event -> SearchParams -> SourceResult.
Variable model : list event -> jsstring -> ModelResult.
Variable store : list event -> Post.t -> option exn.

Lemma processWithAI_run (article : Article.t) (categoryName : jsstring)
    (w : World) :
  let prompt := rewrite_prompt article categoryName in
  processWithAI toLowerCase newDate model article categoryName w =
  match model (trace w) prompt with
  | ModelThrows e =>
      (Return None,
       with_trace w (trace w ++ [GenerateContent prompt; Console (ErrAI e)]))
  | ModelText text =>
      match processedArticle toLowerCase newDate article text with
      | Some processed =>
          (Return (Some processed),
           with_trace w (trace w ++ [GenerateContent prompt]))
      | None =>
          (Return None,
           with_trace w
             (trace w ++ [GenerateContent prompt; Console ErrFormatInvalid]))
      end
  end.
Proof.
  intros prompt. unfold processWithAI, generateContent. unfold_async.
  fold prompt. destruct (model (trace w) prompt) as [e|text].
  - run_step. reflexivity.
  - destruct (processedArticle toLowerCase newDate article text); run_step; reflexivity.
Qed.

Lemma createNewsPost_run (processed : ProcessedArticle.t)
    (categoryId adminUserId : ObjectId) (originalArticle : Article.t)
    (w : World) :
  let post := newPost processed categoryId adminUserId originalArticle in
  createNewsPost store processed categoryId adminUserId originalArticle w =
  if validate post then
    match store (trace w) (pre_save post) with
    | None =>
        (Return (pre_save post),
         with_posts (with_trace w (trace w ++ [PostSave post]))
           (db_posts w ++ [pre_save post]))
    | Some e =>
        (Throw e,
         with_trace w (trace w ++ [PostSave post; Console (ErrCreate e)]))
    end
  else
    (Throw ValidationError,
     with_trace w
       (trace w ++ [PostSave post; Console (ErrCreate ValidationError)])).
Proof.
  intros post. unfold createNewsPost, Post_save. unfold_async. fold post.
  destruct (validate post).
  - destruct (store (trace w) (pre_save post)); run_step; reflexivity.
  - run_step. reflexivity.
Qed.

(** One iteration of the loop over the articles, spelled out. *)
Lemma articleLoopBody_run (category : Topic) (dbCategory : Category)
    (adminUserId : ObjectId) (article : Article.t) (w : World) :
  let url := Article.url article in
  let prompt := rewrite_prompt article (name category) in
  let counted c := with_processedCount w c in
  let ok := {| success := success (processedCount w) + 1;
               failed := failed (processedCount w) |} in
  let ko := {| success := success (processedCount w);
               failed := failed (processedCount w) + 1 |} in
  articleLoopBody toLowerCase newDate model store category dbCategory adminUserId
    article w =
  match find (is_news_from url) (db_posts w) with
  | Some _ =>
      (Return tt,
       with_trace w
         (trace w ++ [PostFindOne url true;
                      Console (LogAlreadyExists (Article.title article))]))
  | None =>
      if missing_content article then
        (Return tt,
         with_trace w (trace w ++ [PostFindOne url true; Console LogSkipping]))
      else
        match model (trace w ++ [PostFindOne url true]) prompt with
        | ModelThrows e =>
            (Return tt,
             with_trace (counted ko)
               (trace w ++ [PostFindOne url true; GenerateContent prompt;
                            Console (ErrAI e)]))
        | ModelText text =>
            match processedArticle toLowerCase newDate article text with
            | None =>
                (Return tt,
                 with_trace (counted ko)
                   (trace w ++ [PostFindOne url true; GenerateContent prompt;
                                Console ErrFormatInvalid]))
            | Some processed =>
                let post :=
                  newPost processed (category_id dbCategory) adminUserId
                    article in
                if validate post then
                  match store (trace w ++ [PostFindOne url true;
                                           GenerateContent prompt])
                          (pre_save post) with
                  | None =>
                      (Return tt,
                       with_posts
                         (with_trace (counted ok)
                            (trace w ++ [PostFindOne url true;
                                         GenerateContent prompt;
                                         PostSave post;
                                         Console (LogSuccess
                                           (ProcessedArticle.title processed))]))
                         (db_posts w ++ [pre_save post]))
                  | Some e =>
                      (Return tt,
                       with_trace (counted ko)
                         (trace w ++ [PostFindOne url true;
                                      GenerateContent prompt; PostSave post;
                                      Console (ErrCreate e);
                                      Console (ErrArticle e)]))
                  end
                else
                  (Return tt,
                   with_trace (counted ko)
                     (trace w ++ [PostFindOne url true; GenerateContent prompt;
                                  PostSave post;
                                  Console (ErrCreate ValidationError);
                                  Console (ErrArticle ValidationError)]))
            end
        end
  end.
Proof.
  intros url prompt counted ok ko. subst counted.
  unfold articleLoopBody.
  unfold try_catch at 1. unfold bind at 1. unfold Post_findOne at 1.
  fold url. destruct (find (is_news_from url) (db_posts w)) as [existing|].
  - unfold_async. run_step. reflexivity.
  - destruct (missing_content article).
    + unfold_async. run_step. reflexivity.
    + unfold bind at 1. rewrite processWithAI_run. fold prompt. run_step.
      destruct (model (trace w ++ [PostFindOne url true]) prompt) as [e|text].
      * unfold_async. run_step. reflexivity.
      * destruct (processedArticle toLowerCase newDate article text) as [processed|].
        -- unfold bind at 1. rewrite createNewsPost_run. run_step.
           destruct (validate _).
           ++ destruct (store _ _); unfold_async; run_step; reflexivity.
           ++ unfold_async; run_step; reflexivity.
        -- unfold_async. run_step. reflexivity.
Qed.

Lemma processedArticle_passthrough (article : Article.t) (text : jsstring)
    (processed : ProcessedArticle.t) :
  processedArticle toLowerCase newDate article text = Some processed ->
  ProcessedArticle.image processed = Article.urlToImage article
  /\ ProcessedArticle.originalUrl processed = Article.url article.
Proof.
  unfold processedArticle.
  destruct (titleMatch text); [|discriminate].
  destruct (summaryMatch text); [|discriminate].
  intros [= <-]. split; reflexivity.
Qed.

(** The article loop absorbs every error. *)
Lemma resolves_articleLoopBody (category : Topic) (dbCategory : Category)
    (adminUserId : ObjectId) (article : Article.t) :
  resolves (articleLoopBody toLowerCase newDate model store category dbCategory
              adminUserId article).
Proof.
  intros w. exists tt. rewrite articleLoopBody_run. cbv zeta.
  repeat match goal with
         | |- context [match ?x with _ => _ end] => destruct x
         end; reflexivity.
Qed.

(** A post made by [newPost] and stored is a post ingested from its article. *)
Lemma ingested_from_newPost (old : list Post.t) (article : Article.t)
    (text : jsstring) (processed : ProcessedArticle.t)
    (categoryId adminUserId : ObjectId) :
  find (is_news_from (Article.url article)) old = None ->
  processedArticle toLowerCase newDate article text = Some processed ->
  ingested_from old article
    (pre_save (newPost processed categoryId adminUserId article)).
Proof.
  intros Hfind Hp. apply processedArticle_passthrough in Hp.
  destruct Hp as [Himg _].
  unfold ingested_from, pre_save, newPost, link_of.
  cbn [Post.with_engagement Post.isNews Post.originalSource Post.link
       Post.image Post.type].
  rewrite Himg. repeat split; auto.
Qed.

Lemma Ingest_articleLoopBody (category : Topic) (dbCategory : Category)
    (adminUserId : ObjectId) (article : Article.t) :
  steps Ingest (articleLoopBody toLowerCase newDate model store category dbCategory
                  adminUserId article).
Proof.
  intros w. rewrite articleLoopBody_run. cbv zeta.
  destruct (find _ (db_posts w)) eqn:Hfind; [auto with ingest|].
  destruct (missing_content article); [auto with ingest|].
  destruct (model _ _) as [e|text]; [auto with ingest|].
  destruct (processedArticle toLowerCase newDate article text) as [processed|] eqn:Hp;
    [|auto with ingest].
  destruct (validate _); [|auto with ingest].
  destruct (store _ _); [auto with ingest|].
  repeat split. cbn [snd db_posts with_posts].
  eexists [_]. split; [reflexivity|]. cbn [ingestion]. split; [|exact I].
  exists article. eapply ingested_from_newPost; eassumption.
Qed.

Lemma try_catch_resolves {A : Type} (m : Async A) (h : exn -> Async A) :
  resolves m -> forall w, try_catch m h w = m w.
Proof.
  intros Hm w. unfold try_catch. destruct (Hm w) as [a Ha].
  destruct (m w) as [c w']; cbn in Ha; subst c. reflexivity.
Qed.

(** One call of [processCategoryNews], spelled out. *)
Lemma processCategoryNews_run (category : Topic) (adminUserId : ObjectId)
    (w : World) :
  let params := search_params category in
  let asked := trace w ++ [CategoryFindOne (name category)] in
  processCategoryNews toLowerCase newDate newsApi model store category adminUserId w =
  match find (fun c => str_eqb (category_name c) (name category))
          (db_categories w) with
  | None =>
      (Return tt,
       with_trace w (asked ++ [Console (LogCategoryNotFound (name category))]))
  | Some dbCategory =>
      match newsApi asked params with
      | SourceThrows e =>
          (Throw e,
           with_trace w
             (asked ++ [NewsEverything params;
                        Console (ErrCategory (name category) e)]))
      | SourceResponds None
      | SourceResponds (Some []) =>
          (Return tt,
           with_trace w
             (asked ++ [NewsEverything params;
                        Console (LogNoArticles (name category))]))
      | SourceResponds (Some articles) =>
          forOf articles
            (articleLoopBody toLowerCase newDate model store category dbCategory
               adminUserId)
            (with_trace w (asked ++ [NewsEverything params]))
      end
  end.
Proof.
  intros params asked. subst asked. unfold processCategoryNews.
  unfold try_catch at 1. unfold bind at 1. unfold Category_findOne at 1.
  destruct (find _ (db_categories w)) as [dbCategory|].
  - unfold bind at 1. unfold everything at 1. fold params. run_step.
    destruct (newsApi _ params) as [e|[[|article articles]|]].
    + unfold_async. run_step. reflexivity.
    + unfold_async. run_step. reflexivity.
    + pose proof (@resolves_forOf _ (article :: articles) _
        (resolves_articleLoopBody category dbCategory adminUserId)
        (with_trace w
           (trace w ++ [CategoryFindOne (name category); NewsEverything params])))
        as [u Hu].
      destruct (forOf _ _ _) as [c w'] eqn:E. cbn in Hu. subst c. reflexivity.
    + unfold_async. run_step. reflexivity.
  - unfold_async. run_step. reflexivity.
Qed.

Lemma Ingest_processCategoryNews (category : Topic) (adminUserId : ObjectId) :
  steps Ingest
    (processCategoryNews toLowerCase newDate newsApi model store category adminUserId).
Proof.
  intros w. rewrite processCategoryNews_run. cbv zeta.
  destruct (find _ (db_categories w)) as [dbCategory|];
    [|apply Ingest_with_trace].
  destruct (newsApi _ _) as [e|[[|article articles]|]];
    try apply Ingest_with_trace.
  eapply Ingest_trans; [apply Ingest_with_trace|].
  apply (steps_forOf Ingest_refl Ingest_trans).
  intros x. apply Ingest_articleLoopBody.
Qed.

(** One iteration of the loop over the topics absorbs every error. *)
Lemma resolves_categoryLoopBody (adminUserId : ObjectId) (category : Topic) :
  resolves (categoryLoopBody toLowerCase newDate newsApi model store adminUserId
              category).
Proof.
  apply resolves_try_catch. intros e.
  apply resolves_bind; [apply resolves_emit | intros _; apply resolves_incr_failed].
Qed.

Lemma Ingest_categoryLoopBody (adminUserId : ObjectId) (category : Topic) :
  steps Ingest
    (categoryLoopBody toLowerCase newDate newsApi model store adminUserId category).
Proof.
  apply (steps_try_catch Ingest_trans).
  - apply (steps_bind Ingest_trans);
      [apply Ingest_processCategoryNews | intros _; apply Ingest_emit].
  - intros e. apply (steps_bind Ingest_trans);
      [apply Ingest_emit | intros _; apply Ingest_incr_failed].
Qed.

(** An invocation of the pipeline, spelled out down to the loop over the
    topics. *)
Lemma fetchAndProcessNews_run (w : World) :
  fetchAndProcessNews toLowerCase newDate userQuery newsApi model store w =
  match admin_lookup userQuery w with
  | inl e => (Throw e, aborted w e)
  | inr None =>
      (Throw (Error (js "Admin user not found")),
       aborted w (Error (js "Admin user not found")))
  | inr (Some adminUser) =>
      let started :=
        with_processedCount
          (with_trace w
             (trace w ++ [Console LogStarting; UserFindOne role_admin]))
          {| success := 0; failed := 0 |} in
      let done :=
        snd (forOf this_categories
               (categoryLoopBody toLowerCase newDate newsApi model store
                  (user_id adminUser)) started) in
      (Return (processedCount done),
       with_trace done
         (trace done ++ [Console (LogCompleted (processedCount done))]))
  end.
Proof.
  unfold fetchAndProcessNews, admin_lookup, aborted.
  unfold try_catch at 1. unfold bind at 1. unfold console_log at 1.
  unfold emit at 1. unfold bind at 1. unfold User_findOne_admin at 1.
  run_step.
  destruct (userQuery (trace w ++ [Console LogStarting])) as [e|].
  { unfold_async. run_step. reflexivity. }
  destruct (find is_admin (db_users w)) as [adminUser|].
  - cbv zeta. unfold bind at 1. unfold bind at 1.
    change (with_trace (with_trace w (trace w ++ [Console LogStarting]))
              (trace w ++ [Console LogStarting; UserFindOne role_admin]))
      with (with_trace w
              (trace w ++ [Console LogStarting; UserFindOne role_admin])).
    pose proof (@resolves_forOf _ this_categories _
      (resolves_categoryLoopBody (user_id adminUser))) as Hres.
    match goal with
    | |- context [forOf this_categories ?body ?w0] =>
        destruct (Hres w0) as [u Hu];
        destruct (forOf this_categories body w0) as [c done] eqn:E
    end.
    cbn in Hu. subst c. unfold_async. run_step. reflexivity.
  - unfold_async. run_step. reflexivity.
Qed.

Lemma Ingest_fetchAndProcessNews :
  steps Ingest
    (fetchAndProcessNews toLowerCase newDate userQuery newsApi model store).
Proof.
  intros w. rewrite fetchAndProcessNews_run.
  destruct (admin_lookup userQuery w) as [e|[adminUser|]];
    [apply Ingest_with_trace | | apply Ingest_with_trace].
  cbv zeta. cbn [snd].
  eapply Ingest_trans; [|apply Ingest_with_trace].
  eapply Ingest_trans;
    [|apply (steps_forOf Ingest_refl Ingest_trans);
      intros x; apply Ingest_categoryLoopBody].
  eapply Ingest_trans;
    [apply Ingest_with_trace | apply Ingest_with_processedCount].
Qed.

End Pipeline.

(* ===================================================================== *)
(** ** Consequences of [Ingest] *)
(* ===================================================================== *)

Lemma str_eqb_eq (a b : jsstring) : str_eqb a b = true -> a = b.
Proof. unfold str_eqb. destruct (list_eq_dec N.eq_dec a b); easy. Qed.

Lemma find_none_existsb {A : Type} (f : A -> bool) (l : list A) :
  find f l = None -> existsb f l = false.
Proof.
  induction l as [|x l IH]; cbn; [reflexivity|].
  destruct (f x); [discriminate | exact IH].
Qed.

Lemma count_source_app (url : jsstring) (ps qs : list Post.t) :
  count_source url (ps ++ qs) = count_source url ps + count_source url qs.
Proof. unfold count_source. now rewrite filter_app, length_app. Qed.

(** Ingestion never adds a post from a URL that a stored news post has. *)
Lemma ingestion_count_source (url : jsstring) (old added : list Post.t) :
  existsb (is_news_from url) old = true ->
  ingestion old added ->
  count_source url (old ++ added) = count_source url old.
Proof.
  revert old. induction added as [|p rest IH]; intros old Hold Hing.
  - now rewrite app_nil_r.
  - destruct Hing as [[a (Hfind & _ & Hsrc & _)] Hrest].
    assert (Hp : has_source url p = false).
    { unfold has_source. rewrite Hsrc.
      destruct (str_eqb (Article.url a) url) eqn:E; [|reflexivity].
      apply str_eqb_eq in E. subst url.
      apply find_none_existsb in Hfind. congruence. }
    change (p :: rest) with ([p] ++ rest). rewrite app_assoc.
    rewrite IH; [|rewrite existsb_app, Hold; reflexivity | exact Hrest].
    rewrite count_source_app. unfold count_source at 2. cbn [filter].
    rewrite Hp. cbn. lia.
Qed.

Lemma find_none_filter {A : Type} (f : A -> bool) (l : list A) :
  find f l = None -> filter f l = [].
Proof.
  induction l as [|x l IH]; cbn; [reflexivity|].
  destruct (f x); [discriminate | exact IH].
Qed.

(** Ingestion keeps the news posts unique per [originalSource]. *)
Lemma ingestion_unique_news (old added : list Post.t) :
  unique_news old -> ingestion old added -> unique_news (old ++ added).
Proof.
  revert old. induction added as [|p rest IH]; intros old Hold Hing.
  - now rewrite app_nil_r.
  - destruct Hing as [[a (Hfind & _ & Hsrc & _)] Hrest].
    change (p :: rest) with ([p] ++ rest). rewrite app_assoc.
    apply IH; [|exact Hrest].
    intros url. unfold count_news. rewrite filter_app, length_app.
    cbn [filter]. destruct (is_news_from url p) eqn:Hp.
    + unfold is_news_from in Hp. rewrite Hsrc in Hp.
      apply andb_true_iff in Hp. destruct Hp as [Hp _].
      apply str_eqb_eq in Hp. subst url.
      rewrite (find_none_filter _ _ Hfind). cbn. lia.
    + specialize (Hold url). unfold count_news in Hold. cbn. lia.
Qed.

(* ===================================================================== *)
(** ** The properties of the specification *)
(* ===================================================================== *)

Section Claims.

Variable toLowerCase : jsstring -> jsstring.
Variable newDate : option jsstring -> Date.
Variable userQuery : list event -> option exn.
Variable newsApi : list event -> SearchParams -> SourceResult.
Variable model : list event -> jsstring -> ModelResult.
Variable store : list event -> Post.t -> option exn.
Variable update : list entry -> nat -> Post.t -> option exn.

(** C1.  If the store holds a news post ([isNews = true]) whose
    [originalSource] is [url], then an invocation of the pipeline, whatever
    the news source and the model answer, leaves the number of posts with
    that [originalSource] unchanged; and the loop body, given an article with
    that URL, skips it: it queries the store, logs that the article exists and
    returns, with no call to the model, no save and no change of the
    counters. *)
Theorem stored_article_is_not_ingested_again (w : World) (url : jsstring) :
  existsb (is_news_from url) (db_posts w) = true ->
  count_source url
    (db_posts (snd (fetchAndProcessNews toLowerCase newDate userQuery newsApi model store w)))
  = count_source url (db_posts w)
  /\ forall category dbCategory adminUserId article,
       Article.url article = url ->
       articleLoopBody toLowerCase newDate model store category dbCategory
         adminUserId article w
       = (Return tt,
          with_trace w
            (trace w ++ [PostFindOne url true;
                         Console (LogAlreadyExists (Article.title article))])).
Proof.
  intros Hstored. split.
  - destruct (Ingest_fetchAndProcessNews toLowerCase newDate userQuery newsApi model
              store w)
      as (_ & _ & added & Hposts & Hing).
    rewrite Hposts. now apply ingestion_count_source.
  - intros category dbCategory adminUserId article <-.
    rewrite articleLoopBody_run. cbv zeta.
    destruct (find _ (db_posts w)) eqn:Hfind; [reflexivity|].
    apply find_none_existsb in Hfind. congruence.
Qed.

(** The invariant behind C1: if no two stored news posts share an
    [originalSource], an invocation of the pipeline keeps it so. *)
Corollary pipeline_keeps_news_unique (w : World) :
  unique_news (db_posts w) ->
  unique_news
    (db_posts (snd (fetchAndProcessNews toLowerCase newDate userQuery newsApi model store w))).
Proof.
  intros Hold.
  destruct (Ingest_fetchAndProcessNews toLowerCase newDate userQuery newsApi model
              store w)
    as (_ & _ & added & Hposts & Hing).
  rewrite Hposts. now apply ingestion_unique_news.
Qed.

(** C3, as the code has it.  An invocation ends in one of three ways.  The
    admin query resolves with no user: the invocation throws
    [Error('Admin user not found')] after the start line and the admin query
    only, with no category query, no call to the news source or the model and
    no save, the collections and counters untouched.  The admin query
    rejects: the invocation throws the error of the query, in the same
    state.  The admin query resolves with a user: the invocation returns the
    counts.  So the errors that reach the caller are the missing admin user
    and a rejected admin query, and no other. *)
Theorem only_missing_admin_is_fatal (w : World) :
  (admin_lookup userQuery w = inr None
   /\ fetchAndProcessNews toLowerCase newDate userQuery newsApi model store w
      = (Throw (Error (js "Admin user not found")),
         with_trace w
           (trace w ++ [Console LogStarting; UserFindOne role_admin;
                        Console (ErrFetchAndProcess
                                   (Error (js "Admin user not found")))])))
  \/ (exists e,
        admin_lookup userQuery w = inl e
        /\ fetchAndProcessNews toLowerCase newDate userQuery newsApi model
             store w
           = (Throw e,
              with_trace w
                (trace w ++ [Console LogStarting; UserFindOne role_admin;
                             Console (ErrFetchAndProcess e)])))
  \/ (exists adminUser counts w',
        admin_lookup userQuery w = inr (Some adminUser)
        /\ fetchAndProcessNews toLowerCase newDate userQuery newsApi model
             store w
           = (Return counts, w')).
Proof.
  rewrite fetchAndProcessNews_run.
  destruct (admin_lookup userQuery w) as [e|[adminUser|]].
  - right. left. exists e. split; reflexivity.
  - right. right. cbv zeta. eauto.
  - left. split; reflexivity.
Qed.

(** C4.  Let the loop body reach the rewriter for an article (no stored news
    post from its URL, content present) and let the model answer a text in
    which the [TITLE:] marker or the [SUMMARY:] marker does not occur.  Then
    [processWithAI] returns [null]; the loop body returns normally having
    only queried the store, called the model and logged the invalid format:
    there is no [PostSave], the posts are unchanged, [failed] is one more and
    [success] is unchanged; and the loop goes on with the next articles. *)
Theorem malformed_rewrite_is_not_persisted (category : Topic)
    (dbCategory : Category) (adminUserId : ObjectId) (article : Article.t)
    (rest : list Article.t) (text : jsstring) (w : World) :
  let url := Article.url article in
  let prompt := rewrite_prompt article (name category) in
  let body :=
    articleLoopBody toLowerCase newDate model store category dbCategory adminUserId in
  let w' :=
    with_trace
      (with_processedCount w
         {| success := success (processedCount w);
            failed := failed (processedCount w) + 1 |})
      (trace w ++ [PostFindOne url true; GenerateContent prompt;
                   Console ErrFormatInvalid]) in
  includes text (js "TITLE:") = false \/ includes text (js "SUMMARY:") = false ->
  find (is_news_from url) (db_posts w) = None ->
  missing_content article = false ->
  model (trace w ++ [PostFindOne url true]) prompt = ModelText text ->
  fst (processWithAI toLowerCase newDate model article (name category)
         (with_trace w (trace w ++ [PostFindOne url true])))
  = Return None
  /\ body article w = (Return tt, w')
  /\ db_posts w' = db_posts w
  /\ forOf (article :: rest) body w = forOf rest body w'.
Proof.
  intros url prompt body w' Hmarker Hfind Hcontent Hmodel.
  pose proof (processedArticle_marker_absent toLowerCase newDate article text
                Hmarker) as Hp.
  assert (Hbody : body article w = (Return tt, w')).
  { subst body. rewrite articleLoopBody_run. cbv zeta.
    fold url. rewrite Hfind, Hcontent. fold prompt. rewrite Hmodel, Hp.
    reflexivity. }
  repeat split.
  - rewrite processWithAI_run. cbv zeta. cbn [trace with_trace].
    fold prompt. rewrite Hmodel, Hp. reflexivity.
  - exact Hbody.
  - cbn [forOf]. unfold bind at 1. rewrite Hbody. reflexivity.
Qed.

(** C5.  Whenever [processWithAI] returns a result, its title has at most
    200 code units, whatever the model answered. *)
Theorem rewritten_title_at_most_200 (article : Article.t)
    (categoryName : jsstring) (w w' : World) (processed : ProcessedArticle.t) :
  processWithAI toLowerCase newDate model article categoryName w
  = (Return (Some processed), w') ->
  length (ProcessedArticle.title processed) <= 200.
Proof.
  rewrite processWithAI_run. cbv zeta.
  destruct (model _ _) as [e|text]; [discriminate|].
  destruct (processedArticle toLowerCase newDate article text) as [p|] eqn:Hp;
    [|discriminate].
  intros [= <- _]. eapply processedArticle_title_length, Hp.
Qed.

(** C6, as the code has it.  The loop body always returns normally, and its
    first effect is the query of the Post Store for a news post from the
    article's URL.  If one is found, the article is skipped with the line
    that it already exists.  Only when none is found is the content looked
    at: an article with an empty or placeholder title or without description
    is then skipped with the line about missing content.  Both skips leave
    the posts and the counters as they were and call neither the model nor
    [save]. *)
Theorem store_is_checked_before_content (category : Topic)
    (dbCategory : Category) (adminUserId : ObjectId) (article : Article.t)
    (w : World) :
  let url := Article.url article in
  exists w' later,
    articleLoopBody toLowerCase newDate model store category dbCategory adminUserId
      article w = (Return tt, w')
    /\ trace w' = trace w ++ PostFindOne url true :: later
    /\ (forall existing,
          find (is_news_from url) (db_posts w) = Some existing ->
          w' = with_trace w
                 (trace w ++ [PostFindOne url true;
                              Console (LogAlreadyExists (Article.title article))]))
    /\ (find (is_news_from url) (db_posts w) = None ->
        missing_content article = true ->
        w' = with_trace w
               (trace w ++ [PostFindOne url true; Console LogSkipping])).
Proof.
  intros url. rewrite articleLoopBody_run. cbv zeta. fold url.
  destruct (find (is_news_from url) (db_posts w)) as [existing|].
  { do 2 eexists. split; [reflexivity|]. split; [reflexivity|].
    split; [reflexivity | discriminate]. }
  destruct (missing_content article).
  { do 2 eexists. split; [reflexivity|]. split; [reflexivity|].
    split; [discriminate | reflexivity]. }
  destruct (model _ _) as [e|text].
  { do 2 eexists. split; [reflexivity|]. split; [reflexivity|].
    split; discriminate. }
  destruct (processedArticle toLowerCase newDate article text) as [processed|].
  2:{ do 2 eexists. split; [reflexivity|]. split; [reflexivity|].
      split; discriminate. }
  cbv zeta. destruct (validate _).
  2:{ do 2 eexists. split; [reflexivity|]. split; [reflexivity|].
      split; discriminate. }
  destruct (store _ _).
  all: do 2 eexists; (split; [reflexivity|]); (split; [reflexivity|]);
    split; discriminate.
Qed.

(** C7, as the code has it.  For a topic whose category is stored: if the
    call to the news source throws, the error is caught in the loop over the
    topics, [failed] is incremented once, the posts are unchanged and the loop
    goes on with the next topics (without the pause); if the source answers
    with no [articles] field or an empty list, the topic ends with the line
    that no article was found and the pause, the counters are unchanged (the
    topic is not counted as failed), and the loop goes on. *)
Theorem source_error_is_counted_and_empty_answer_is_not
    (adminUserId : ObjectId) (category : Topic) (dbCategory : Category)
    (rest : list Topic) (w : World) :
  let params := search_params category in
  let asked := trace w ++ [CategoryFindOne (name category)] in
  let body :=
    categoryLoopBody toLowerCase newDate newsApi model store adminUserId in
  find (fun c => str_eqb (category_name c) (name category)) (db_categories w)
  = Some dbCategory ->
  (forall e,
     newsApi asked params = SourceThrows e ->
     let w' :=
       with_trace
         (with_processedCount w
            {| success := success (processedCount w);
               failed := failed (processedCount w) + 1 |})
         (asked ++ [NewsEverything params;
                    Console (ErrCategory (name category) e);
                    Console (ErrTopic (name category) e)]) in
     body category w = (Return tt, w')
     /\ forOf (category :: rest) body w = forOf rest body w')
  /\ (forall articles,
        newsApi asked params = SourceResponds articles ->
        articles = None \/ articles = Some [] ->
        let w' :=
          with_trace w
            (asked ++ [NewsEverything params;
                       Console (LogNoArticles (name category));
                       Delay 2000]) in
        body category w = (Return tt, w')
        /\ forOf (category :: rest) body w = forOf rest body w').
Proof.
  intros params asked body Hcat.
  assert (Hloop : forall w', body category w = (Return tt, w') ->
            forOf (category :: rest) body w = forOf rest body w').
  { intros w' Hb. cbn [forOf]. unfold bind at 1. now rewrite Hb. }
  split.
  - intros e Hsrc w'.
    assert (Hb : body category w = (Return tt, w')).
    { subst body w'. unfold categoryLoopBody.
      unfold try_catch at 1. unfold bind at 1.
      rewrite processCategoryNews_run. cbv zeta. rewrite Hcat.
      fold asked params. rewrite Hsrc.
      unfold_async. subst asked. run_step. reflexivity. }
    split; [exact Hb | exact (Hloop _ Hb)].
  - intros articles Hsrc Hnone w'.
    assert (Hb : body category w = (Return tt, w')).
    { subst body w'. unfold categoryLoopBody.
      unfold try_catch at 1. unfold bind at 1.
      rewrite processCategoryNews_run. cbv zeta. rewrite Hcat.
      fold asked params. rewrite Hsrc.
      destruct Hnone as [-> | ->]; unfold_async; subst asked; run_step;
        reflexivity. }
    split; [exact Hb | exact (Hloop _ Hb)].
Qed.

(** C8.  [generateTags] never throws.  Every tag it returns is a trimmed,
    lower-cased piece of the model's answer and has between 1 and 20 code
    units; when the model call throws, the result is the empty list. *)
Theorem generated_tags_are_short_and_never_throw (content : jsstring)
    (w : World) :
  exists tags w',
    generateTags toLowerCase model content w = (Return tags, w')
    /\ Forall (fun tag => 0 < length tag <= 20
                          /\ exists piece, tag = toLowerCase (trim piece))
         tags
    /\ (forall e,
          model (trace w) (tags_prompt content) = ModelThrows e -> tags = [])
    /\ (forall text,
          model (trace w) (tags_prompt content) = ModelText text ->
          tags = filter (fun tag => (0 <? length tag) && (length tag <=? 20))
                   (map (fun tag => toLowerCase (trim tag))
                      (split 44 (trim text)))).
Proof.
  unfold generateTags, generateContent. unfold_async.
  destruct (model (trace w) (tags_prompt content)) as [e|text].
  - do 2 eexists. split; [reflexivity|]. split; [constructor|].
    split; [reflexivity | discriminate].
  - do 2 eexists. split; [reflexivity|]. split; [|split; [discriminate|]].
    + apply Forall_forall. intros tag Hin.
      apply filter_In in Hin. destruct Hin as [Hin Hlen].
      apply andb_true_iff in Hlen. destruct Hlen as [Hpos Hle].
      apply Nat.ltb_lt in Hpos. apply Nat.leb_le in Hle.
      apply in_map_iff in Hin. destruct Hin as [piece [Hpiece _]].
      split; [lia | now exists piece].
    + now intros text' [= <-].
Qed.

(** C10, as the code has it.  When the title pattern and the summary pattern
    both match the answer (each marker is followed by a space and at least
    one more code unit, which for the title is not a line terminator), the
    rewrite succeeds.  If [TAGS:] does not occur, the tag list is empty.  If
    the tags pattern matches, the tags are the comma-split pieces of its
    line, each trimmed and lower-cased, all of them kept: an empty piece
    gives the tag [toLowerCase('')]. *)
Theorem rewrite_tags_are_unfiltered (article : Article.t)
    (text title1 summary1 : jsstring) :
  titleMatch text = Some title1 ->
  summaryMatch text = Some summary1 ->
  exists processed,
    processedArticle toLowerCase newDate article text = Some processed
    /\ (includes text (js "TAGS:") = false ->
        ProcessedArticle.tags processed = [])
    /\ (forall line,
          tagsMatch text = Some line ->
          ProcessedArticle.tags processed
          = map (fun tag => toLowerCase (trim tag)) (split 44 line)
          /\ length (ProcessedArticle.tags processed) = length (split 44 line)
          /\ (In [] (split 44 line) ->
              In (toLowerCase []) (ProcessedArticle.tags processed))).
Proof.
  intros Ht Hs. unfold processedArticle. rewrite Ht, Hs.
  eexists. split; [reflexivity|]. cbn [ProcessedArticle.tags]. split.
  - intros Habsent. now rewrite (tagsMatch_absent text Habsent).
  - intros line ->. split; [reflexivity|]. split; [apply length_map|].
    intros Hin.
    apply (in_map (fun tag => toLowerCase (trim tag))) in Hin. exact Hin.
Qed.

(** C2.  Every save recomputes [engagement].  Whether a new document is
    inserted or a loaded document is written back, when the save succeeds the
    document stored is the post given to it with [engagement] replaced by
    [likes*3 + comments*5 + shares*7 + views*0.1], computed in binary64 from
    the numbers of likes and comments and from the two counters as the hook
    reads them ([x || 0]), whatever [engagement] was before.  A counter that
    is a Number other than NaN and the negative zero is read as itself, one
    that is [null] as 0.  The formula gives 12 for 2 likes, 1 comment, 0
    shares and 10 views. *)
Theorem engagement_is_recomputed_on_save (post : Post.t) :
  let score :=
    engagement_formula (length (Post.likes post))
      (length (Post.comments post)) (or_zero (Post.shares post))
      (or_zero (Post.views post)) in
  (forall w stored w',
     Post_save store post w = (Return stored, w') ->
     stored = Post.with_engagement post score
     /\ db_posts w' = db_posts w ++ [stored])
  /\ (forall n s stored s',
        Document_save update n post s = (Done stored, s') ->
        stored = Post.with_engagement post score
        /\ db_posts (state s') = replace n stored (db_posts (state s)))
  /\ (forall shares views,
        Post.shares post = Some shares -> Post.views post = Some views ->
        plain_number shares -> plain_number views ->
        score = engagement_formula (length (Post.likes post))
                  (length (Post.comments post)) shares views)
  /\ or_zero None = 0%float
  /\ engagement_formula 2 1 0 10 = 12%float.
Proof.
  cbv zeta. split; [|split; [|split; [|split; reflexivity]]].
  - intros w stored w'. unfold Post_save.
    destruct (validate post); [|discriminate].
    destruct (store (trace w) (pre_save post)); [discriminate|].
    intros [= <- <-]. split; reflexivity.
  - intros n s stored s'. unfold Document_save.
    destruct (validate post); [|discriminate].
    destruct (update (journal s) n (pre_save post)); [discriminate|].
    intros [= <- <-]. split; reflexivity.
  - intros shares views Hs Hv [Hsn Hsz] [Hvn Hvz].
    unfold or_zero. rewrite Hs, Hv, Hsn, Hvn. cbn [orb].
    destruct (PrimFloat.is_zero shares); [rewrite (Hsz eq_refl)|];
      (destruct (PrimFloat.is_zero views); [rewrite (Hvz eq_refl)|]);
      reflexivity.
Qed.

End Claims.

(* ===================================================================== *)
(** ** Concrete runs *)
(* ===================================================================== *)

Import Sample.

Lemma plain_number_0 : plain_number 0%float.
Proof. split; [reflexivity | intros _; reflexivity]. Qed.

Lemma plain_number_10 : plain_number 10%float.
Proof. split; [reflexivity | intros H; vm_compute in H; discriminate H]. Qed.

(** C1 at work: the store already holds the post made from [article]; a
    second invocation with the same source leaves one post from its URL. *)
Lemma stored_article_is_not_ingested_again_witness :
  count_source (Article.url article)
    (db_posts
       (snd (fetchAndProcessNews asciiLower sampleDate users_ok (source_of article)
               (model_says answer_complete) store_ok world_after_ingestion)))
  = 1.
Proof.
  assert (Hstored :
            existsb (is_news_from (Article.url article))
              (db_posts world_after_ingestion) = true)
    by (vm_compute; reflexivity).
  destruct (stored_article_is_not_ingested_again asciiLower sampleDate users_ok
              (source_of article) (model_says answer_complete) store_ok
              world_after_ingestion (Article.url article) Hstored)
    as [Hcount _].
  rewrite Hcount. vm_compute. reflexivity.
Defined.

(** C2 at work: two likes, one comment, no share, ten views give 12, when
    the post is inserted and when it is written back after a change. *)
Lemma engagement_is_recomputed_on_save_witness :
  (exists stored w',
     Post_save store_ok liked_post world = (Return stored, w')
     /\ Post.engagement stored = 12%float)
  /\ (exists stored s',
        Document_save Desk.update_ok 0
          (Post.with_engagement liked_post 99) Desk.server
        = (Done stored, s')
        /\ Post.engagement stored = 12%float).
Proof.
  split.
  - destruct (Post_save store_ok liked_post world) as [[stored|e] w'] eqn:E;
      [|vm_compute in E; discriminate E].
    exists stored, w'. split; [reflexivity|].
    destruct (engagement_is_recomputed_on_save store_ok Desk.update_ok
                liked_post) as (Hinsert & _).
    destruct (Hinsert world stored w' E) as [-> _]. vm_compute. reflexivity.
  - destruct (Document_save Desk.update_ok 0
                (Post.with_engagement liked_post 99) Desk.server)
      as [[stored|e] s'] eqn:E; [|vm_compute in E; discriminate E].
    exists stored, s'. split; [reflexivity|].
    destruct (engagement_is_recomputed_on_save store_ok Desk.update_ok
                (Post.with_engagement liked_post 99)) as (_ & Hloaded & _).
    destruct (Hloaded 0 Desk.server stored s' E) as [-> _].
    vm_compute. reflexivity.
Defined.

(** C3 as stated fails: an admin user is stored, the admin query rejects,
    and its error reaches the caller. *)
Lemma rejected_admin_query_reaches_the_caller :
  find is_admin (db_users world) = Some admin
  /\ fetchAndProcessNews asciiLower sampleDate users_down (source_of article)
       (model_says answer_complete) store_ok world
     = (Throw (Failure 500),
        with_trace world
          [Console LogStarting; UserFindOne role_admin;
           Console (ErrFetchAndProcess (Failure 500))]).
Proof. split; vm_compute; reflexivity. Qed.

(** C4 at work: the answer has no [SUMMARY:] marker. *)
Lemma malformed_rewrite_is_not_persisted_witness :
  includes answer_without_summary (js "SUMMARY:") = false
  /\ processedCount
       (snd (articleLoopBody asciiLower sampleDate (model_says answer_without_summary)
               store_ok technology technology_record 1%N article world))
     = {| success := 0; failed := 1 |}
  /\ db_posts
       (snd (articleLoopBody asciiLower sampleDate (model_says answer_without_summary)
               store_ok technology technology_record 1%N article world))
     = [].
Proof.
  split; [vm_compute; reflexivity|].
  destruct (@malformed_rewrite_is_not_persisted asciiLower sampleDate
              (model_says answer_without_summary) store_ok technology
              technology_record 1%N article [] answer_without_summary world
              (or_intror eq_refl) eq_refl eq_refl eq_refl)
    as (_ & Hbody & _ & _).
  rewrite Hbody. split; reflexivity.
Defined.

(** C5 at work: a title of 300 code units is cut to 200. *)
Lemma rewritten_title_at_most_200_witness :
  match processWithAI asciiLower sampleDate (model_says answer_long_title) article
          (js "Technology") world with
  | (Return (Some processed), _) =>
      length (ProcessedArticle.title processed) <= 200
  | _ => False
  end.
Proof.
  destruct (processWithAI asciiLower sampleDate (model_says answer_long_title) article
              (js "Technology") world) as [[[processed|]|e] w'] eqn:E.
  - exact (@rewritten_title_at_most_200 asciiLower sampleDate
             (model_says answer_long_title) article (js "Technology") world w'
             processed E).
  - vm_compute in E. discriminate E.
  - vm_compute in E. discriminate E.
Defined.

(** C6 as stated fails: for a placeholder article the Post Store is queried
    first, and only then is the article rejected for its content. *)
Lemma placeholder_article_is_looked_up_first :
  missing_content removed_article = true
  /\ articleLoopBody asciiLower sampleDate (model_says answer_complete) store_ok
       technology technology_record 1%N removed_article world
     = (Return tt,
        with_trace world
          [PostFindOne (js "https://removed.com") true; Console LogSkipping]).
Proof. split; vm_compute; reflexivity. Qed.

(** C7 at work: the news source is down for the Technology topic. *)
Lemma source_error_is_counted_and_empty_answer_is_not_witness :
  processedCount
    (snd (categoryLoopBody asciiLower sampleDate source_down (model_says answer_complete)
            store_ok 1%N technology world))
  = {| success := 0; failed := 1 |}.
Proof.
  destruct (@source_error_is_counted_and_empty_answer_is_not asciiLower sampleDate
              source_down (model_says answer_complete) store_ok 1%N technology
              technology_record [] world eq_refl)
    as [Hthrows _].
  destruct (Hthrows (Failure 503) eq_refl) as [Hbody _].
  rewrite Hbody. reflexivity.
Defined.

(** C7 as stated fails: when the source returns zero articles for every
    topic, no topic is counted as failed. *)
Lemma empty_answer_is_not_counted_as_failed :
  source_empty [] (search_params technology) = SourceResponds (Some [])
  /\ fst (fetchAndProcessNews asciiLower sampleDate users_ok source_empty
            (model_says answer_complete) store_ok world)
     = Return {| success := 0; failed := 0 |}.
Proof. split; vm_compute; reflexivity. Qed.

(** C10 at work: an empty piece between two commas is kept as a tag. *)
Lemma rewrite_tags_are_unfiltered_witness :
  exists processed,
    processedArticle asciiLower sampleDate article answer_empty_tag = Some processed
    /\ ProcessedArticle.tags processed = [js "chips"; js ""; js "hardware"].
Proof.
  destruct (@rewrite_tags_are_unfiltered asciiLower sampleDate article answer_empty_tag
              (js "New processor announced")
              (js "A chip maker presented its next processor.
")
              eq_refl eq_refl)
    as (processed & Hp & _ & Htags).
  exists processed. split; [exact Hp|].
  destruct (Htags (js "Chips,,Hardware") eq_refl) as [-> _].
  vm_compute. reflexivity.
Defined.

(** C10 as stated fails: the answer contains [TITLE:] and [SUMMARY:] and no
    [TAGS:], yet the rewrite returns nothing, because no title follows the
    title marker. *)
Lemma markers_present_but_rewrite_fails :
  includes answer_empty_title (js "TITLE:") = true
  /\ includes answer_empty_title (js "SUMMARY:") = true
  /\ includes answer_empty_title (js "TAGS:") = false
  /\ processedArticle asciiLower sampleDate article answer_empty_title = None.
Proof. repeat split; vm_compute; reflexivity. Qed.

(** *** The end-to-end scenarios of the specification *)

Example scenario_one_article_ingested :
  let r := fetchAndProcessNews asciiLower sampleDate users_ok (source_of article)
             (model_says answer_complete) store_ok world in
  fst r = Return {| success := 1; failed := 0 |}
  /\ map (fun p => (Post.isNews p, Post.categories p, Post.type p))
       (db_posts (snd r))
     = [(true, [101%N], type_news)].
Proof. split; vm_compute; reflexivity. Qed.

Example scenario_summary_omitted :
  let r := fetchAndProcessNews asciiLower sampleDate users_ok (source_of article)
             (model_says answer_without_summary) store_ok world in
  fst r = Return {| success := 0; failed := 1 |} /\ db_posts (snd r) = [].
Proof. split; vm_compute; reflexivity. Qed.

Example scenario_admin_absent :
  fetchAndProcessNews asciiLower sampleDate users_ok (source_of article)
    (model_says answer_complete) store_ok world_without_admin
  = (Throw (Error (js "Admin user not found")),
     with_trace world_without_admin
       [Console LogStarting; UserFindOne role_admin;
        Console (ErrFetchAndProcess (Error (js "Admin user not found")))]).
Proof. vm_compute. reflexivity. Qed.

Example scenario_article_with_image :
  map Post.type
    (db_posts
       (snd (fetchAndProcessNews asciiLower sampleDate users_ok (source_of article_with_image)
               (model_says answer_complete) store_ok world)))
  = [type_image].
Proof. vm_compute. reflexivity. Qed.

Example scenario_source_down :
  fst (fetchAndProcessNews asciiLower sampleDate users_ok source_down (model_says answer_complete)
         store_ok world)
  = Return {| success := 0; failed := 8 |}.
Proof. vm_compute. reflexivity. Qed.

Example generateTags_example :
  fst (generateTags asciiLower
         (model_says (js " AI, Machine Learning ,, averyveryveryverylongtagname ,x"))
         (js "body") world)
  = Return [js "ai"; js "machine learning"; js "x"].
Proof. vm_compute. reflexivity. Qed.

Example generateTags_model_down :
  fst (generateTags asciiLower model_down (js "body") world) = Return [].
Proof. vm_compute. reflexivity. Qed.

Example split_example :
  split 44 (js "a,,b,") = [js "a"; js ""; js "b"; js ""].
Proof. reflexivity. Qed.

(* ===================================================================== *)
(** ** Further properties of the rewriter *)
(* ===================================================================== *)

Lemma takeWhile_Forall (f : N -> bool) (s : jsstring) :
  Forall (fun c => f c = true) (takeWhile f s).
Proof.
  induction s as [|c s IH]; cbn; [constructor|].
  destruct (f c) eqn:E; constructor; assumption.
Qed.

Lemma dropWhile_Forall (P : N -> Prop) (f : N -> bool) (s : jsstring) :
  Forall P s -> Forall P (dropWhile f s).
Proof.
  induction 1 as [|c s Hc Hs IH]; cbn; [constructor|].
  destruct (f c); [exact IH | now constructor].
Qed.

(** [dropWhile] leaves a string that is empty or begins with a kept unit. *)
Lemma dropWhile_starts (s : jsstring) : starts_trimmed (dropWhile isTrimmed s).
Proof.
  induction s as [|c s IH]; cbn; [exact I|].
  destruct (isTrimmed c) eqn:E; [exact IH | exact E].
Qed.

(** What [dropWhile] removes is a prefix of stripped units. *)
Lemma dropWhile_split (f : N -> bool) (s : jsstring) :
  exists dropped,
    s = dropped ++ dropWhile f s /\ Forall (fun c => f c = true) dropped.
Proof.
  induction s as [|c s (dropped & Hs & Hd)]; cbn.
  - exists []. split; [reflexivity | constructor].
  - destruct (f c) eqn:E.
    + exists (c :: dropped). split; [cbn; now rewrite <- Hs | now constructor].
    + exists []. split; [reflexivity | constructor].
Qed.

Lemma trimEnd_ends (s : jsstring) : ends_trimmed (trimEnd s).
Proof.
  unfold ends_trimmed, trimEnd. rewrite rev_involutive. apply dropWhile_starts.
Qed.

Lemma trimEnd_starts (s : jsstring) :
  starts_trimmed s -> starts_trimmed (trimEnd s).
Proof.
  unfold trimEnd. intros Hs.
  destruct (dropWhile_split isTrimmed (rev s)) as (dropped & Hsplit & Hd).
  destruct s as [|c s]; [exact I|]. cbn [starts_trimmed] in Hs.
  assert (Hrev : c :: s = rev (dropWhile isTrimmed (rev (c :: s))) ++ rev dropped).
  { rewrite <- rev_app_distr, <- Hsplit. now rewrite rev_involutive. }
  destruct (rev (dropWhile isTrimmed (rev (c :: s)))) as [|c' kept].
  - cbn in Hrev. apply Forall_rev in Hd. rewrite <- Hrev in Hd.
    inversion Hd; subst. congruence.
  - cbn in Hrev. injection Hrev as <- _. exact Hs.
Qed.

(** [trim] leaves no white space or line terminator at either end. *)
Lemma trim_trimmed (s : jsstring) :
  starts_trimmed (trim s) /\ ends_trimmed (trim s).
Proof.
  unfold trim. split.
  - apply trimEnd_starts, dropWhile_starts.
  - apply trimEnd_ends.
Qed.

Lemma trim_Forall (P : N -> Prop) (s : jsstring) :
  Forall P s -> Forall P (trim s).
Proof.
  intros H. unfold trim, trimEnd, trimStart.
  apply Forall_rev, dropWhile_Forall, Forall_rev, dropWhile_Forall, H.
Qed.

Lemma substring_from_0 (s : jsstring) (n : nat) :
  substring s 0 n = firstn n s.
Proof.
  unfold substring. cbn [Nat.min].
  rewrite Nat.max_0_l, Nat.sub_0_r. cbn [skipn].
  destruct (Nat.le_ge_cases n (length s)) as [H|H].
  - now rewrite Nat.min_l.
  - rewrite Nat.min_r by assumption.
    now rewrite !firstn_all2 by lia.
Qed.

Lemma firstn_Forall (P : N -> Prop) (n : nat) (s : jsstring) :
  Forall P s -> Forall P (firstn n s).
Proof.
  intros H. revert n. induction H as [|c s Hc Hs IH]; intros [|n]; cbn;
    constructor; auto.
Qed.

Lemma firstn_starts (n : nat) (s : jsstring) :
  starts_trimmed s -> starts_trimmed (firstn n s).
Proof. destruct n, s; cbn; auto. Qed.

(** A match found by [leftmost] is a match at some position. *)
Lemma leftmost_at {A : Type} (f : jsstring -> option A) (text : jsstring)
    (x : A) :
  leftmost f text = Some x -> exists s, f s = Some x.
Proof.
  induction text as [|c text IH]; cbn.
  - destruct (f []) eqn:E; [|discriminate]. intros [= <-]. eauto.
  - destruct (f (c :: text)) eqn:E.
    + intros [= <-]. eauto.
    + exact IH.
Qed.

Lemma titleMatch_single_line (text title1 : jsstring) :
  titleMatch text = Some title1 -> single_line title1.
Proof.
  intros H. apply leftmost_at in H. destruct H as [s H].
  unfold literal_dotPlus in H. destruct (startsWith _ s); [|discriminate].
  unfold dotPlus in H.
  pose proof (takeWhile_Forall (fun c => negb (isLineTerminator c))
                (skipn (length (js "TITLE: ")) s)) as Hrun.
  destruct (takeWhile _ _) as [|c run]; [discriminate|].
  injection H as <-. unfold single_line.
  eapply Forall_impl; [|exact Hrun].
  cbn beta. intros a Ha. now apply negb_true_iff in Ha.
Qed.

Section Rewriter.

Variable toLowerCase : jsstring -> jsstring.
Variable newDate : option jsstring -> Date.

(** X1.  The title of a rewrite is a single line (it holds no line
    terminator) and does not begin with white space. *)
Theorem rewritten_title_is_one_line (article : Article.t) (text : jsstring)
    (processed : ProcessedArticle.t) :
  processedArticle toLowerCase newDate article text = Some processed ->
  single_line (ProcessedArticle.title processed)
  /\ starts_trimmed (ProcessedArticle.title processed).
Proof.
  unfold processedArticle.
  destruct (titleMatch text) as [title1|] eqn:Ht; [|discriminate].
  destruct (summaryMatch text); [|discriminate].
  intros [= <-]. cbn [ProcessedArticle.title]. rewrite substring_from_0.
  apply titleMatch_single_line in Ht. split.
  - apply firstn_Forall, trim_Forall, Ht.
  - apply firstn_starts, trim_trimmed.
Qed.

(** X2.  The content of a rewrite has no white space or line terminator at
    either end. *)
Theorem rewritten_content_is_trimmed (article : Article.t) (text : jsstring)
    (processed : ProcessedArticle.t) :
  processedArticle toLowerCase newDate article text = Some processed ->
  starts_trimmed (ProcessedArticle.content processed)
  /\ ends_trimmed (ProcessedArticle.content processed).
Proof.
  unfold processedArticle.
  destruct (titleMatch text); [|discriminate].
  destruct (summaryMatch text); [|discriminate].
  intros [= <-]. cbn [ProcessedArticle.content]. apply trim_trimmed.
Qed.

(** X3.  The validation of [save] accepts the post made from a rewrite
    exactly when its content is not empty and has at most 5000 code units
    and the [publishedAt] of the article makes a valid Date: the title (cut
    to 200) and the author never make the save fail. *)
Theorem rewrite_is_valid_iff_content_and_date_are (article : Article.t)
    (text : jsstring) (processed : ProcessedArticle.t)
    (categoryId adminUserId : ObjectId) :
  processedArticle toLowerCase newDate article text = Some processed ->
  validate (newPost processed categoryId adminUserId article) = true
  <-> (ProcessedArticle.content processed <> []
       /\ length (ProcessedArticle.content processed) <= 5000
       /\ newDate (Article.publishedAt article) <> InvalidDate).
Proof.
  intros Hp.
  pose proof (processedArticle_title_length toLowerCase newDate article text
                Hp) as Hlen.
  assert (Hdate : ProcessedArticle.publishedAt processed
                  = newDate (Article.publishedAt article)).
  { unfold processedArticle in Hp.
    destruct (titleMatch text); [|discriminate].
    destruct (summaryMatch text); [|discriminate].
    now injection Hp as <-. }
  unfold validate, newPost.
  cbn [Post.title Post.content Post.author Post.comments Post.publishedAt
       forallb].
  rewrite Hdate. apply Nat.leb_le in Hlen. rewrite Hlen. cbn [andb].
  rewrite !andb_true_r, andb_true_iff.
  destruct (newDate (Article.publishedAt article)) as [|time];
    destruct (ProcessedArticle.content processed) as [|c s].
  - split; [intros [H _]; discriminate H | intros [H _]; now elim H].
  - split; [intros [_ H]; discriminate H | intros (_ & _ & H); now elim H].
  - split; [intros [H _]; discriminate H | intros [H _]; now elim H].
  - split.
    + intros [H _]. apply Nat.leb_le in H.
      split; [discriminate|]. split; [exact H | discriminate].
    + intros (_ & H & _). split; [|reflexivity]. apply Nat.leb_le. exact H.
Qed.

End Rewriter.

(* ===================================================================== *)
(** ** Counting the effects of a computation *)
(* ===================================================================== *)

Lemma count_app (f : event -> bool) (a b : list event) :
  count f (a ++ b) = count f a + count f b.
Proof. unfold count. now rewrite filter_app, length_app. Qed.

Lemma emits_at_most_weaken {A : Type} (f : event -> bool) (n n' : nat)
    (m : Async A) :
  n <= n' -> emits_at_most f n m -> emits_at_most f n' m.
Proof.
  intros Hle Hm w. destruct (Hm w) as (evs & Ht & Hc).
  exists evs. split; [exact Ht | lia].
Qed.

Lemma emits_at_most_ret {A : Type} (f : event -> bool) (a : A) :
  emits_at_most f 0 (ret a).
Proof. intros w. exists []. cbn. now rewrite app_nil_r. Qed.

Lemma emits_at_most_emit (f : event -> bool) (ev : event) :
  emits_at_most f (if f ev then 1 else 0) (emit ev).
Proof.
  intros w. exists [ev]. split; [reflexivity|].
  unfold count. cbn. destruct (f ev); cbn; lia.
Qed.

Lemma emits_at_most_quiet (f : event -> bool) (ev : event) :
  f ev = false -> emits_at_most f 0 (emit ev).
Proof.
  intros H. pose proof (emits_at_most_emit f ev) as He. now rewrite H in He.
Qed.

Lemma emits_at_most_incr_failed (f : event -> bool) :
  emits_at_most f 0 incr_failed.
Proof. intros w. exists []. cbn. now rewrite app_nil_r. Qed.

Lemma emits_at_most_bind {A B : Type} (f : event -> bool) (n1 n2 : nat)
    (m : Async A) (k : A -> Async B) :
  emits_at_most f n1 m -> (forall a, emits_at_most f n2 (k a)) ->
  emits_at_most f (n1 + n2) (bind m k).
Proof.
  intros Hm Hk w. unfold bind. destruct (Hm w) as (e1 & Ht1 & Hc1).
  destruct (m w) as [[a|e] w1]; cbn [snd] in *.
  - destruct (Hk a w1) as (e2 & Ht2 & Hc2).
    exists (e1 ++ e2). split.
    + now rewrite Ht2, Ht1, app_assoc.
    + rewrite count_app. lia.
  - exists e1. split; [exact Ht1 | lia].
Qed.

Lemma emits_at_most_try_catch {A : Type} (f : event -> bool) (n1 n2 : nat)
    (m : Async A) (h : exn -> Async A) :
  emits_at_most f n1 m -> (forall e, emits_at_most f n2 (h e)) ->
  emits_at_most f (n1 + n2) (try_catch m h).
Proof.
  intros Hm Hh w. unfold try_catch. destruct (Hm w) as (e1 & Ht1 & Hc1).
  destruct (m w) as [[a|e] w1]; cbn [snd] in *.
  - exists e1. split; [exact Ht1 | lia].
  - destruct (Hh e w1) as (e2 & Ht2 & Hc2).
    exists (e1 ++ e2). split.
    + now rewrite Ht2, Ht1, app_assoc.
    + rewrite count_app. lia.
Qed.

Lemma emits_at_most_forOf {A : Type} (f : event -> bool) (k : nat)
    (l : list A) (body : A -> Async unit) :
  (forall x, emits_at_most f k (body x)) ->
  emits_at_most f (k * length l) (forOf l body).
Proof.
  intros Hb. induction l as [|x l IH]; cbn [forOf length].
  - rewrite Nat.mul_0_r. apply emits_at_most_ret.
  - apply (emits_at_most_weaken (n := k + k * length l)); [lia|].
    apply emits_at_most_bind; [apply Hb | intros _; exact IH].
Qed.

(** A computation run from a world whose trace is [t ++ pre]. *)
Lemma emits_at_most_from {A : Type} (f : event -> bool) (n : nat)
    (m : Async A) (w0 : World) (t pre : list event) :
  emits_at_most f n m ->
  trace w0 = t ++ pre ->
  exists evs,
    trace (snd (m w0)) = t ++ pre ++ evs /\ count f evs <= n.
Proof.
  intros Hm H0. destruct (Hm w0) as (evs & Ht & Hc).
  exists evs. split; [|exact Hc]. rewrite Ht, H0. now rewrite app_assoc.
Qed.

Lemma emits_exactly_bind {A B : Type} (f : event -> bool) (n1 n2 : nat)
    (m : Async A) (k : A -> Async B) :
  emits_exactly f n1 m -> (forall a, emits_exactly f n2 (k a)) ->
  emits_exactly f (n1 + n2) (bind m k).
Proof.
  intros Hm Hk w. unfold bind. destruct (Hm w) as (a & e1 & Hr & Ht1 & Hc1).
  destruct (m w) as [c w1]; cbn [fst snd] in *. subst c.
  destruct (Hk a w1) as (b & e2 & Hr2 & Ht2 & Hc2).
  exists b, (e1 ++ e2). split; [exact Hr2|]. split.
  - now rewrite Ht2, Ht1, app_assoc.
  - rewrite count_app. lia.
Qed.

Lemma emits_exactly_forOf {A : Type} (f : event -> bool) (k : nat)
    (l : list A) (body : A -> Async unit) :
  (forall x, emits_exactly f k (body x)) ->
  emits_exactly f (k * length l) (forOf l body).
Proof.
  intros Hb. induction l as [|x l IH]; cbn [forOf length].
  - rewrite Nat.mul_0_r. intros w. exists tt, []. cbn.
    now rewrite app_nil_r.
  - replace (k * S (length l)) with (k + k * length l) by lia.
    apply emits_exactly_bind; [apply Hb | intros _; exact IH].
Qed.

(** [forOf] with a body that is only known on the elements of the list. *)
Lemma steps_forOf_In (R : World -> World -> Prop) {A : Type} (l : list A)
    (body : A -> Async unit) :
  (forall w, R w w) -> (forall a b c, R a b -> R b c -> R a c) ->
  (forall x, In x l -> steps R (body x)) -> steps R (forOf l body).
Proof.
  intros Hrefl Htrans. induction l as [|x l IH]; intros Hb; cbn [forOf].
  - now apply steps_ret.
  - apply (steps_bind Htrans).
    + apply Hb. now left.
    + intros _. apply IH. intros y Hy. apply Hb. now right.
Qed.

Lemma Appends_refl (Q : event -> Prop) (w : World) : Appends Q w w.
Proof. exists []. split; [now rewrite app_nil_r | constructor]. Qed.

Lemma Appends_trans (Q : event -> Prop) (a b c : World) :
  Appends Q a b -> Appends Q b c -> Appends Q a c.
Proof.
  intros (e1 & H1 & Q1) (e2 & H2 & Q2). exists (e1 ++ e2). split.
  - now rewrite H2, H1, app_assoc.
  - apply Forall_app. now split.
Qed.

Lemma Appends_events (Q : event -> Prop) (w : World) (c : Counts)
    (evs : list event) :
  Forall Q evs ->
  Appends Q w (with_trace (with_processedCount w c) (trace w ++ evs)).
Proof. intros H. exists evs. split; [reflexivity | exact H]. Qed.

Lemma Counted_refl (w : World) : Counted w w.
Proof.
  exists []. rewrite app_nil_r. cbn. split; [reflexivity|]. split; lia.
Qed.

Lemma Counted_trans (a b c : World) : Counted a b -> Counted b c -> Counted a c.
Proof.
  intros (a1 & Hp1 & Hs1 & Hf1) (a2 & Hp2 & Hs2 & Hf2).
  exists (a1 ++ a2). split; [now rewrite Hp2, Hp1, app_assoc|].
  rewrite length_app. split; lia.
Qed.

Lemma Saved_refl (w : World) : Saved w w.
Proof. exists [], []. rewrite !app_nil_r. cbn. repeat split; lia. Qed.

Lemma Saved_trans (a b c : World) : Saved a b -> Saved b c -> Saved a c.
Proof.
  intros (a1 & e1 & Hp1 & Ht1 & Hc1) (a2 & e2 & Hp2 & Ht2 & Hc2).
  exists (a1 ++ a2), (e1 ++ e2).
  split; [now rewrite Hp2, Hp1, app_assoc|].
  split; [now rewrite Ht2, Ht1, app_assoc|].
  rewrite length_app, count_app. lia.
Qed.

Lemma Attributes_refl (adminUserId : ObjectId) (cats : list Category)
    (w : World) :
  Attributes adminUserId cats w w.
Proof.
  intros Hc. split; [exact Hc|]. exists []. now rewrite app_nil_r.
Qed.

Lemma Attributes_trans (adminUserId : ObjectId) (cats : list Category)
    (a b c : World) :
  Attributes adminUserId cats a b -> Attributes adminUserId cats b c ->
  Attributes adminUserId cats a c.
Proof.
  intros H1 H2 Hc. destruct (H1 Hc) as (Hb & a1 & Hp1 & Hf1).
  destruct (H2 Hb) as (Hcc & a2 & Hp2 & Hf2).
  split; [exact Hcc|]. exists (a1 ++ a2).
  split; [now rewrite Hp2, Hp1, app_assoc | apply Forall_app; now split].
Qed.

(* ===================================================================== *)
(** ** Further properties of the pipeline *)
(* ===================================================================== *)

Ltac count_events :=
  eexists; split; [cbn [snd trace with_trace with_posts]; reflexivity|];
  unfold count; cbn [filter is_source_call is_model_call is_save is_topic_end
                       length]; lia.

Section Accounting.

Variable toLowerCase : jsstring -> jsstring.
Variable newDate : option jsstring -> Date.
Variable userQuery : list event -> option exn.
Variable newsApi : list event -> SearchParams -> SourceResult.
Variable model : list event -> jsstring -> ModelResult.
Variable store : list event -> Post.t -> option exn.

Abbreviation articleBody := (articleLoopBody toLowerCase newDate model store).
Abbreviation categoryBody := (categoryLoopBody toLowerCase newDate newsApi model store).

(** The cases of one iteration of the article loop, as [articleLoopBody_run]
    lists them. *)
Ltac article_cases w :=
  rewrite articleLoopBody_run; cbv zeta;
  destruct (find _ (db_posts w)) eqn:Hfind;
  [| destruct (missing_content _) eqn:Hmissing;
     [| destruct (model _ _) as [e|text] eqn:Hmodel;
        [| destruct (processedArticle _ _ _ text) as [processed|] eqn:Hprocessed;
           [ cbv zeta; destruct (validate _) eqn:Hvalid;
             [ destruct (store _ _) as [e|] eqn:Hstore | ] | ] ] ] ].

Lemma articleLoopBody_source_calls (category : Topic) (dbCategory : Category)
    (adminUserId : ObjectId) (article : Article.t) :
  emits_at_most is_source_call 0
    (articleBody category dbCategory adminUserId article).
Proof. intros w. article_cases w; count_events. Qed.

Lemma articleLoopBody_topic_ends (category : Topic) (dbCategory : Category)
    (adminUserId : ObjectId) (article : Article.t) :
  emits_at_most is_topic_end 0
    (articleBody category dbCategory adminUserId article).
Proof. intros w. article_cases w; count_events. Qed.

Lemma articleLoopBody_model_calls (category : Topic) (dbCategory : Category)
    (adminUserId : ObjectId) (article : Article.t) :
  emits_at_most is_model_call 1
    (articleBody category dbCategory adminUserId article).
Proof. intros w. article_cases w; count_events. Qed.

Lemma articleLoopBody_saves (category : Topic) (dbCategory : Category)
    (adminUserId : ObjectId) (article : Article.t) :
  emits_at_most is_save 1
    (articleBody category dbCategory adminUserId article).
Proof. intros w. article_cases w; count_events. Qed.

Lemma articleLoopBody_Appends (category : Topic) (dbCategory : Category)
    (adminUserId : ObjectId) (article : Article.t) :
  steps (Appends as_configured)
    (articleBody category dbCategory adminUserId article).
Proof.
  intros w. article_cases w;
    (eexists; split;
     [cbn [snd trace with_trace with_posts]; reflexivity
     | repeat constructor]).
Qed.

Lemma articleLoopBody_Counted (category : Topic) (dbCategory : Category)
    (adminUserId : ObjectId) (article : Article.t) :
  steps Counted (articleBody category dbCategory adminUserId article).
Proof.
  intros w. article_cases w.
  5: { exists [pre_save
                 (newPost processed (category_id dbCategory) adminUserId
                    article)].
       cbn. repeat split; lia. }
  all: exists []; cbn; rewrite app_nil_r; repeat split; lia.
Qed.

Lemma articleLoopBody_Saved (category : Topic) (dbCategory : Category)
    (adminUserId : ObjectId) (article : Article.t) :
  steps Saved (articleBody category dbCategory adminUserId article).
Proof.
  intros w. article_cases w.
  5: { eexists [_], _. cbn [snd db_posts trace with_trace with_posts].
       repeat split. unfold count. cbn. lia. }
  all: eexists [], _; cbn [snd db_posts trace with_trace with_posts
                            with_processedCount];
    rewrite app_nil_r; repeat split; cbn; lia.
Qed.

Lemma attributed_newPost (adminUserId : ObjectId) (cats : list Category)
    (dbCategory : Category) (processed : ProcessedArticle.t)
    (article : Article.t) :
  topic_category cats dbCategory ->
  validate (newPost processed (category_id dbCategory) adminUserId article)
  = true ->
  attributed adminUserId cats
    (pre_save (newPost processed (category_id dbCategory) adminUserId article)).
Proof.
  intros Hcat Hvalid. unfold attributed.
  split; [reflexivity|].
  split; [exists dbCategory; split; [exact Hcat | reflexivity]|].
  do 4 (split; [reflexivity|]).
  exact Hvalid.
Qed.

Lemma articleLoopBody_Attributes (cats : list Category) (category : Topic)
    (dbCategory : Category) (adminUserId : ObjectId) (article : Article.t) :
  topic_category cats dbCategory ->
  steps (Attributes adminUserId cats)
    (articleBody category dbCategory adminUserId article).
Proof.
  intros Hcat w. article_cases w.
  5: { intros Hc. split; [exact Hc|]. eexists [_]. split; [reflexivity|].
       constructor; [now apply attributed_newPost | constructor]. }
  all: intros Hc; (split; [exact Hc|]); exists []; cbn; now rewrite app_nil_r.
Qed.

(** *** One topic *)

Lemma find_category_topic (w : World) (category : Topic) (dbCategory : Category) :
  In category this_categories ->
  find (fun c => str_eqb (category_name c) (name category)) (db_categories w)
  = Some dbCategory ->
  topic_category (db_categories w) dbCategory.
Proof.
  intros Hin Hfind. apply find_some in Hfind. destruct Hfind as [Hc Hname].
  split; [exact Hc|]. exists category. split; [exact Hin|].
  now apply str_eqb_eq.
Qed.

(** A relation that is kept by every step which only appends configured
    effects or counts a failure is kept by the loop over the topics, if the
    article loop keeps it. *)
Lemma categoryLoop_steps (R : World -> World -> Prop) (adminUserId : ObjectId) :
  (forall w, R w w) ->
  (forall a b c, R a b -> R b c -> R a c) ->
  (forall w evs, Forall as_configured evs ->
                 R w (with_trace w (trace w ++ evs))) ->
  (forall w, R w (snd (incr_failed w))) ->
  (forall category dbCategory article,
     steps R (articleBody category dbCategory adminUserId article)) ->
  steps R (forOf this_categories (categoryBody adminUserId)).
Proof.
  intros Hrefl Htrans Hframe Hfailed Hbody.
  assert (Hemit : forall ev, as_configured ev -> steps R (emit ev)).
  { intros ev Hev w. apply Hframe. now constructor. }
  apply steps_forOf_In; [exact Hrefl | exact Htrans |].
  intros category Hin. unfold categoryLoopBody.
  apply (steps_try_catch Htrans).
  - apply (steps_bind Htrans); [|intros _; apply Hemit; reflexivity].
    intros w. rewrite processCategoryNews_run. cbv zeta.
    assert (Hsearch : as_configured (NewsEverything (search_params category))).
    { exists category. now split. }
    destruct (find _ (db_categories w)) as [dbCategory|].
    2:{ cbn [snd]. rewrite <- app_assoc. apply Hframe. repeat constructor. }
    destruct (newsApi _ _) as [e|[[|article articles]|]]; cbn [snd].
    1,2,4: rewrite <- app_assoc; apply Hframe; repeat constructor; exact Hsearch.
    rewrite <- app_assoc.
    eapply Htrans;
      [|apply (steps_forOf Hrefl Htrans); intros x; apply Hbody].
    apply Hframe. cbn [app].
    constructor; [exact I|]. constructor; [exact Hsearch | constructor].
  - intros e. apply (steps_bind Htrans); [apply Hemit; exact I|].
    intros _ w. apply Hfailed.
Qed.

Lemma Appends_frame (w : World) (evs : list event) :
  Forall as_configured evs ->
  Appends as_configured w (with_trace w (trace w ++ evs)).
Proof. intros H. now exists evs. Qed.

Lemma Counted_frame (w : World) (t : list event) : Counted w (with_trace w t).
Proof. exists []. cbn. rewrite app_nil_r. repeat split; lia. Qed.

Lemma Saved_frame (w : World) (evs : list event) :
  Saved w (with_trace w (trace w ++ evs)).
Proof. exists [], evs. cbn. rewrite app_nil_r. repeat split; lia. Qed.

Lemma Saved_counters (w : World) (c : Counts) :
  Saved w (with_processedCount w c).
Proof. exists [], []. cbn. rewrite !app_nil_r. repeat split; lia. Qed.

Lemma Appends_counters (Q : event -> Prop) (w : World) (c : Counts) :
  Appends Q w (with_processedCount w c).
Proof. exists []. cbn. rewrite app_nil_r. split; [reflexivity | constructor]. Qed.

Lemma categoryLoop_Appends (adminUserId : ObjectId) :
  steps (Appends as_configured)
    (forOf this_categories (categoryBody adminUserId)).
Proof.
  apply categoryLoop_steps.
  - apply Appends_refl.
  - apply Appends_trans.
  - intros w evs. apply Appends_frame.
  - intros w. apply Appends_counters.
  - intros. apply articleLoopBody_Appends.
Qed.

Lemma categoryLoop_Counted (adminUserId : ObjectId) :
  steps Counted (forOf this_categories (categoryBody adminUserId)).
Proof.
  apply categoryLoop_steps.
  - apply Counted_refl.
  - apply Counted_trans.
  - intros w evs _. apply Counted_frame.
  - intros w. exists []. cbn. rewrite app_nil_r. repeat split; lia.
  - intros. apply articleLoopBody_Counted.
Qed.

Lemma categoryLoop_Saved (adminUserId : ObjectId) :
  steps Saved (forOf this_categories (categoryBody adminUserId)).
Proof.
  apply categoryLoop_steps.
  - apply Saved_refl.
  - apply Saved_trans.
  - intros w evs _. apply Saved_frame.
  - intros w. apply Saved_counters.
  - intros. apply articleLoopBody_Saved.
Qed.

(** [processCategoryNews] emits at most [s] effects of kind [f] for its
    search plus [b] for its articles, when [f] ignores its queries and lines. *)
Lemma processCategoryNews_emits (f : event -> bool) (k s b : nat)
    (category : Topic) (adminUserId : ObjectId) :
  (forall n, f (CategoryFindOne n) = false) ->
  (forall n, f (Console (LogCategoryNotFound n)) = false) ->
  (forall n e, f (Console (ErrCategory n e)) = false) ->
  (forall n, f (Console (LogNoArticles n)) = false) ->
  (forall p, count f [NewsEverything p] <= s) ->
  (forall dbCategory article,
     emits_at_most f k (articleBody category dbCategory adminUserId article)) ->
  (forall history articles,
     newsApi history (search_params category) = SourceResponds (Some articles) ->
     k * length articles <= b) ->
  emits_at_most f (s + b)
    (processCategoryNews toLowerCase newDate newsApi model store category adminUserId).
Proof.
  intros Hfind Hnotfound Herr Hnone Hsearch Hbody Hlen w.
  rewrite processCategoryNews_run. cbv zeta.
  pose proof (Hsearch (search_params category)) as Hs.
  unfold count in Hs. cbn [filter] in Hs.
  destruct (find _ (db_categories w)) as [dbCategory|].
  2:{ eexists. rewrite <- app_assoc. split; [reflexivity|].
      unfold count. cbn [app filter]. rewrite Hfind, Hnotfound. cbn. lia. }
  destruct (newsApi _ _) as [e|[[|article articles]|]] eqn:Hsrc.
  - eexists. rewrite <- app_assoc. split; [reflexivity|].
    unfold count. cbn [app filter]. rewrite Hfind, Herr.
    destruct (f (NewsEverything _)); cbn in *; lia.
  - eexists. rewrite <- app_assoc. split; [reflexivity|].
    unfold count. cbn [app filter]. rewrite Hfind, Hnone.
    destruct (f (NewsEverything _)); cbn in *; lia.
  - destruct (@emits_at_most_from _ f (k * length (article :: articles))
                (forOf (article :: articles)
                   (articleBody category dbCategory adminUserId))
                (with_trace w
                   ((trace w ++ [CategoryFindOne (name category)])
                    ++ [NewsEverything (search_params category)]))
                (trace w)
                [CategoryFindOne (name category);
                 NewsEverything (search_params category)])
      as (evs & Ht & Hc).
    + apply emits_at_most_forOf. intros x. apply Hbody.
    + cbn [trace with_trace]. now rewrite <- app_assoc.
    + eexists. split; [exact Ht|].
      rewrite count_app. unfold count at 1. cbn [filter]. rewrite Hfind.
      specialize (Hlen _ _ Hsrc).
      destruct (f (NewsEverything _)); cbn in *; lia.
  - eexists. rewrite <- app_assoc. split; [reflexivity|].
    unfold count. cbn [app filter]. rewrite Hfind, Hnone.
    destruct (f (NewsEverything _)); cbn in *; lia.
Qed.

Lemma categoryLoopBody_emits (f : event -> bool) (n : nat)
    (adminUserId : ObjectId) (category : Topic) :
  f (Delay 2000) = false ->
  (forall t e, f (Console (ErrTopic t e)) = false) ->
  emits_at_most f n
    (processCategoryNews toLowerCase newDate newsApi model store category adminUserId) ->
  emits_at_most f n (categoryBody adminUserId category).
Proof.
  intros Hdelay Htopic Hp. unfold categoryLoopBody.
  apply (emits_at_most_weaken (n := (n + 0) + (0 + 0))); [lia|].
  apply emits_at_most_try_catch.
  - apply emits_at_most_bind; [exact Hp|].
    intros _. now apply emits_at_most_quiet.
  - intros e. apply emits_at_most_bind.
    + apply emits_at_most_quiet. apply Htopic.
    + intros _. apply emits_at_most_incr_failed.
Qed.

(** Each topic ends with the pause or with the line that it failed, never
    with both. *)
Lemma categoryLoopBody_topic_end (adminUserId : ObjectId) (category : Topic) :
  emits_exactly is_topic_end 1 (categoryBody adminUserId category).
Proof.
  intros w. unfold categoryLoopBody, try_catch, bind.
  destruct (@processCategoryNews_emits is_topic_end 0 0 0 category adminUserId)
    with (w := w) as (evs & Ht & Hc); try reflexivity.
  - intros. apply articleLoopBody_topic_ends.
  - destruct (processCategoryNews _ _ _ _ _ _ _ w) as [[[]|e] w1];
      cbn [snd] in Ht.
    + exists tt. eexists. split; [reflexivity|].
      unfold delay, emit. cbn [snd trace with_trace]. rewrite Ht.
      rewrite <- app_assoc. split; [reflexivity|].
      rewrite count_app. cbn. lia.
    + exists tt. eexists. split; [reflexivity|].
      unfold console_error, emit, incr_failed.
      cbn [snd trace with_trace with_processedCount]. rewrite Ht.
      rewrite <- app_assoc. split; [reflexivity|].
      rewrite count_app. cbn. lia.
Qed.

Lemma categoryLoop_Attributes (adminUserId : ObjectId) (cats : list Category) :
  steps (Attributes adminUserId cats)
    (forOf this_categories (categoryBody adminUserId)).
Proof.
  pose proof (@Attributes_trans adminUserId cats) as Htrans.
  assert (Hframe : forall w t, Attributes adminUserId cats w (with_trace w t)).
  { intros w t Hc. split; [exact Hc|]. exists []. cbn. now rewrite app_nil_r. }
  apply steps_forOf_In; [apply Attributes_refl | exact Htrans |].
  intros category Hin. unfold categoryLoopBody.
  apply (steps_try_catch Htrans).
  - apply (steps_bind Htrans); [|intros _ w; apply Hframe].
    intros w. rewrite processCategoryNews_run. cbv zeta.
    destruct (find _ (db_categories w)) as [dbCategory|] eqn:Hfind;
      [|apply Hframe].
    destruct (newsApi _ _) as [e|[[|article articles]|]]; try apply Hframe.
    intros Hc. subst cats.
    eapply Htrans; [apply Hframe | | reflexivity].
    apply (steps_forOf (@Attributes_refl adminUserId (db_categories w)) Htrans).
    intros x. apply articleLoopBody_Attributes.
    now apply find_category_topic with (category := category).
  - intros e. apply (steps_bind Htrans); [intros w; apply Hframe|].
    intros _ w Hc. split; [exact Hc|]. exists []. cbn. now rewrite app_nil_r.
Qed.

(** *** The whole invocation *)

Abbreviation pipeline := (fetchAndProcessNews toLowerCase newDate userQuery newsApi model store).

Lemma pipeline_with_admin (w : World) (adminUser : User) :
  admin_lookup userQuery w = inr (Some adminUser) ->
  let done :=
    snd (forOf this_categories (categoryBody (user_id adminUser)) (started w)) in
  pipeline w
  = (Return (processedCount done),
     with_trace done
       (trace done ++ [Console (LogCompleted (processedCount done))])).
Proof. intros Hadmin. rewrite fetchAndProcessNews_run, Hadmin. reflexivity. Qed.

(** An invocation reaches the loop over the topics, or it is aborted before
    it with the error it throws. *)
Lemma pipeline_cases (w : World) :
  (exists adminUser, admin_lookup userQuery w = inr (Some adminUser))
  \/ (exists e, pipeline w = (Throw e, aborted w e)).
Proof.
  rewrite fetchAndProcessNews_run.
  destruct (admin_lookup userQuery w) as [e|[adminUser|]]; eauto.
Qed.

Lemma admin_lookup_found (w : World) (adminUser : User) :
  admin_lookup userQuery w = inr (Some adminUser) ->
  find is_admin (db_users w) = Some adminUser.
Proof.
  unfold admin_lookup. destruct (userQuery _); [discriminate|]. congruence.
Qed.

(** X4.  When an invocation returns, the [success] count it reports is the
    number of posts it appended to the store (and the counts returned are
    those left in [processedCount]). *)
Theorem success_counts_the_new_posts (w w' : World) (counts : Counts) :
  pipeline w = (Return counts, w') ->
  exists added,
    db_posts w' = db_posts w ++ added
    /\ success counts = N.of_nat (length added)
    /\ processedCount w' = counts.
Proof.
  destruct (pipeline_cases w) as [[adminUser Hadmin] | [e Hrun]].
  - rewrite (pipeline_with_admin w Hadmin). cbv zeta. intros [= <- <-].
    destruct (categoryLoop_Counted (user_id adminUser) (started w))
      as (added & Hposts & Hsuccess & _).
    exists added. split; [exact Hposts|]. split; [exact Hsuccess | reflexivity].
  - rewrite Hrun. discriminate.
Qed.

(** X5.  Every post an invocation appends is owned by the admin user the
    pipeline found, is filed under exactly one category, a stored one that
    bears a topic's name, is active, has no like and no comment, has
    engagement 0 and satisfies the declared validators. *)
Theorem ingested_posts_are_attributed (w : World) (adminUser : User) :
  find is_admin (db_users w) = Some adminUser ->
  exists added,
    db_posts (snd (pipeline w)) = db_posts w ++ added
    /\ Forall (attributed (user_id adminUser) (db_categories w)) added.
Proof.
  intros Hfound.
  destruct (pipeline_cases w) as [[found Hadmin] | [e Hrun]].
  - assert (found = adminUser) as ->.
    { apply admin_lookup_found in Hadmin. congruence. }
    rewrite (pipeline_with_admin w Hadmin). cbv zeta.
    destruct (@categoryLoop_Attributes (user_id adminUser) (db_categories w)
                (started w) eq_refl) as (_ & added & Hposts & Hall).
    exists added. split; [exact Hposts | exact Hall].
  - rewrite Hrun. exists []. cbn [snd aborted db_posts with_trace].
    split; [now rewrite app_nil_r | constructor].
Qed.

(** The effects of the loop over the topics, with a bound and a shape. *)
Lemma categoryLoop_events (f : event -> bool) (n : nat) (adminUserId : ObjectId)
    (w0 : World) :
  emits_at_most f n (forOf this_categories (categoryBody adminUserId)) ->
  exists evs,
    trace (snd (forOf this_categories (categoryBody adminUserId) w0))
    = trace w0 ++ evs
    /\ count f evs <= n
    /\ Forall as_configured evs.
Proof.
  intros Hn. destruct (Hn w0) as (evs & Ht & Hc).
  destruct (categoryLoop_Appends adminUserId w0) as (evs' & Ht' & Hall).
  rewrite Ht in Ht'. apply app_inv_head in Ht'. subst evs'.
  exists evs. auto.
Qed.

Lemma categoryLoop_source_calls (adminUserId : ObjectId) :
  emits_at_most is_source_call 8
    (forOf this_categories (categoryBody adminUserId)).
Proof.
  apply (@emits_at_most_forOf _ is_source_call 1 this_categories).
  intros category. apply categoryLoopBody_emits; try reflexivity.
  apply (@processCategoryNews_emits is_source_call 0 1 0); try reflexivity.
  - intros. apply articleLoopBody_source_calls.
Qed.

(** X6.  An invocation calls the news source at most eight times, each time
    with the search of one of the topics (English, page size 5, newest
    first, the topic's keywords joined by OR), and every pause it makes lasts
    2000 ms. *)
Theorem source_is_called_at_most_eight_times (w : World) :
  exists evs,
    trace (snd (pipeline w)) = trace w ++ evs
    /\ count is_source_call evs <= 8
    /\ Forall as_configured evs.
Proof.
  destruct (pipeline_cases w) as [[adminUser Hadmin] | [e Hrun]].
  - rewrite (pipeline_with_admin w Hadmin). cbv zeta.
    destruct (@categoryLoop_events is_source_call 8 (user_id adminUser)
                (started w) (categoryLoop_source_calls _))
      as (evs & Ht & Hc & Hall).
    eexists. cbn [snd trace with_trace]. rewrite Ht.
    cbn [started trace with_trace with_processedCount].
    rewrite <- !app_assoc. split; [reflexivity|]. split.
    + rewrite !count_app. unfold count at 1 3. cbn. lia.
    + apply Forall_app. split; [repeat constructor|].
      apply Forall_app. split; [exact Hall | repeat constructor].
  - rewrite Hrun. eexists.
    split; [reflexivity|]. split; [unfold count; cbn; lia | repeat constructor].
Qed.

Lemma honoured_length (category : Topic) (history : list event)
    (articles : list Article.t) :
  honours_pageSize newsApi ->
  newsApi history (search_params category) = SourceResponds (Some articles) ->
  1 * length articles <= 5.
Proof.
  intros Hh Hsrc. apply Hh in Hsrc.
  change (pageSize (search_params category)) with 5%N in Hsrc. lia.
Qed.

Lemma categoryLoop_model_calls (adminUserId : ObjectId) :
  honours_pageSize newsApi ->
  emits_at_most is_model_call 40
    (forOf this_categories (categoryBody adminUserId)).
Proof.
  intros Hh.
  apply (@emits_at_most_forOf _ is_model_call 5 this_categories).
  intros category. apply categoryLoopBody_emits; try reflexivity.
  apply (@processCategoryNews_emits is_model_call 1 0 5); try reflexivity.
  - intros. apply articleLoopBody_model_calls.
  - intros. now apply honoured_length with (category := category)
                                           (history := history).
Qed.

Lemma categoryLoop_saves (adminUserId : ObjectId) :
  honours_pageSize newsApi ->
  emits_at_most is_save 40
    (forOf this_categories (categoryBody adminUserId)).
Proof.
  intros Hh.
  apply (@emits_at_most_forOf _ is_save 5 this_categories).
  intros category. apply categoryLoopBody_emits; try reflexivity.
  apply (@processCategoryNews_emits is_save 1 0 5); try reflexivity.
  - intros. apply articleLoopBody_saves.
  - intros. now apply honoured_length with (category := category)
                                           (history := history).
Qed.

(** X7.  If the news source never returns more articles than the page size
    asked for, an invocation calls the model at most 40 times, attempts at
    most 40 saves and appends at most 40 posts. *)
Theorem invocation_is_bounded (w : World) :
  honours_pageSize newsApi ->
  exists evs added,
    trace (snd (pipeline w)) = trace w ++ evs
    /\ db_posts (snd (pipeline w)) = db_posts w ++ added
    /\ count is_model_call evs <= 40
    /\ count is_save evs <= 40
    /\ length added <= 40.
Proof.
  intros Hh.
  destruct (pipeline_cases w) as [[adminUser Hadmin] | [e Hrun]].
  - rewrite (pipeline_with_admin w Hadmin). cbv zeta.
    destruct (categoryLoop_model_calls (user_id adminUser) Hh (started w))
      as (evs & Ht & Hmodel).
    destruct (categoryLoop_saves (user_id adminUser) Hh (started w))
      as (evs' & Ht' & Hsave).
    rewrite Ht in Ht'. apply app_inv_head in Ht'. subst evs'.
    destruct (categoryLoop_Saved (user_id adminUser) (started w))
      as (added & evs' & Hposts & Ht' & Hadded).
    rewrite Ht in Ht'. apply app_inv_head in Ht'. subst evs'.
    eexists. exists added. cbn [snd trace db_posts with_trace]. rewrite Ht.
    cbn [started trace with_trace with_processedCount].
    rewrite <- !app_assoc. split; [reflexivity|].
    split; [exact Hposts|].
    rewrite !count_app. unfold count at 1 3 4 6. cbn. lia.
  - rewrite Hrun. eexists. exists [].
    cbn [snd aborted trace db_posts with_trace].
    split; [reflexivity|]. split; [now rewrite app_nil_r|].
    unfold count. cbn. lia.
Qed.

(** X8.  When the admin query resolves with a user, an invocation ends each
    of the eight topics in exactly one of two ways: the pause, or the line
    that the topic failed; so pauses and failed topics add up to eight. *)
Theorem every_topic_pauses_or_fails (w : World) (adminUser : User) :
  admin_lookup userQuery w = inr (Some adminUser) ->
  exists evs,
    trace (snd (pipeline w)) = trace w ++ evs /\ count is_topic_end evs = 8.
Proof.
  intros Hadmin. rewrite (pipeline_with_admin w Hadmin). cbv zeta.
  destruct (@emits_exactly_forOf _ is_topic_end 1 this_categories
              (categoryBody (user_id adminUser))
              (categoryLoopBody_topic_end (user_id adminUser)) (started w))
    as (u & evs & _ & Ht & Hc).
  eexists. cbn [snd trace with_trace]. rewrite Ht.
  cbn [started trace with_trace with_processedCount].
  rewrite <- !app_assoc. split; [reflexivity|].
  rewrite !count_app, Hc. unfold count. cbn. lia.
Qed.

(** *** The type of the posts an invocation appends *)

Lemma Sourced_refl (w : World) : Sourced newsApi w w.
Proof. exists []. split; [now rewrite app_nil_r | constructor]. Qed.

Lemma Sourced_trans (a b c : World) :
  Sourced newsApi a b -> Sourced newsApi b c -> Sourced newsApi a c.
Proof.
  intros (a1 & Hp1 & Hf1) (a2 & Hp2 & Hf2). exists (a1 ++ a2).
  split; [now rewrite Hp2, Hp1, app_assoc | apply Forall_app; now split].
Qed.

Lemma Sourced_same_posts (w w' : World) :
  db_posts w' = db_posts w -> Sourced newsApi w w'.
Proof.
  intros H. exists []. split; [now rewrite app_nil_r | constructor].
Qed.

Lemma processedArticle_image (article : Article.t) (text : jsstring)
    (processed : ProcessedArticle.t) :
  processedArticle toLowerCase newDate article text = Some processed ->
  ProcessedArticle.image processed = Article.urlToImage article.
Proof.
  unfold processedArticle.
  destruct (titleMatch text); [|discriminate].
  destruct (summaryMatch text); [|discriminate].
  now intros [= <-].
Qed.

(** The post [createNewsPost] saves for a rewrite of [article] has the type
    the image of [article] gives it. *)
Lemma typed_from_newPost (processed : ProcessedArticle.t)
    (categoryId adminUserId : ObjectId) (article : Article.t) :
  ProcessedArticle.image processed = Article.urlToImage article ->
  typed_from article
    (pre_save (newPost processed categoryId adminUserId article)).
Proof.
  intros Himage. unfold typed_from, made_from.
  change (Post.image (pre_save (newPost processed categoryId adminUserId
                                  article)))
    with (ProcessedArticle.image processed).
  change (Post.type (pre_save (newPost processed categoryId adminUserId
                                 article)))
    with (if truthy (ProcessedArticle.image processed) then type_image
          else type_news).
  rewrite Himage. repeat split; reflexivity.
Qed.

(** One iteration of the article loop appends nothing, or the one post made
    from its article. *)
Lemma articleLoopBody_posts (category : Topic) (dbCategory : Category)
    (adminUserId : ObjectId) (article : Article.t) (w : World) :
  db_posts (snd (articleBody category dbCategory adminUserId article w))
  = db_posts w
  \/ exists p,
       db_posts (snd (articleBody category dbCategory adminUserId article w))
       = db_posts w ++ [p]
       /\ typed_from article p.
Proof.
  article_cases w.
  5: { right. eexists. split; [reflexivity|].
       apply typed_from_newPost. eapply processedArticle_image, Hprocessed. }
  all: left; reflexivity.
Qed.

Lemma articleLoopBody_Sourced (category : Topic) (dbCategory : Category)
    (adminUserId : ObjectId) (article : Article.t) :
  fetched newsApi article ->
  steps (Sourced newsApi)
    (articleBody category dbCategory adminUserId article).
Proof.
  intros Hfetched w.
  destruct (articleLoopBody_posts category dbCategory adminUserId article w)
    as [Hsame | (p & Hposts & Htyped)].
  - now apply Sourced_same_posts.
  - exists [p]. split; [exact Hposts|].
    constructor; [|constructor]. now exists article.
Qed.

Lemma categoryLoop_Sourced (adminUserId : ObjectId) :
  steps (Sourced newsApi) (forOf this_categories (categoryBody adminUserId)).
Proof.
  assert (Hframe : forall w t, Sourced newsApi w (with_trace w t)).
  { intros w t. now apply Sourced_same_posts. }
  apply steps_forOf_In; [apply Sourced_refl | apply Sourced_trans |].
  intros category Hin. unfold categoryLoopBody.
  apply (steps_try_catch Sourced_trans).
  - apply (steps_bind Sourced_trans); [|intros _ w; apply Hframe].
    intros w. rewrite processCategoryNews_run. cbv zeta.
    destruct (find _ (db_categories w)) as [dbCategory|]; [|apply Hframe].
    destruct (newsApi _ _) as [e|[[|article articles]|]] eqn:Hsrc;
      try apply Hframe.
    eapply Sourced_trans; [apply Hframe|].
    apply steps_forOf_In; [apply Sourced_refl | apply Sourced_trans |].
    intros x Hx. apply articleLoopBody_Sourced.
    exists (trace w ++ [CategoryFindOne (name category)]), category,
      (article :: articles).
    split; [exact Hin|]. split; [exact Hsrc | exact Hx].
  - intros e. apply (steps_bind Sourced_trans); [intros w; apply Hframe|].
    intros _ w. now apply Sourced_same_posts.
Qed.

(** C9.  The posts an invocation of the pipeline adds to the store are each
    made from an article that the news source returned for the search of a
    topic (they carry its URL, metadata and image), and have type ['image']
    when that article's [urlToImage] is a non-empty string and ['news']
    otherwise; none has type ['text'] or ['link'].  And one iteration of the
    article loop appends nothing, or one post, made from the article of the
    iteration and typed by the image of that article. *)
Theorem ingested_post_type_is_image_or_news (w : World) :
  (exists added,
     db_posts (snd (pipeline w)) = db_posts w ++ added
     /\ Forall
          (fun p =>
             (exists a,
                fetched newsApi a
                /\ made_from a p
                /\ Post.type p =
                     (if truthy (Article.urlToImage a)
                      then type_image else type_news))
             /\ Post.type p <> type_text
             /\ Post.type p <> type_link)
          added)
  /\ (forall category dbCategory adminUserId article w0,
        db_posts (snd (articleBody category dbCategory adminUserId article w0))
        = db_posts w0
        \/ exists p,
             db_posts
               (snd (articleBody category dbCategory adminUserId article w0))
             = db_posts w0 ++ [p]
             /\ made_from article p
             /\ Post.type p =
                  (if truthy (Article.urlToImage article)
                   then type_image else type_news)).
Proof.
  split.
  - assert (Hsourced : Sourced newsApi w (snd (pipeline w))).
    { destruct (pipeline_cases w) as [[adminUser Hadmin] | [e Hrun]].
      - rewrite (pipeline_with_admin w Hadmin). cbv zeta. cbn [snd].
        eapply Sourced_trans; [|now apply Sourced_same_posts].
        eapply Sourced_trans; [|apply categoryLoop_Sourced].
        now apply Sourced_same_posts.
      - rewrite Hrun. now apply Sourced_same_posts. }
    destruct Hsourced as (added & Hposts & Hall).
    exists added. split; [exact Hposts|].
    eapply Forall_impl; [|exact Hall].
    intros p (a & Hfetched & Hmade & Htype).
    split; [exists a; auto|].
    rewrite Htype. destruct (truthy _); split; discriminate.
  - intros category dbCategory adminUserId article w0.
    destruct (articleLoopBody_posts category dbCategory adminUserId article w0)
      as [Hsame | (p & Hposts & Hmade & Htype)]; [now left|].
    right. exists p. auto.
Qed.

End Accounting.

(* ===================================================================== *)
(** ** What each route does, case by case *)
(* ===================================================================== *)

Ltac unfold_task :=
  unfold post_catch;
  unfold task_try, task_bind, task_ret, task_raise, respond, server_log,
    record, Post_findById, Document_save.

Ltac task_step :=
  cbn [fst snd state journal with_journal with_state isCastError negb
       option_map];
  rewrite <- ?app_assoc; cbn [app].

Section RouteRuns.

Variable update : list entry -> nat -> Post.t -> option exn.

Lemma likePost_run (id : IdParam) (user : User) (s : Server) :
  likePost update id user s
  = match id with
    | NotAnObjectId => cast_error_outcome LikePostError s
    | ObjectIdOf n =>
        match nth_error (db_posts (state s)) n with
        | Some post =>
            if Post.isActive post then
              save_outcome update LikePostError s n
                (set_likes post (toggled (user_id user) (Post.likes post)))
                (like_reply (user_id user) (Post.likes post))
            else not_found_outcome s n
        | None => not_found_outcome s n
        end
    end.
Proof.
  unfold likePost, cast_error_outcome, not_found_outcome, save_outcome,
    like_reply, toggled.
  destruct id as [|n]; [unfold_task; task_step; reflexivity|].
  unfold task_try at 1. unfold task_bind at 1. unfold Post_findById at 1.
  destruct (nth_error (db_posts (state s)) n) as [post|];
    [|unfold_task; task_step; reflexivity].
  cbn [option_map]. destruct (Post.isActive post);
    [|unfold_task; task_step; reflexivity].
  cbn [negb]. unfold task_bind at 1. unfold Document_save at 1. task_step.
  destruct (validate _); [|unfold_task; task_step; reflexivity].
  destruct (update _ _ _); [unfold_task; task_step; reflexivity|].
  destruct (findIndex _ _); unfold_task; task_step; reflexivity.
Qed.

Lemma getPost_run (id : IdParam) (s : Server) :
  getPost update id s
  = match id with
    | NotAnObjectId => cast_error_outcome GetPostError s
    | ObjectIdOf n =>
        match nth_error (db_posts (state s)) n with
        | Some post =>
            if Post.isActive post then
              save_outcome update GetPostError s n
                (set_views post (plus_one (Post.views post)))
                (fun saved => success_response None (PostData saved))
            else not_found_outcome s n
        | None => not_found_outcome s n
        end
    end.
Proof.
  unfold getPost, cast_error_outcome, not_found_outcome, save_outcome.
  destruct id as [|n]; [unfold_task; task_step; reflexivity|].
  unfold task_try at 1. unfold task_bind at 1. unfold Post_findById at 1.
  destruct (nth_error (db_posts (state s)) n) as [post|];
    [|unfold_task; task_step; reflexivity].
  cbn [option_map]. destruct (Post.isActive post);
    [|unfold_task; task_step; reflexivity].
  cbn [negb]. unfold task_bind at 1. unfold Document_save at 1. task_step.
  destruct (validate _); [|unfold_task; task_step; reflexivity].
  destruct (update _ _ _); unfold_task; task_step; reflexivity.
Qed.

Lemma sharePost_run (id : IdParam) (s : Server) :
  sharePost update id s
  = match id with
    | NotAnObjectId => cast_error_outcome SharePostError s
    | ObjectIdOf n =>
        match nth_error (db_posts (state s)) n with
        | Some post =>
            if Post.isActive post then
              save_outcome update SharePostError s n
                (set_shares post (plus_one (Post.shares post)))
                (fun saved =>
                   success_response (Some (js "Post shared successfully"))
                     (ShareData (Post.shares saved)))
            else not_found_outcome s n
        | None => not_found_outcome s n
        end
    end.
Proof.
  unfold sharePost, cast_error_outcome, not_found_outcome, save_outcome.
  destruct id as [|n]; [unfold_task; task_step; reflexivity|].
  unfold task_try at 1. unfold task_bind at 1. unfold Post_findById at 1.
  destruct (nth_error (db_posts (state s)) n) as [post|];
    [|unfold_task; task_step; reflexivity].
  cbn [option_map]. destruct (Post.isActive post);
    [|unfold_task; task_step; reflexivity].
  cbn [negb]. unfold task_bind at 1. unfold Document_save at 1. task_step.
  destruct (validate _); [|unfold_task; task_step; reflexivity].
  destruct (update _ _ _); unfold_task; task_step; reflexivity.
Qed.

Variable unlink : list entry -> jsstring -> option exn.

Lemma deletePost_run (id : IdParam) (user : User) (s : Server) :
  deletePost update unlink id user s
  = match id with
    | NotAnObjectId => cast_error_outcome DeletePostError s
    | ObjectIdOf n =>
        let found := journal s ++ [PostFindById (ObjectIdOf n)] in
        match nth_error (db_posts (state s)) n with
        | None => not_found_outcome s n
        | Some post =>
            match Post.author post with
            | None =>
                (Done tt,
                 with_journal s
                   (found ++ [ServerLog (DeletePostError TypeError);
                              Respond internal_error]))
            | Some author =>
                if negb (author =? user_id user)%N && negb (is_admin user)
                then
                  (Done tt, with_journal s (found ++ [Respond forbidden_delete]))
                else
                  let doc := set_isActive post false in
                  if validate doc then
                    match update found n (pre_save doc) with
                    | None =>
                        (Done tt,
                         {| state :=
                              with_posts (state s)
                                (replace n (pre_save doc)
                                   (db_posts (state s)));
                            journal :=
                              found ++ [DocumentSave n doc]
                              ++ unlink_entries unlink
                                   (found ++ [DocumentSave n doc])
                                   (Post.image post)
                              ++ [Respond deleted] |})
                    | Some e =>
                        (Done tt,
                         with_journal s
                           (found ++ [DocumentSave n doc;
                                      ServerLog (DeletePostError (Thrown e));
                                      Respond internal_error]))
                    end
                  else
                    (Done tt,
                     with_journal s
                       (found ++ [DocumentSave n doc;
                                  ServerLog
                                    (DeletePostError (Thrown ValidationError));
                                  Respond internal_error]))
            end
        end
    end.
Proof.
  unfold deletePost, cast_error_outcome, not_found_outcome, forbidden_delete,
    deleted, unlink_entries.
  destruct id as [|n]; [unfold_task; task_step; reflexivity|].
  unfold task_try at 1. unfold task_bind at 1. unfold Post_findById at 1.
  destruct (nth_error (db_posts (state s)) n) as [post|];
    [|unfold_task; task_step; reflexivity].
  cbn [option_map]. unfold task_bind at 1.
  destruct (Post.author post) as [author|] eqn:Hauthor;
    [|unfold_task; task_step; reflexivity].
  unfold task_ret at 1.
  destruct (negb (author =? user_id user)%N && negb (is_admin user));
    [unfold_task; task_step; reflexivity|].
  cbv zeta. unfold task_bind at 1. unfold Document_save at 1. task_step.
  destruct (validate _); [|unfold_task; task_step; reflexivity].
  destruct (update _ _ _); [unfold_task; task_step; reflexivity|].
  unfold task_bind at 1.
  change (Post.image (pre_save (set_isActive post false)))
    with (Post.image post).
  destruct (Post.image post) as [[|c image]|];
    try (unfold_task; task_step; reflexivity).
  task_step. destruct (unlink _ _); unfold_task; task_step; reflexivity.
Qed.

End RouteRuns.

(** *** Calls into the service *)

Lemma skipn_length_app {A : Type} (t evs : list A) :
  skipn (length t) (t ++ evs) = evs.
Proof. induction t as [|x t IH]; [reflexivity | exact IH]. Qed.

Lemma lift_run {A : Type} (m : Async A) (s : Server) (c : Completion A)
    (w' : World) (evs : list event) :
  m (state s) = (c, w') ->
  trace w' = trace (state s) ++ evs ->
  lift m s
  = (match c with
     | Return a => Done a
     | Throw e => Raised (Thrown e)
     end,
     {| state := w'; journal := journal s ++ map Service evs |}).
Proof.
  intros Hm Ht. unfold lift. rewrite Hm, Ht, skipn_length_app.
  destruct c; reflexivity.
Qed.

Lemma responses_app (a b : list entry) :
  responses (a ++ b) = responses a ++ responses b.
Proof.
  induction a as [|[] a IH]; cbn; rewrite ?IH; reflexivity.
Qed.

Lemma responses_Service (evs : list event) : responses (map Service evs) = [].
Proof. induction evs as [|e evs IH]; [reflexivity | exact IH]. Qed.

(* ===================================================================== *)
(** ** Lists of likes and stored documents *)
(* ===================================================================== *)

Lemma findIndex_none {A : Type} (f : A -> bool) (l : list A) :
  findIndex f l = None -> forall x, In x l -> f x = false.
Proof.
  induction l as [|y l IH]; cbn; [intros _ x []|].
  destruct (f y) eqn:E; [discriminate|].
  destruct (findIndex f l); [discriminate|].
  intros _ x [<-|Hx]; [exact E | now apply IH].
Qed.

(** The index found splits the list around the first element that fits. *)
Lemma findIndex_some {A : Type} (f : A -> bool) (l : list A) (i : nat) :
  findIndex f l = Some i ->
  exists x, l = firstn i l ++ x :: skipn (S i) l /\ f x = true.
Proof.
  revert i. induction l as [|y l IH]; cbn; [discriminate|].
  destruct (f y) eqn:E.
  - intros i [= <-]. exists y. split; [reflexivity | exact E].
  - destruct (findIndex f l) as [j|]; [|discriminate].
    intros i [= <-]. destruct (IH j eq_refl) as (x & Hl & Hx).
    exists x. split; [|exact Hx].
    change (y :: l = y :: (firstn j l ++ x :: skipn (S j) l)).
    f_equal. exact Hl.
Qed.

Lemma findIndex_app_last {A : Type} (f : A -> bool) (l : list A) (x : A) :
  findIndex f l = None -> f x = true ->
  findIndex f (l ++ [x]) = Some (length l).
Proof.
  intros Hnone Hx. induction l as [|y l IH]; cbn in *.
  - now rewrite Hx.
  - destruct (f y); [discriminate|].
    destruct (findIndex f l); [discriminate|]. now rewrite IH.
Qed.

Lemma splice1_last {A : Type} (l : list A) (x : A) :
  splice1 (length l) (l ++ [x]) = l.
Proof.
  unfold splice1. induction l as [|y l IH]; cbn; [reflexivity|].
  f_equal. exact IH.
Qed.

Lemma like_user_eqb (userId : ObjectId) (like : Like) :
  (like_user like =? userId)%N = true <-> like_user like = userId.
Proof. apply N.eqb_eq. Qed.

Lemma findIndex_likes_none (userId : ObjectId) (likes : list Like) :
  findIndex (fun like => (like_user like =? userId)%N) likes = None <->
  ~ In userId (map like_user likes).
Proof.
  split.
  - intros Hnone Hin. apply in_map_iff in Hin. destruct Hin as (like & Hu & Hl).
    pose proof (findIndex_none _ _ Hnone like Hl) as Hf. cbn in Hf.
    apply N.eqb_neq in Hf. contradiction.
  - intros Hnot.
    destruct (findIndex _ likes) as [i|] eqn:E; [|reflexivity].
    apply findIndex_some in E. destruct E as (like & Hl & Hf).
    apply N.eqb_eq in Hf. elim Hnot. apply in_map_iff. exists like.
    split; [exact Hf|]. rewrite Hl. apply in_or_app. right. now left.
Qed.

(** The toggle keeps the likes free of duplicates, and flips whether the user
    is among them. *)
Lemma toggled_unique (userId : ObjectId) (likes : list Like) :
  NoDup (map like_user likes) ->
  NoDup (map like_user (toggled userId likes))
  /\ (In userId (map like_user (toggled userId likes))
      <-> ~ In userId (map like_user likes)).
Proof.
  intros Hnodup. unfold toggled.
  destruct (findIndex _ likes) as [i|] eqn:E.
  - pose proof E as Hsplit. apply findIndex_some in Hsplit.
    destruct Hsplit as (like & Hl & Hf). apply N.eqb_eq in Hf.
    unfold splice1. rewrite Hl in Hnodup. rewrite map_app in Hnodup.
    cbn in Hnodup. rewrite Hf in Hnodup.
    rewrite map_app. split.
    + eapply NoDup_remove_1, Hnodup.
    + apply NoDup_remove_2 in Hnodup. split; [contradiction|].
      intros Hnot. elim Hnot. rewrite Hl, map_app. cbn. rewrite Hf.
      apply in_or_app. right. now left.
  - apply findIndex_likes_none in E. rewrite map_app. cbn. split.
    + apply NoDup_app; [exact Hnodup | repeat constructor; intros [] |].
      intros x Hx [<-|[]]. contradiction.
    + split; [intros _; exact E|]. intros _. apply in_or_app. right. now left.
Qed.

Lemma toggled_twice (userId : ObjectId) (likes : list Like) :
  ~ In userId (map like_user likes) ->
  toggled userId (toggled userId likes) = likes.
Proof.
  intros Hnot. apply findIndex_likes_none in Hnot.
  unfold toggled at 2. rewrite Hnot. unfold toggled.
  rewrite (findIndex_app_last _ _ _ Hnot) by apply N.eqb_refl.
  apply splice1_last.
Qed.

Lemma replace_length {A : Type} (n : nat) (x : A) (l : list A) :
  length (replace n x l) = length l.
Proof.
  revert n. induction l as [|y l IH]; intros [|n]; cbn; auto.
Qed.

Lemma replace_nth_error {A : Type} (n : nat) (x y : A) (l : list A) :
  nth_error l n = Some y -> nth_error (replace n x l) n = Some x.
Proof.
  revert n. induction l as [|z l IH]; intros [|n]; cbn; try discriminate; auto.
Qed.

Lemma replace_replace {A : Type} (n : nat) (x y : A) (l : list A) :
  replace n y (replace n x l) = replace n y l.
Proof.
  revert n. induction l as [|z l IH]; intros [|n]; cbn; auto.
  now rewrite IH.
Qed.

Lemma replace_map {A B : Type} (f : A -> B) (n : nat) (x y : A) (l : list A) :
  nth_error l n = Some y -> f x = f y -> map f (replace n x l) = map f l.
Proof.
  revert n. induction l as [|z l IH]; intros [|n]; cbn; try discriminate.
  - intros [= ->] ->. reflexivity.
  - intros Hn Hf. now rewrite IH.
Qed.

Lemma replace_Forall {A : Type} (P : A -> Prop) (n : nat) (x : A) (l : list A) :
  Forall P l -> P x -> Forall P (replace n x l).
Proof.
  intros Hl Hx. revert n. induction Hl as [|z l Hz Hl IH]; intros [|n]; cbn;
    constructor; auto.
Qed.

(* ===================================================================== *)
(** ** Properties of the routes and of the scheduled task *)
(* ===================================================================== *)

Lemma responses_unlink (unlink : list entry -> jsstring -> option exn)
    (j : list entry) (image : option jsstring) :
  responses (unlink_entries unlink j image) = [].
Proof.
  unfold unlink_entries. destruct image as [[|c image]|]; try reflexivity.
  destruct (unlink j (c :: image)); reflexivity.
Qed.

(** The cases of a route on one post, as its run equation lists them. *)
Ltac destruct_update :=
  match goal with
  | |- context [match ?u with Some _ => _ | None => _ end] =>
      destruct u eqn:Hupdate
  end.

Ltac destruct_saved :=
  cbv zeta;
  match goal with
  | |- context [validate ?doc] =>
      destruct (validate doc) eqn:Hvalid; [destruct_update|]
  end.

Ltac destruct_found :=
  match goal with
  | |- context [nth_error ?l ?k] =>
      destruct (nth_error l k) as [post|] eqn:Hnth;
      [destruct (Post.isActive post) eqn:Hactive; [destruct_saved|]|]
  end.

Ltac outcome_cases :=
  unfold cast_error_outcome, not_found_outcome, save_outcome;
  match goal with
  | |- context [match ?id with NotAnObjectId => _ | ObjectIdOf _ => _ end] =>
      destruct id; [|destruct_found]
  end.

Ltac one_response :=
  eexists; split; [reflexivity|];
  cbn [snd journal with_journal]; rewrite ?responses_app;
  cbn [responses app]; rewrite ?responses_unlink, ?responses_Service;
  rewrite ?app_nil_r; cbn [app]; reflexivity.

Section ServerProperties.

Variable toLowerCase : jsstring -> jsstring.
Variable newDate : option jsstring -> Date.
Variable userQuery : list event -> option exn.
Variable newsApi : list event -> SearchParams -> SourceResult.
Variable model : list event -> jsstring -> ModelResult.
Variable store : list event -> Post.t -> option exn.
Variable update : list entry -> nat -> Post.t -> option exn.
Variable unlink : list entry -> jsstring -> option exn.

Abbreviation the_pipeline :=
  (fetchAndProcessNews toLowerCase newDate userQuery newsApi model store).

Lemma pipeline_grows (w : World) :
  exists evs, trace (snd (the_pipeline w)) = trace w ++ evs.
Proof.
  destruct (pipeline_cases toLowerCase newDate userQuery newsApi model store w)
    as [[adminUser Hadmin] | [e Hrun]].
  - rewrite (pipeline_with_admin toLowerCase newDate userQuery newsApi model
               store w Hadmin).
    cbv zeta.
    destruct (categoryLoop_Appends toLowerCase newDate newsApi model store
                (user_id adminUser) (started w)) as (evs & Ht & _).
    eexists. cbn [snd trace with_trace]. rewrite Ht.
    cbn [started trace with_trace with_processedCount].
    rewrite <- !app_assoc. reflexivity.
  - rewrite Hrun. eexists. reflexivity.
Qed.

(** What the manual trigger does, once past the admin check. *)
Lemma newsFetch_run (s : Server) :
  exists evs,
    trace (snd (the_pipeline (state s))) = trace (state s) ++ evs
    /\ newsFetch toLowerCase newDate userQuery newsApi model store s
       = (Done tt,
          {| state := snd (the_pipeline (state s));
             journal :=
               journal s ++ map Service evs
               ++ match fst (the_pipeline (state s)) with
                  | Return result =>
                      [Respond
                         (success_response (Some (js "News fetch completed"))
                            (CountsData result))]
                  | Throw e =>
                      [ServerLog (ManualFetchError (Thrown e));
                       Respond
                         (error_response 500 (js "Failed to fetch news"))]
                  end |}).
Proof.
  destruct (pipeline_grows (state s)) as (evs & Ht). exists evs.
  split; [exact Ht|]. unfold newsFetch.
  unfold task_try at 1. unfold task_bind at 1.
  destruct (the_pipeline (state s)) as [c w'] eqn:Hrun. cbn [fst snd] in *.
  rewrite (@lift_run _ _ s c w' evs Hrun Ht).
  destruct c; unfold_task; task_step; reflexivity.
Qed.

(** X9.  Each of the routes on one post, and the manual trigger behind the
    admin check, never raises and sends exactly one response, whatever the
    request, the store and the collaborators do. *)
Theorem routes_answer_exactly_once (id : IdParam) (user : User) :
  answers_once (getPost update id)
  /\ answers_once (likePost update id user)
  /\ answers_once (sharePost update id)
  /\ answers_once (deletePost update unlink id user)
  /\ answers_once (adminNewsFetch toLowerCase newDate userQuery newsApi model store user).
Proof.
  repeat split; intros s.
  - rewrite getPost_run. outcome_cases; one_response.
  - rewrite likePost_run. outcome_cases; one_response.
  - rewrite sharePost_run. outcome_cases; one_response.
  - rewrite deletePost_run. unfold cast_error_outcome, not_found_outcome.
    destruct id as [|n]; [one_response|]. cbv zeta.
    destruct (nth_error _ n) as [post|]; [|one_response].
    destruct (Post.author post) as [author|]; [|one_response].
    destruct (_ && _); [one_response|].
    destruct (validate _); [|one_response].
    destruct (update _ _ _); one_response.
  - unfold adminNewsFetch, adminMiddleware.
    destruct (is_admin user); cbn [negb].
    + destruct (newsFetch_run s) as (evs & _ & ->).
      destruct (fst (the_pipeline (state s))); one_response.
    + unfold_task. one_response.
Qed.

Lemma stored_admin_is_found (users : list User) (user : User) :
  In user users -> is_admin user = true ->
  exists adminUser, find is_admin users = Some adminUser.
Proof.
  intros Hin Hadmin. destruct (find is_admin users) as [a|] eqn:E; [eauto|].
  pose proof (find_none _ _ E user Hin) as H. congruence.
Qed.

(** X10.  The manual trigger answers 403 to a requester who is no admin, and
    then nothing else happens.  For an admin requester it runs the pipeline
    on the current collections: it answers 500 ('Failed to fetch news') and
    leaves the posts as they were when the admin query of the pipeline
    rejects or resolves with no user, and otherwise 200 with the counts,
    whose [success] is the number of posts appended.  A stored admin
    requester gets 200 whenever that query resolves. *)
Theorem manual_fetch_outcome (user : User) (s : Server) :
  let s' :=
    snd (adminNewsFetch toLowerCase newDate userQuery newsApi model store
           user s) in
  exists r,
    responses (journal s') = responses (journal s) ++ [r]
    /\ (is_admin user = false ->
        statusCode r = 403%N
        /\ s' = with_journal s (journal s ++ [Respond r]))
    /\ (is_admin user = true ->
        state s' = snd (the_pipeline (state s))
        /\ match admin_lookup userQuery (state s) with
           | inr (Some _) =>
               exists counts added,
                 r = success_response (Some (js "News fetch completed"))
                       (CountsData counts)
                 /\ db_posts (state s') = db_posts (state s) ++ added
                 /\ success counts = N.of_nat (length added)
           | _ =>
               r = error_response 500 (js "Failed to fetch news")
               /\ db_posts (state s') = db_posts (state s)
           end)
    /\ (is_admin user = true -> In user (db_users (state s)) ->
        userQuery (trace (state s) ++ [Console LogStarting]) = None ->
        statusCode r = 200%N).
Proof.
  cbv zeta. unfold adminNewsFetch, adminMiddleware.
  destruct (is_admin user) eqn:Hrole; cbn [negb].
  2:{ eexists. split; [unfold_task; cbn [snd journal with_journal];
                       rewrite responses_app; reflexivity|].
      split; [intros _; split; reflexivity|].
      split; discriminate. }
  destruct (newsFetch_run s) as (evs & Ht & ->). cbn [snd state journal].
  pose proof (fetchAndProcessNews_run toLowerCase newDate userQuery newsApi
                model store (state s)) as Hrun.
  destruct (admin_lookup userQuery (state s)) as [e|[adminUser|]] eqn:Hadmin.
  - rewrite Hrun. cbn [fst snd]. eexists. split.
    { rewrite !responses_app, responses_Service. reflexivity. }
    split; [discriminate|]. split.
    + intros _. split; [reflexivity|]. split; reflexivity.
    + intros _ _ Hquery. unfold admin_lookup in Hadmin.
      rewrite Hquery in Hadmin. discriminate Hadmin.
  - cbv zeta in Hrun.
    destruct (categoryLoop_Counted toLowerCase newDate newsApi model store
                (user_id adminUser) (started (state s)))
      as (added & Hposts & Hsuccess & _).
    rewrite Hrun. cbn [fst snd].
    eexists. split.
    { rewrite !responses_app, responses_Service. reflexivity. }
    split; [discriminate|]. split.
    + intros _. split; [reflexivity|].
      eexists. exists added. split; [reflexivity|].
      split; [exact Hposts | exact Hsuccess].
    + intros _ _ _. reflexivity.
  - rewrite Hrun. cbn [fst snd]. eexists. split.
    { rewrite !responses_app, responses_Service. reflexivity. }
    split; [discriminate|]. split.
    + intros _. split; [reflexivity|]. split; reflexivity.
    + intros _ Hin Hquery. unfold admin_lookup in Hadmin.
      rewrite Hquery in Hadmin.
      destruct (stored_admin_is_found _ _ Hin Hrole) as (a & Ha). congruence.
Qed.

(** X11.  The scheduled task never raises and sends no response; it leaves
    the collections exactly as the pipeline run from the current ones does,
    which is also what the manual trigger of an admin requester leaves. *)
Theorem scheduled_fetch_runs_the_pipeline (user : User) (s : Server) :
  exists s',
    scheduledNewsFetch toLowerCase newDate userQuery newsApi model store s = (Done tt, s')
    /\ state s' = snd (the_pipeline (state s))
    /\ responses (journal s') = responses (journal s)
    /\ (is_admin user = true ->
        state (snd (adminNewsFetch toLowerCase newDate userQuery newsApi model store user s))
        = state s').
Proof.
  destruct (pipeline_grows (state s)) as (evs & Ht).
  destruct (the_pipeline (state s)) as [c w'] eqn:Hrun. cbn [snd] in *.
  assert (Hlift :
    lift the_pipeline
      (with_journal s (journal s ++ [ServerLog RunningAutomatedFetch]))
    = (match c with
       | Return a => Done a
       | Throw e => Raised (Thrown e)
       end,
       {| state := w';
          journal := (journal s ++ [ServerLog RunningAutomatedFetch])
                     ++ map Service evs |})).
  { apply lift_run; assumption. }
  unfold scheduledNewsFetch, server_log.
  unfold task_bind at 1. unfold record at 1.
  unfold task_try at 1. unfold task_bind at 1. rewrite Hlift.
  exists (with_journal
            {| state := w';
               journal := (journal s ++ [ServerLog RunningAutomatedFetch])
                          ++ map Service evs |}
            (((journal s ++ [ServerLog RunningAutomatedFetch])
              ++ map Service evs)
             ++ [ServerLog match c with
                           | Return _ => AutomatedFetchCompleted
                           | Throw e => AutomatedFetchError (Thrown e)
                           end])).
  split; [destruct c; reflexivity|]. split; [reflexivity|]. split.
  - cbn [journal with_journal]. rewrite !responses_app, responses_Service.
    cbn. now rewrite !app_nil_r.
  - intros Hrole. unfold adminNewsFetch, adminMiddleware. rewrite Hrole.
    cbn [negb]. destruct (newsFetch_run s) as (evs' & _ & ->).
    cbn [snd state with_journal]. now rewrite Hrun.
Qed.

(** *** What the routes on one post change *)

Lemma touches_refl (change : Post.t -> Post.t -> Prop) (ps : list Post.t) :
  touches change ps ps.
Proof. now left. Qed.

Lemma touches_impl (P Q : Post.t -> Post.t -> Prop) (before after : list Post.t) :
  (forall post doc, P post doc -> Q post doc) ->
  touches P before after -> touches Q before after.
Proof.
  intros Himpl [-> | (n & post & doc & Hn & Hp & ->)]; [now left|].
  right. exists n, post, doc. auto.
Qed.

Ltac touched_cases :=
  outcome_cases; cbn [snd state with_journal];
  try (apply touches_refl);
  right; do 3 eexists; split; [eassumption|]; split; [|reflexivity].

Lemma getPost_touches (id : IdParam) (s : Server) :
  touches (fun post doc =>
             Post.isActive post = true
             /\ doc = set_views post (plus_one (Post.views post)))
    (db_posts (state s)) (db_posts (state (snd (getPost update id s)))).
Proof. rewrite getPost_run. touched_cases. now split. Qed.

Lemma likePost_touches (id : IdParam) (user : User) (s : Server) :
  touches (fun post doc =>
             Post.isActive post = true
             /\ doc = set_likes post (toggled (user_id user) (Post.likes post)))
    (db_posts (state s)) (db_posts (state (snd (likePost update id user s)))).
Proof. rewrite likePost_run. touched_cases. now split. Qed.

Lemma sharePost_touches (id : IdParam) (s : Server) :
  touches (fun post doc =>
             Post.isActive post = true
             /\ doc = set_shares post (plus_one (Post.shares post)))
    (db_posts (state s)) (db_posts (state (snd (sharePost update id s)))).
Proof. rewrite sharePost_run. touched_cases. now split. Qed.

(** A delete request changes nothing, or deactivates the post it names, on
    behalf of its author or of an admin. *)
Lemma deletePost_posts (id : IdParam) (user : User) (s : Server) :
  db_posts (state (snd (deletePost update unlink id user s)))
  = db_posts (state s)
  \/ exists n post,
       id = ObjectIdOf n
       /\ nth_error (db_posts (state s)) n = Some post
       /\ (Post.author post = Some (user_id user) \/ is_admin user = true)
       /\ db_posts (state (snd (deletePost update unlink id user s)))
          = replace n (pre_save (set_isActive post false))
              (db_posts (state s)).
Proof.
  rewrite deletePost_run. unfold cast_error_outcome, not_found_outcome.
  destruct id as [|n]; [now left|]. cbv zeta.
  destruct (nth_error _ n) as [post|] eqn:Hnth; [|now left].
  destruct (Post.author post) as [author|] eqn:Hauthor; [|now left].
  destruct (negb (author =? user_id user)%N && negb (is_admin user)) eqn:Hauth;
    [now left|].
  destruct (validate _); [|now left].
  destruct (update _ _ _); [now left|].
  right. exists n, post. split; [reflexivity|]. split; [exact Hnth|].
  split; [|reflexivity].
  apply andb_false_iff in Hauth.
  destruct Hauth as [H|H]; apply negb_false_iff in H.
  - left. apply N.eqb_eq in H. now subst author.
  - now right.
Qed.

Lemma deletePost_touches (id : IdParam) (user : User) (s : Server) :
  touches (fun post doc => doc = set_isActive post false)
    (db_posts (state s))
    (db_posts (state (snd (deletePost update unlink id user s)))).
Proof.
  destruct (deletePost_posts id user s) as [-> | (n & post & _ & Hn & _ & ->)].
  - apply touches_refl.
  - right. exists n, post, (set_isActive post false). auto.
Qed.

(** Whatever the four routes change, they keep the content of the post. *)
Lemma routes_touch_same_content (id : IdParam) (user : User) (s : Server)
    (route : Task unit) :
  route = getPost update id \/ route = likePost update id user
  \/ route = sharePost update id \/ route = deletePost update unlink id user ->
  touches same_content (db_posts (state s)) (db_posts (state (snd (route s)))).
Proof.
  intros [-> | [-> | [-> | ->]]].
  - eapply touches_impl; [|apply getPost_touches].
    intros post doc [_ ->]. repeat split.
  - eapply touches_impl; [|apply likePost_touches].
    intros post doc [_ ->]. repeat split.
  - eapply touches_impl; [|apply sharePost_touches].
    intros post doc [_ ->]. repeat split.
  - eapply touches_impl; [|apply deletePost_touches].
    intros post doc ->. repeat split.
Qed.


Lemma replace_Forall2 {A : Type} (R : A -> A -> Prop) (n : nat) (x y : A)
    (l : list A) :
  (forall z, R z z) -> nth_error l n = Some y -> R y x ->
  Forall2 R l (replace n x l).
Proof.
  intros Hrefl. revert n.
  induction l as [|z l IH]; intros [|n]; cbn; try discriminate.
  - intros [= ->] Hr. constructor; [exact Hr|].
    clear IH. induction l; constructor; auto.
  - intros Hn Hr. constructor; [apply Hrefl | now apply IH].
Qed.

Lemma Forall2_refl {A : Type} (R : A -> A -> Prop) (l : list A) :
  (forall z, R z z) -> Forall2 R l l.
Proof. intros H. induction l; constructor; auto. Qed.

Lemma same_content_refl (p : Post.t) : same_content p p.
Proof. repeat split. Qed.

Lemma same_content_pre_save (post doc : Post.t) :
  same_content post doc -> same_content post (pre_save doc).
Proof. intros H. exact H. Qed.

Lemma count_news_by_key (url : jsstring) (a b : list Post.t) :
  Forall2 same_content a b -> count_news url b = count_news url a.
Proof.
  unfold count_news. induction 1 as [|p q a b Hpq Hab IH]; [reflexivity|].
  assert (Hkey : is_news_from url q = is_news_from url p).
  { destruct Hpq as (_ & _ & _ & _ & _ & _ & _ & _ & Hn & Ho & _).
    unfold is_news_from. now rewrite Hn, Ho. }
  cbn [filter]. rewrite Hkey.
  destruct (is_news_from url p); cbn [length]; now rewrite IH.
Qed.

(** X12.  None of the four routes on one post changes the number of posts or
    the title, content, author, type, image, link, categories, tags, news
    flag, original source, publication date or comments of any post; so they
    keep the news posts unique per original source. *)
Theorem routes_keep_the_content (id : IdParam) (user : User) (s : Server)
    (route : Task unit) :
  route = getPost update id \/ route = likePost update id user
  \/ route = sharePost update id \/ route = deletePost update unlink id user ->
  Forall2 same_content (db_posts (state s)) (db_posts (state (snd (route s))))
  /\ (unique_news (db_posts (state s)) ->
      unique_news (db_posts (state (snd (route s))))).
Proof.
  intros Hroute.
  assert (H2 : Forall2 same_content (db_posts (state s))
                 (db_posts (state (snd (route s))))).
  { destruct (@routes_touch_same_content id user s route Hroute)
      as [-> | (n & post & doc & Hn & Hc & ->)].
    - apply Forall2_refl, same_content_refl.
    - eapply replace_Forall2; [apply same_content_refl | exact Hn |].
      now apply same_content_pre_save. }
  split; [exact H2|].
  intros Hunique url. rewrite (count_news_by_key url H2). apply Hunique.
Qed.

(** X13.  The four routes keep the likes of every post free of duplicates:
    if no user likes a stored post twice before the request, none does
    after it. *)
Theorem routes_keep_one_like_per_user (id : IdParam) (user : User)
    (s : Server) (route : Task unit) :
  route = getPost update id \/ route = likePost update id user
  \/ route = sharePost update id \/ route = deletePost update unlink id user ->
  Forall unique_likes (db_posts (state s)) ->
  Forall unique_likes (db_posts (state (snd (route s)))).
Proof.
  intros Hroute Hall.
  assert (Hkeep : forall after,
            touches (fun post doc =>
                       unique_likes post -> unique_likes (pre_save doc))
              (db_posts (state s)) after ->
            Forall unique_likes after).
  { intros after [-> | (n & post & doc & Hn & Hc & ->)]; [exact Hall|].
    apply replace_Forall; [exact Hall|]. apply Hc.
    eapply Forall_forall; [exact Hall | eapply nth_error_In, Hn]. }
  apply Hkeep. destruct Hroute as [-> | [-> | [-> | ->]]].
  - eapply touches_impl; [|apply getPost_touches].
    intros post doc [_ ->] H. exact H.
  - eapply touches_impl; [|apply likePost_touches].
    intros post doc [_ ->] H. now apply toggled_unique.
  - eapply touches_impl; [|apply sharePost_touches].
    intros post doc [_ ->] H. exact H.
  - eapply touches_impl; [|apply deletePost_touches].
    intros post doc -> H. exact H.
Qed.


(** *** The answer to a like, and requests on a post that cannot be shown *)

Lemma last_response (j l : list entry) (r r' : Response) :
  responses (j ++ l) = responses j ++ [r] -> responses l = [r'] -> r = r'.
Proof.
  rewrite responses_app. intros H Hl. rewrite Hl in H.
  apply app_inv_head in H. congruence.
Qed.

(** X15.  The answer to a like request tells the truth: when it carries
    [liked] and [likeCount], the post is stored with [likeCount] likes, the
    requester is among them exactly when [liked] is true, and was among them
    before exactly when it is false.  The post must have had at most one like
    per user. *)
Theorem like_answer_is_truthful (n : nat) (user : User) (s : Server)
    (post : Post.t) (r : Response) (liked : bool) (likeCount : nat) :
  nth_error (db_posts (state s)) n = Some post ->
  unique_likes post ->
  responses (journal (snd (likePost update (ObjectIdOf n) user s)))
  = responses (journal s) ++ [r] ->
  data r = LikeData liked likeCount ->
  exists stored,
    nth_error (db_posts (state (snd (likePost update (ObjectIdOf n) user s)))) n
    = Some stored
    /\ likeCount = length (Post.likes stored)
    /\ (liked = true <-> likes_it (user_id user) stored)
    /\ (liked = false <-> likes_it (user_id user) post).
Proof.
  intros Hn Hunique. rewrite likePost_run, Hn.
  unfold not_found_outcome, save_outcome. cbv zeta.
  destruct (Post.isActive post).
  2:{ cbn [snd journal with_journal]. intros Hresp Hdata.
      rewrite (@last_response _ _ _ not_found Hresp eq_refl) in Hdata.
      discriminate. }
  destruct (validate _).
  2:{ cbn [snd journal with_journal]. rewrite <- app_assoc.
      intros Hresp Hdata.
      rewrite (@last_response _ _ _ internal_error Hresp eq_refl) in Hdata.
      discriminate. }
  destruct (update _ _ _).
  { cbn [snd journal with_journal]. rewrite <- app_assoc.
    intros Hresp Hdata.
    rewrite (@last_response _ _ _ internal_error Hresp eq_refl) in Hdata.
    discriminate. }
  cbn [snd journal state with_posts db_posts]. rewrite <- app_assoc.
  intros Hresp Hdata.
  rewrite (@last_response _ _ _ _ Hresp eq_refl) in Hdata. clear Hresp.
  eexists. split; [eapply replace_nth_error; exact Hn|].
  destruct (@toggled_unique (user_id user) (Post.likes post) Hunique)
    as [_ Hflip].
  pose proof (findIndex_likes_none (user_id user) (Post.likes post)) as Hnone.
  unfold likes_it.
  change (Post.likes (pre_save (set_likes post
                                  (toggled (user_id user) (Post.likes post)))))
    with (toggled (user_id user) (Post.likes post)) in *.
  unfold like_reply in Hdata.
  destruct (in_dec N.eq_dec (user_id user) (map like_user (Post.likes post)))
    as [Hin|Hout];
    destruct (findIndex _ (Post.likes post)) as [i|];
    cbn [data success_response] in Hdata; injection Hdata as <- <-.
  - split; [reflexivity|]. split; [|tauto].
    split; [discriminate|]. intros H. apply Hflip in H. contradiction.
  - exfalso. apply Hnone; auto.
  - exfalso. destruct Hnone as [_ Hnone]. specialize (Hnone Hout).
    discriminate.
  - split; [reflexivity|]. split; [tauto|].
    split; [discriminate|contradiction].
Qed.

(** A like that goes through. *)
Lemma likePost_saved (n : nat) (user : User) (s : Server) (post : Post.t) :
  store_available update ->
  nth_error (db_posts (state s)) n = Some post ->
  Post.isActive post = true ->
  validate post = true ->
  likePost update (ObjectIdOf n) user s
  = let doc := set_likes post (toggled (user_id user) (Post.likes post)) in
    (Done tt,
     {| state :=
          with_posts (state s) (replace n (pre_save doc) (db_posts (state s)));
        journal :=
          (journal s ++ [PostFindById (ObjectIdOf n)])
          ++ [DocumentSave n doc;
              Respond (like_reply (user_id user) (Post.likes post)
                         (pre_save doc))] |}).
Proof.
  intros Hstore Hn Hactive Hvalid. rewrite likePost_run, Hn, Hactive.
  unfold save_outcome. cbv zeta.
  change (validate (set_likes post (toggled (user_id user) (Post.likes post))))
    with (validate post).
  rewrite Hvalid, Hstore. reflexivity.
Qed.

Lemma pre_save_set_likes (post : Post.t) (likes : list Like) :
  pre_save (set_likes (pre_save (set_likes post likes)) (Post.likes post))
  = pre_save post.
Proof. destruct post. reflexivity. Qed.

(** X16.  A like followed by an unlike of the same user restores the post:
    when the store accepts the writes, the post is left as a plain save of
    it would leave it, and the two answers count one like more, then as
    many as before. *)
Theorem like_then_unlike_restores (n : nat) (user : User) (s : Server)
    (post : Post.t) :
  store_available update ->
  nth_error (db_posts (state s)) n = Some post ->
  Post.isActive post = true ->
  validate post = true ->
  ~ likes_it (user_id user) post ->
  let once := snd (likePost update (ObjectIdOf n) user s) in
  let twice := snd (likePost update (ObjectIdOf n) user once) in
  db_posts (state twice) = replace n (pre_save post) (db_posts (state s))
  /\ map data (skipn (length (responses (journal s)))
                 (responses (journal twice)))
     = [LikeData true (S (length (Post.likes post)));
        LikeData false (length (Post.likes post))].
Proof.
  intros Hstore Hn Hactive Hvalid Hnot. cbv zeta.
  rewrite (@likePost_saved n user s post Hstore Hn Hactive Hvalid).
  cbv zeta.
  cbn [snd].
  set (stored := pre_save (set_likes post
                             (toggled (user_id user) (Post.likes post)))).
  set (s1 := {| state := _; journal := _ |}).
  assert (Hn1 : nth_error (db_posts (state s1)) n = Some stored)
    by (eapply replace_nth_error; exact Hn).
  rewrite (@likePost_saved n user s1 stored Hstore Hn1 Hactive Hvalid).
  cbv zeta.
  cbn [snd state journal with_posts db_posts s1].
  change (Post.likes stored) with (toggled (user_id user) (Post.likes post)).
  rewrite (@toggled_twice _ _ Hnot), replace_replace.
  split.
  - f_equal; apply pre_save_set_likes.
  - rewrite !responses_app. cbn [responses]. rewrite !app_nil_r.
    rewrite <- app_assoc, skipn_length_app. cbn [app map].
    unfold like_reply.
    rewrite (proj2 (findIndex_likes_none _ _) Hnot).
    unfold toggled at 1.
    rewrite (proj2 (findIndex_likes_none _ _) Hnot).
    rewrite (findIndex_app_last _ _ _ (proj2 (findIndex_likes_none _ _) Hnot))
      by apply N.eqb_refl.
    cbn [data success_response].
    change (Post.likes (pre_save (set_likes stored (Post.likes post))))
      with (Post.likes post).
    change (Post.likes stored)
      with (toggled (user_id user) (Post.likes post)).
    unfold toggled. rewrite (proj2 (findIndex_likes_none _ _) Hnot).
    rewrite length_app, Nat.add_comm. reflexivity.
Qed.

(** The three routes that show, like and share a post, on an id that leads to
    no post that can be shown. *)
Lemma unavailable_run (id : IdParam) (user : User) (s : Server)
    (route : Task unit) :
  unavailable s id ->
  route = getPost update id \/ route = likePost update id user
  \/ route = sharePost update id ->
  exists l,
    route s = (Done tt, with_journal s (journal s ++ l))
    /\ responses l = [not_found].
Proof.
  unfold unavailable.
  intros Hgone [-> | [-> | ->]];
    rewrite ?getPost_run, ?likePost_run, ?sharePost_run;
    unfold cast_error_outcome, not_found_outcome;
    (destruct id as [|n]; [eexists; split; reflexivity|]);
    (destruct (nth_error _ n) as [post|]; [|eexists; split; reflexivity]);
    rewrite Hgone; eexists; split; reflexivity.
Qed.

(** X17.  A post that cannot be shown is not found: when the id is no
    ObjectId, names no post, or names a deactivated post, the routes that
    show, like and share a post answer 404 and change nothing in the
    collections. *)
Theorem unavailable_post_is_not_found (id : IdParam) (user : User)
    (s : Server) (route : Task unit) :
  unavailable s id ->
  route = getPost update id \/ route = likePost update id user
  \/ route = sharePost update id ->
  responses (journal (snd (route s))) = responses (journal s) ++ [not_found]
  /\ state (snd (route s)) = state s.
Proof.
  intros Hgone Hroute.
  destruct (@unavailable_run id user s route Hgone Hroute)
    as (l & -> & Hl).
  cbn [snd journal state with_journal]. rewrite responses_app, Hl.
  now split.
Qed.

(** After the answer 'Post deleted successfully' the post cannot be shown. *)
Lemma deleted_is_unavailable (id : IdParam) (user : User) (s : Server) :
  responses (journal (snd (deletePost update unlink id user s)))
  = responses (journal s) ++ [deleted] ->
  unavailable (snd (deletePost update unlink id user s)) id.
Proof.
  rewrite deletePost_run. unfold cast_error_outcome, not_found_outcome.
  destruct id as [|n].
  { cbn [snd journal with_journal]. intros Hresp.
    discriminate (@last_response _ _ _ not_found Hresp eq_refl). }
  cbv zeta. destruct (nth_error _ n) as [post|] eqn:Hn.
  2:{ cbn [snd journal with_journal]. intros Hresp.
      discriminate (@last_response _ _ _ not_found Hresp eq_refl). }
  destruct (Post.author post) as [author|].
  2:{ cbn [snd journal with_journal]. rewrite <- app_assoc. intros Hresp.
      discriminate (@last_response _ _ _ internal_error Hresp eq_refl). }
  destruct (_ && _).
  { cbn [snd journal with_journal]. rewrite <- app_assoc. intros Hresp.
    discriminate (@last_response _ _ _ forbidden_delete Hresp eq_refl). }
  destruct (validate _).
  2:{ cbn [snd journal with_journal]. rewrite <- app_assoc. intros Hresp.
      discriminate (@last_response _ _ _ internal_error Hresp eq_refl). }
  destruct (update _ _ _).
  { cbn [snd journal with_journal]. rewrite <- app_assoc. intros Hresp.
    discriminate (@last_response _ _ _ internal_error Hresp eq_refl). }
  intros _. unfold unavailable. cbn [snd state with_posts db_posts].
  erewrite replace_nth_error by exact Hn. reflexivity.
Qed.

(** X18.  A deleted post is gone for the readers: once a delete request has
    been answered 'Post deleted successfully', the requests to show, like or
    share that post are answered 404 and change nothing. *)
Theorem deleted_post_is_not_found (id : IdParam) (user other : User)
    (s : Server) (route : Task unit) :
  let s' := snd (deletePost update unlink id user s) in
  responses (journal s') = responses (journal s) ++ [deleted] ->
  route = getPost update id \/ route = likePost update id other
  \/ route = sharePost update id ->
  responses (journal (snd (route s'))) = responses (journal s') ++ [not_found]
  /\ state (snd (route s')) = state s'.
Proof.
  cbv zeta. intros Hdeleted Hroute.
  destruct (@unavailable_run id other _ route
              (@deleted_is_unavailable _ _ _ Hdeleted) Hroute)
    as (l & -> & Hl).
  cbn [snd journal state with_journal]. rewrite responses_app, Hl.
  now split.
Qed.

End ServerProperties.

(* ===================================================================== *)
(** ** Properties of the other methods of the service *)
(* ===================================================================== *)

Lemma queries_app (a b : list entry) :
  queries (a ++ b) = queries a ++ queries b.
Proof.
  induction a as [|[] a IH]; cbn; rewrite ?IH; reflexivity.
Qed.

Lemma responses_no_Respond (l : list entry) :
  Forall (fun e => match e with Respond _ => False | _ => True end) l ->
  responses l = [].
Proof.
  induction 1 as [|e l He Hl IH]; [reflexivity|].
  destruct e; cbn; auto. contradiction.
Qed.

Lemma firstn_prefix {A : Type} (a b : list A) : firstn (length a) (a ++ b) = a.
Proof. induction a as [|x a IH]; cbn; [reflexivity | now rewrite IH]. Qed.

Section ServiceQueries.

Variable toLowerCase : jsstring -> jsstring.
Variable model : list event -> jsstring -> ModelResult.
Variable regExp_i : jsstring -> option (jsstring -> bool).
Variable newsSearch : list entry -> Query -> SearchAnswer.
Variable twoHoursAgo : list entry -> jsstring.

(** X19.  [categorizeContent] never throws and sends no response; it changes
    nothing in the collections.  It returns no category, or the one id of a
    stored category whose name matches the trimmed answer of the model. *)
Theorem categorizeContent_returns_a_stored_category (content : jsstring)
    (s : Server) :
  exists ids s',
    categorizeContent model regExp_i content s = (Done ids, s')
    /\ db_users (state s') = db_users (state s)
    /\ db_categories (state s') = db_categories (state s)
    /\ db_posts (state s') = db_posts (state s)
    /\ responses (journal s') = responses (journal s)
    /\ (ids = []
        \/ exists text matches c,
             model (trace (state s)) (categorize_prompt content)
             = ModelText text
             /\ regExp_i (trim text) = Some matches
             /\ In c (db_categories (state s))
             /\ matches (category_name c) = true
             /\ ids = [category_id c]).
Proof.
  unfold categorizeContent. unfold task_try at 1. unfold task_bind at 1.
  unfold lift at 1. unfold generateContent at 1.
  destruct (model (trace (state s)) (categorize_prompt content))
    as [e|text] eqn:Hmodel.
  - unfold_task. do 2 eexists. split; [reflexivity|].
    cbn [state journal with_journal with_trace db_users db_categories
         db_posts].
    repeat (split; [reflexivity|]). split; [|now left].
    rewrite !responses_app, responses_Service. cbn. now rewrite !app_nil_r.
  - unfold task_bind at 1.
    destruct (regExp_i (trim text)) as [matches|] eqn:Hregexp.
    + unfold_task.
      cbn [state journal with_journal with_trace db_users db_categories
           db_posts].
      destruct (find _ (db_categories (state s))) as [c|] eqn:Hfind;
        do 2 eexists; (split; [reflexivity|]);
        cbn [state journal with_journal with_trace db_users db_categories
             db_posts];
        repeat (split; [reflexivity|]);
        (split; [rewrite !responses_app, responses_Service; cbn;
                 now rewrite !app_nil_r|]).
      * right. exists text, matches, c.
        destruct (find_some _ _ Hfind) as [Hin Hmatch]. auto.
      * now left.
    + unfold_task. do 2 eexists. split; [reflexivity|].
      cbn [state journal with_journal with_trace db_users db_categories
           db_posts].
      repeat (split; [reflexivity|]). split; [|now left].
      rewrite !responses_app, responses_Service. cbn. now rewrite !app_nil_r.
Qed.

(** X20.  The two searches never throw and change nothing in the
    collections; each sends exactly one query to the news source, and returns
    nothing found when the source throws.  The text [searchNews] asks for
    starts with the caller's query, and is that query when the category is
    left out or empty; [fetchBreakingNews] asks for ten articles by date,
    with no text. *)
Theorem searches_ask_once_and_never_throw (query : jsstring)
    (category : option jsstring) (page pageSize : option N) (s : Server) :
  (exists result s' q text,
     searchNews toLowerCase newsSearch query category page pageSize s
     = (Done result, s')
     /\ state s' = state s
     /\ queries (journal s') = queries (journal s) ++ [q]
     /\ query_q q = Some text
     /\ firstn (length query) text = query
     /\ (truthy category = false -> text = query)
     /\ (forall e, newsSearch (journal s) q = SearchThrows e ->
         result = {| result_articles := []; result_totalResults := 0 |}))
  /\ (exists articles s' q,
        fetchBreakingNews newsSearch twoHoursAgo s = (Done articles, s')
        /\ state s' = state s
        /\ queries (journal s') = queries (journal s) ++ [q]
        /\ query_q q = None
        /\ query_pageSize q = 10%N
        /\ query_sortBy q = js "publishedAt"
        /\ (forall e, newsSearch (journal s) q = SearchThrows e ->
            articles = [])).
Proof.
  split.
  - unfold searchNews. cbv zeta.
    match goal with
    | |- context [if truthy category then ?a else ?b] =>
        set (text := if truthy category then a else b)
    end.
    match goal with
    | |- context [everythingQuery _ ?q0] => set (q := q0)
    end.
    assert (Hprefix : firstn (length query) text = query
                      /\ (truthy category = false -> text = query)).
    { subst text. destruct (truthy category).
      - split; [|discriminate].
        destruct (find _ this_categories).
        + apply firstn_prefix.
        + rewrite <- (app_nil_r query) at 2. apply firstn_prefix.
      - split; [|reflexivity].
        rewrite <- (app_nil_r query) at 2. apply firstn_prefix. }
    unfold task_try at 1. unfold task_bind at 1. unfold everythingQuery at 1.
    destruct (newsSearch (journal s) q) as [e|articles totalResults] eqn:Hq;
      unfold_task; do 2 eexists; exists q, text;
      (split; [reflexivity|]);
      cbn [state journal with_journal]; (split; [reflexivity|]);
      (split; [rewrite !queries_app; cbn; now rewrite ?app_nil_r|]);
      (split; [reflexivity|]);
      (split; [apply Hprefix|]); (split; [apply Hprefix|]).
    + reflexivity.
    + intros e He. congruence.
  - unfold fetchBreakingNews.
    unfold task_try at 1. unfold task_bind at 1. unfold task_bind at 1.
    unfold everythingQuery at 1.
    match goal with
    | |- context [newsSearch _ ?q0] => set (q := q0)
    end.
    destruct (newsSearch (journal s) q) as [e|articles totalResults] eqn:Hq;
      unfold_task; do 2 eexists; exists q;
      (split; [reflexivity|]);
      cbn [state journal with_journal]; (split; [reflexivity|]);
      (split; [rewrite !queries_app; cbn; now rewrite ?app_nil_r|]);
      repeat (split; [reflexivity|]).
    + reflexivity.
    + intros e He. congruence.
Qed.

End ServiceQueries.

(* ===================================================================== *)
(** ** Concrete runs of the further properties *)
(* ===================================================================== *)

Import Desk.

Lemma source_page_honours_pageSize : honours_pageSize source_page.
Proof.
  intros history params articles [= <-]. rewrite length_firstn. lia.
Qed.

Lemma update_ok_available : store_available update_ok.
Proof. intros j n p. reflexivity. Qed.

Lemma liked_post_unique_likes : unique_likes liked_post.
Proof.
  unfold unique_likes. cbn.
  constructor; [intros [H|[]]; discriminate H|].
  constructor; [intros []|]. constructor.
Qed.

Lemma visitor_does_not_like : ~ likes_it (user_id visitor) liked_post.
Proof. intros [H|[H|[]]]; discriminate H. Qed.

(** X1 at work: the title of the rewrite of a complete answer. *)
Lemma rewritten_title_is_one_line_witness :
  exists processed,
    processedArticle asciiLower sampleDate article answer_complete = Some processed
    /\ single_line (ProcessedArticle.title processed)
    /\ starts_trimmed (ProcessedArticle.title processed).
Proof.
  eexists. split; [reflexivity|].
  exact (@rewritten_title_is_one_line asciiLower sampleDate article answer_complete _
           eq_refl).
Defined.

(** X2 at work: the content of the same rewrite. *)
Lemma rewritten_content_is_trimmed_witness :
  exists processed,
    processedArticle asciiLower sampleDate article answer_complete = Some processed
    /\ starts_trimmed (ProcessedArticle.content processed)
    /\ ends_trimmed (ProcessedArticle.content processed).
Proof.
  eexists. split; [reflexivity|].
  exact (@rewritten_content_is_trimmed asciiLower sampleDate article answer_complete _
           eq_refl).
Defined.

(** X3 at work: the post made from that rewrite passes the validation. *)
Lemma rewrite_is_valid_iff_content_and_date_are_witness :
  exists processed,
    processedArticle asciiLower sampleDate article answer_complete
    = Some processed
    /\ validate (newPost processed 10%N 1%N article) = true.
Proof.
  eexists. split; [reflexivity|].
  apply (proj2 (@rewrite_is_valid_iff_content_and_date_are asciiLower
                  sampleDate article answer_complete _ 10%N 1%N eq_refl)).
  split; [discriminate|]. split; [|discriminate].
  apply Nat.leb_le. vm_compute. reflexivity.
Defined.

(** The validation at work on a date that is none: the rewrite succeeds, the
    save is refused, the article is counted as failed and no post is
    stored. *)
Example scenario_invalid_date :
  let r := fetchAndProcessNews asciiLower sampleDate users_ok
             (source_of undated_article) (model_says answer_complete)
             store_ok world in
  fst r = Return {| success := 0; failed := 1 |}
  /\ db_posts (snd r) = []
  /\ count is_save (trace (snd r)) = 1.
Proof. repeat split; vm_compute; reflexivity. Qed.

(** X4 at work: one article about technology, one post, one success. *)
Lemma success_counts_the_new_posts_witness :
  exists added,
    db_posts world_after_ingestion = db_posts world ++ added
    /\ success {| success := 1; failed := 0 |} = N.of_nat (length added)
    /\ processedCount world_after_ingestion = {| success := 1; failed := 0 |}.
Proof.
  apply (@success_counts_the_new_posts asciiLower sampleDate users_ok (source_of article)
           (model_says answer_complete) store_ok world world_after_ingestion
           {| success := 1; failed := 0 |}).
  vm_compute. reflexivity.
Defined.

(** X5 at work: the post of that invocation belongs to [admin]. *)
Lemma ingested_posts_are_attributed_witness :
  exists added,
    db_posts world_after_ingestion = db_posts world ++ added
    /\ Forall (attributed (user_id admin) (db_categories world)) added.
Proof.
  exact (@ingested_posts_are_attributed asciiLower sampleDate users_ok (source_of article)
           (model_says answer_complete) store_ok world admin eq_refl).
Defined.

(** X7 at work: a source that cuts its answer to the page size. *)
Lemma invocation_is_bounded_witness :
  exists evs added,
    trace (snd (fetchAndProcessNews asciiLower sampleDate users_ok source_page
                  (model_says answer_complete) store_ok world))
    = trace world ++ evs
    /\ db_posts (snd (fetchAndProcessNews asciiLower sampleDate users_ok source_page
                        (model_says answer_complete) store_ok world))
       = db_posts world ++ added
    /\ count is_model_call evs <= 40
    /\ count is_save evs <= 40
    /\ length added <= 40.
Proof.
  exact (@invocation_is_bounded asciiLower sampleDate users_ok source_page
           (model_says answer_complete) store_ok world
           source_page_honours_pageSize).
Defined.

(** X8 at work: the news source is down for every topic. *)
Lemma every_topic_pauses_or_fails_witness :
  exists evs,
    trace (snd (fetchAndProcessNews asciiLower sampleDate users_ok source_down
                  (model_says answer_complete) store_ok world))
    = trace world ++ evs
    /\ count is_topic_end evs = 8.
Proof.
  exact (@every_topic_pauses_or_fails asciiLower sampleDate users_ok source_down
           (model_says answer_complete) store_ok world admin eq_refl).
Defined.

(** X12 at work: a like of [visitor] on the stored post. *)
Lemma routes_keep_the_content_witness :
  Forall2 same_content (db_posts (state server))
    (db_posts (state (snd (likePost update_ok (ObjectIdOf 0) visitor server)))).
Proof.
  exact (proj1 (@routes_keep_the_content update_ok unlink_ok (ObjectIdOf 0)
                  visitor server (likePost update_ok (ObjectIdOf 0) visitor)
                  (or_intror (or_introl eq_refl)))).
Defined.

(** X13 at work: an unlike of [reader], who liked the stored post. *)
Lemma routes_keep_one_like_per_user_witness :
  Forall unique_likes
    (db_posts (state (snd (likePost update_ok (ObjectIdOf 0) reader server)))).
Proof.
  apply (@routes_keep_one_like_per_user update_ok unlink_ok (ObjectIdOf 0)
           reader server (likePost update_ok (ObjectIdOf 0) reader)
           (or_intror (or_introl eq_refl))).
  constructor; [exact liked_post_unique_likes | constructor].
Defined.


(** X15 at work: [visitor] likes the stored post, which then has three
    likes. *)
Lemma like_answer_is_truthful_witness :
  exists stored,
    nth_error
      (db_posts (state (snd (likePost update_ok (ObjectIdOf 0) visitor server))))
      0 = Some stored
    /\ 3 = length (Post.likes stored).
Proof.
  destruct (@like_answer_is_truthful update_ok 0 visitor server liked_post
              (success_response (Some (js "Post liked")) (LikeData true 3))
              true 3 eq_refl liked_post_unique_likes eq_refl eq_refl)
    as (stored & Hstored & Hcount & _).
  exists stored. split; [exact Hstored | exact Hcount].
Defined.

(** X16 at work: [visitor] likes the stored post, then takes the like
    back. *)
Lemma like_then_unlike_restores_witness :
  db_posts
    (state (snd (likePost update_ok (ObjectIdOf 0) visitor
                   (snd (likePost update_ok (ObjectIdOf 0) visitor server)))))
  = [pre_save liked_post]
  /\ map data
       (responses
          (journal
             (snd (likePost update_ok (ObjectIdOf 0) visitor
                     (snd (likePost update_ok (ObjectIdOf 0) visitor
                             server))))))
     = [LikeData true 3; LikeData false 2].
Proof.
  exact (@like_then_unlike_restores update_ok 0 visitor server liked_post
           update_ok_available eq_refl eq_refl eq_refl visitor_does_not_like).
Defined.

(** X17 at work: no post is stored at position 5. *)
Lemma unavailable_post_is_not_found_witness :
  responses (journal (snd (getPost update_ok (ObjectIdOf 5) server)))
  = responses (journal server) ++ [not_found]
  /\ state (snd (getPost update_ok (ObjectIdOf 5) server)) = state server.
Proof.
  exact (@unavailable_post_is_not_found update_ok (ObjectIdOf 5) visitor
           server (getPost update_ok (ObjectIdOf 5)) I (or_introl eq_refl)).
Defined.

(** X18 at work: [reader] deletes the stored post, then [visitor] tries to
    like it. *)
Lemma deleted_post_is_not_found_witness :
  responses
    (journal
       (snd (likePost update_ok (ObjectIdOf 0) visitor
               (snd (deletePost update_ok unlink_ok (ObjectIdOf 0) reader
                       server)))))
  = responses
      (journal (snd (deletePost update_ok unlink_ok (ObjectIdOf 0) reader
                       server)))
    ++ [not_found]
  /\ state
       (snd (likePost update_ok (ObjectIdOf 0) visitor
               (snd (deletePost update_ok unlink_ok (ObjectIdOf 0) reader
                       server))))
     = state (snd (deletePost update_ok unlink_ok (ObjectIdOf 0) reader
                     server)).
Proof.
  exact (@deleted_post_is_not_found update_ok unlink_ok (ObjectIdOf 0) reader
           visitor server (likePost update_ok (ObjectIdOf 0) visitor)
           eq_refl (or_intror (or_introl eq_refl))).
Defined.
